(** * psycopg2: the single path into libpq (psycopg/pqpath.c)

    A shallow embedding of the query-execution core of psycopg2 and the
    properties its specification states about it.

    Conventions.
    - A C string is modelled by the [string] of its characters before the
      terminating NUL; reading the terminator yields [zero].  A NULL
      [char *] is [None].
    - C [int]/[long] values are [Z].
    - The functions of pqpath.c act on a [world]: the cursor, the connection
      it belongs to, the libpq session the connection points to, the Python
      file object used by COPY, the interpreter's error indicator and the
      trace of libpq calls.  They are written in a state monad whose failure
      ([None]) stands for undefined behaviour of the C code (an
      out-of-bounds read). *)

From Stdlib Require Import ZArith List String Ascii Bool Lia.
Import ListNotations.

Local Open Scope string_scope.
Local Open Scope Z_scope.

(** ** C strings *)

Module CString.

Definition code (c : ascii) : Z := Z.of_nat (nat_of_ascii c).

(** [s[i]]: the character at index [i], the terminator at the end. *)
Definition char_at (s : string) (i : nat) : ascii :=
  match String.get i s with
  | Some c => c
  | None => zero
  end.

Definition strlen (s : string) : Z := Z.of_nat (String.length s).

(** [&s[n]]: the string that starts [n] characters into [s]. *)
Fixpoint offset (n : nat) (s : string) : string :=
  match n, s with
  | O, _ => s
  | S n', String _ s' => offset n' s'
  | S _, EmptyString => EmptyString
  end.

(** [strncmp(a, b, n)]: the difference of the first pair of characters
    that differ among the first [n], compared as unsigned chars. *)
Fixpoint strncmp (a b : string) (n : nat) : Z :=
  match n with
  | O => 0
  | S n' =>
      match a, b with
      | EmptyString, EmptyString => 0
      | EmptyString, String cb _ => 0 - code cb
      | String ca _, EmptyString => code ca
      | String ca a', String cb b' =>
          if Ascii.eqb ca cb then strncmp a' b' n' else code ca - code cb
      end
  end.

Fixpoint strcmp (a b : string) : Z :=
  match a, b with
  | EmptyString, EmptyString => 0
  | EmptyString, String cb _ => 0 - code cb
  | String ca _, EmptyString => code ca
  | String ca a', String cb b' =>
      if Ascii.eqb ca cb then strcmp a' b' else code ca - code cb
  end.

(** [strstr(hay, needle)]: the suffix of [hay] at the first occurrence of
    [needle], NULL when there is none. *)
Fixpoint strstr (hay needle : string) : option string :=
  if String.prefix needle hay then Some hay
  else match hay with
       | EmptyString => None
       | String _ hay' => strstr hay' needle
       end.

(** The C string a Python string holds: its characters before the first
    NUL. *)
Fixpoint until_nul (s : string) : string :=
  match s with
  | EmptyString => EmptyString
  | String c s' => if Ascii.eqb c zero then EmptyString else String c (until_nul s')
  end.

(** No character of [s] is the terminator. *)
Fixpoint nul_free (s : string) : bool :=
  match s with
  | EmptyString => true
  | String c s' => negb (Ascii.eqb c zero) && nul_free s'
  end.

(** Equality of two C strings. *)
Definition streq (a b : string) : bool := strcmp a b =? 0.

(** [strdup] copies the characters up to the terminator. *)
Definition strdup (s : string) : string := s.

End CString.

Import CString.

(** ** Exceptions of the module *)

(** The exception classes pqpath.c raises, and the Python built-ins that
    reach it through file callbacks. *)
Inductive PyExc : Type :=
| Error
| DatabaseError
| OperationalError
| ProgrammingError
| DataError
| IntegrityError
| InternalError
| NotSupportedError
| TransactionRollbackError
| QueryCanceledError
| PyExc_AttributeError
| PyExc_MemoryError
| PyExc_Other (name : string).

(** The DB-API family: [Error] and its subclasses. *)
Definition is_dbapi_error (e : PyExc) : bool :=
  match e with
  | PyExc_AttributeError | PyExc_MemoryError | PyExc_Other _ => false
  | _ => true
  end.

(** ** strip_severity (pqpath.c, lines 50-62) *)

Definition strip_severity (msg : option string) : option string :=
  match msg with
  | None => None
  | Some msg =>
      if (strlen msg >? 8) &&
         ((strncmp msg "ERROR:  " 8 =? 0) ||
          (strncmp msg "FATAL:  " 8 =? 0) ||
          (strncmp msg "PANIC:  " 8 =? 0))
      then Some (offset 8 msg)
      else Some msg
  end.

(** The severity prefixes, as the specification lists them. *)
Definition severity_prefixes : list string :=
  ["ERROR:  "; "FATAL:  "; "PANIC:  "].

(** ** exception_from_sqlstate (pqpath.c, lines 68-146)

    [extensions] is the build switch PSYCOPG_EXTENSIONS. *)

Definition exception_from_sqlstate (extensions : bool) (sqlstate : string)
  : PyExc :=
  let fallback := DatabaseError in
  match char_at sqlstate 0 with
  | "0"%char =>
      match char_at sqlstate 1 with
      | "A"%char => NotSupportedError
      | _ => fallback
      end
  | "2"%char =>
      match char_at sqlstate 1 with
      | "1"%char => ProgrammingError
      | "2"%char => DataError
      | "3"%char => IntegrityError
      | "4"%char | "5"%char => InternalError
      | "6"%char | "7"%char | "8"%char => OperationalError
      | "B"%char | "D"%char | "F"%char => InternalError
      | _ => fallback
      end
  | "3"%char =>
      match char_at sqlstate 1 with
      | "4"%char => OperationalError
      | "8"%char | "9"%char | "B"%char => InternalError
      | "D"%char | "F"%char => ProgrammingError
      | _ => fallback
      end
  | "4"%char =>
      match char_at sqlstate 1 with
      | "0"%char =>
          if extensions then TransactionRollbackError else OperationalError
      | "2"%char | "4"%char => ProgrammingError
      | _ => fallback
      end
  | "5"%char =>
      if extensions && (strcmp sqlstate "57014" =? 0)
      then QueryCanceledError
      else OperationalError
  | "F"%char => InternalError
  | "P"%char => InternalError
  | "X"%char => InternalError
  | _ => fallback
  end.

(** The class table of the specification (section 4.2): two-character
    class code, kind. *)
Definition sqlstate_class_table : list (string * PyExc) :=
  [ ("0A", NotSupportedError);
    ("21", ProgrammingError);
    ("22", DataError);
    ("23", IntegrityError);
    ("24", InternalError); ("25", InternalError);
    ("26", OperationalError); ("27", OperationalError);
    ("28", OperationalError);
    ("2B", InternalError); ("2D", InternalError); ("2F", InternalError);
    ("34", OperationalError);
    ("38", InternalError); ("39", InternalError); ("3B", InternalError);
    ("3D", ProgrammingError); ("3F", ProgrammingError);
    ("40", TransactionRollbackError);
    ("42", ProgrammingError); ("44", ProgrammingError);
    ("53", OperationalError); ("54", OperationalError);
    ("55", OperationalError); ("57", OperationalError);
    ("58", OperationalError);
    ("F0", InternalError); ("P0", InternalError); ("XX", InternalError) ].

Fixpoint class_lookup (cls : string) (table : list (string * PyExc))
  : option PyExc :=
  match table with
  | [] => None
  | (c, k) :: rest => if String.eqb c cls then Some k else class_lookup cls rest
  end.

(** The class code of an SQLSTATE: its first two characters. *)
Definition sqlstate_class (sqlstate : string) : string :=
  String.substring 0 2 sqlstate.

(** Classification as the specification words it: the exact code 57014,
    then the table, then the generic database error. *)
Definition classify_by_table (sqlstate : string) : PyExc :=
  if streq sqlstate "57014" then QueryCanceledError
  else match class_lookup (sqlstate_class sqlstate) sqlstate_class_table with
       | Some kind => kind
       | None => DatabaseError
       end.

(** Classification by table with the whole-family rows the code has: every
    class that starts with 5 is operational, every class that starts with
    F, P or X is internal. *)
Definition classify_by_family (sqlstate : string) : PyExc :=
  if streq sqlstate "57014" then QueryCanceledError
  else
    let first := char_at sqlstate 0 in
    if Ascii.eqb first "5" then OperationalError
    else if Ascii.eqb first "F" || Ascii.eqb first "P" || Ascii.eqb first "X"
    then InternalError
    else match class_lookup (sqlstate_class sqlstate) sqlstate_class_table with
         | Some kind => kind
         | None => DatabaseError
         end.


(** ** The C library's atoi

    [atoi(s)] is [(int) strtol(s, NULL, 10)]: leading white space, an
    optional sign, then decimal digits; [strtol] saturates at the bounds of
    [long], the cast keeps the low 32 bits. *)

Module Libc.

Definition INT_MAX : Z := 2147483647.
Definition LONG_MAX : Z := 9223372036854775807.
Definition LONG_MIN : Z := -9223372036854775808.

Definition isspace (c : ascii) : bool :=
  let n := code c in (n =? 32) || ((9 <=? n) && (n <=? 13)).

Definition isdigit (c : ascii) : bool :=
  let n := code c in (48 <=? n) && (n <=? 57).

Fixpoint skip_spaces (s : string) : string :=
  match s with
  | String c s' => if isspace c then skip_spaces s' else s
  | EmptyString => s
  end.

(** The value of the leading run of digits of [s], after [acc]. *)
Fixpoint digits_value (acc : Z) (s : string) : Z :=
  match s with
  | String c s' =>
      if isdigit c then digits_value (acc * 10 + (code c - 48)) s' else acc
  | EmptyString => acc
  end.

Definition saturate_long (v : Z) : Z :=
  if v >? LONG_MAX then LONG_MAX
  else if v <? LONG_MIN then LONG_MIN
  else v.

Definition strtol10 (s : string) : Z :=
  match skip_spaces s with
  | String "-"%char digits => saturate_long (- digits_value 0 digits)
  | String "+"%char digits => saturate_long (digits_value 0 digits)
  | digits => saturate_long (digits_value 0 digits)
  end.

(** The conversion of a [long] to [int]: the low 32 bits, signed. *)
Definition int_of_long (v : Z) : Z :=
  (v + 2 ^ 31) mod 2 ^ 32 - 2 ^ 31.

Definition atoi (s : string) : Z := int_of_long (strtol10 s).

End Libc.

Import Libc.

(** The newline character, and the string made of it. *)
Definition newline : string := String (ascii_of_nat 10) EmptyString.

(** ** libpq: results *)

Inductive ExecStatusType : Type :=
| PGRES_EMPTY_QUERY
| PGRES_COMMAND_OK
| PGRES_TUPLES_OK
| PGRES_COPY_OUT
| PGRES_COPY_IN
| PGRES_BAD_RESPONSE
| PGRES_NONFATAL_ERROR
| PGRES_FATAL_ERROR.

Inductive ConnStatusType : Type :=
| CONNECTION_OK
| CONNECTION_BAD
| CONNECTION_STARTED
| CONNECTION_MADE
| CONNECTION_AWAITING_RESPONSE
| CONNECTION_AUTH_OK
| CONNECTION_SETENV
| CONNECTION_SSL_STARTUP
| CONNECTION_NEEDED.

(** One column of a tuple result: what [PQfname], [PQftype], [PQfsize] and
    [PQfmod] answer for it. *)
Record PGfield : Type := mkPGfield {
  fname : string;
  ftype : Z;
  fsize : Z;
  fmod : Z
}.

(** A [PGresult], by what the accessors of libpq answer for it. *)
Record PGresult : Type := mkPGresult {
  resultStatus : ExecStatusType;        (* PQresultStatus *)
  resultErrorMessage : string;          (* PQresultErrorMessage *)
  resultSqlstate : option string;       (* PQresultErrorField(PG_DIAG_SQLSTATE) *)
  cmdStatus : string;                   (* PQcmdStatus *)
  cmdTuples : option string;            (* PQcmdTuples *)
  oidValue : Z;                         (* PQoidValue *)
  ntuples : Z;                          (* PQntuples *)
  fields : list PGfield;                (* PQnfields and the column accessors *)
  binaryTuples : bool;                  (* PQbinaryTuples *)
  cellLengths : list (list Z)           (* PQgetlength, by row then column *)
}.

Definition ExecStatusType_eqb (a b : ExecStatusType) : bool :=
  match a, b with
  | PGRES_EMPTY_QUERY, PGRES_EMPTY_QUERY
  | PGRES_COMMAND_OK, PGRES_COMMAND_OK
  | PGRES_TUPLES_OK, PGRES_TUPLES_OK
  | PGRES_COPY_OUT, PGRES_COPY_OUT
  | PGRES_COPY_IN, PGRES_COPY_IN
  | PGRES_BAD_RESPONSE, PGRES_BAD_RESPONSE
  | PGRES_NONFATAL_ERROR, PGRES_NONFATAL_ERROR
  | PGRES_FATAL_ERROR, PGRES_FATAL_ERROR => true
  | _, _ => false
  end.

Definition PQresultStatus (res : PGresult) : ExecStatusType := resultStatus res.
Definition PQresultErrorMessage (res : PGresult) : option string :=
  Some (resultErrorMessage res).
Definition PQresultErrorField_SQLSTATE (res : PGresult) : option string :=
  resultSqlstate res.
Definition PQcmdStatus (res : PGresult) : string := cmdStatus res.
Definition PQcmdTuples (res : PGresult) : option string := cmdTuples res.
Definition PQoidValue (res : PGresult) : Z := oidValue res.
Definition PQntuples (res : PGresult) : Z := ntuples res.
Definition PQnfields (res : PGresult) : Z := Z.of_nat (List.length (fields res)).
Definition PQbinaryTuples (res : PGresult) : bool := binaryTuples res.
Definition PQgetlength (res : PGresult) (row col : nat) : Z :=
  nth col (nth row (cellLengths res) []) 0.

(** ** Python objects *)

(** An exception instance: its class, its message, and the attributes
    [psyco_set_error] attaches to it. *)
Record exception : Type := mkException {
  exc_type : PyExc;
  exc_message : string;
  exc_pgerror : option string;
  exc_pgcode : option string;
  exc_cursor : bool
}.

(** What the methods of a file object return: a string or [None]. *)
Inductive PyObject : Type :=
| PyString (s : string)
| Py_None.

Inductive pyresult : Type :=
| Returns (o : PyObject)
| Raises (e : exception).

Inductive pycall : Type :=
| Py_read (size : Z)
| Py_readline
| Py_write (data : string).

(** The file object a COPY reads from or writes to: the methods it has,
    what its successive method calls will answer, and the calls received so
    far.  Once the script is used up, a call returns the empty string (a
    file at its end). *)
Record PyFile : Type := mkPyFile {
  file_attrs : list string;
  file_script : list pyresult;
  file_calls : list pycall
}.

(** ** libpq: the session *)

(** What [PQgetCopyData] delivers. *)
Inductive copy_frame : Type :=
| CopyRow (data : string)
| CopyWouldBlock
| CopyDone
| CopyError.

(** What [PQgetline] delivers: end of input, a whole line, or a line cut
    at the size of the buffer. *)
Inductive line_frame : Type :=
| LineEOF
| LineWhole (line : string)
| LinePart (line : string).

(** The answer of the session to one call: the status and error message
    of the connection after the call, and one field per kind of call.  A call
    reads the field that concerns it. *)
Record reply : Type := mkReply {
  r_status : ConnStatusType;
  r_error : string;
  r_result : option PGresult;     (* PQexec, PQgetResult, the green exec *)
  r_int : Z;                      (* calls that return an int *)
  r_copy : copy_frame;            (* PQgetCopyData *)
  r_line : line_frame;            (* PQgetline *)
  r_wait : option exception       (* the wait callback of the green exec raising *)
}.

(** The object [conn->pgconn] points to: the answers still to come are the
    script of the session, one per call. *)
Record PGconn : Type := mkPGconn {
  pg_status : ConnStatusType;
  pg_error : string;
  pg_script : list reply
}.

Inductive call : Type :=
| Call_PQexec (query : string)
| Call_exec_green (query : string)
| Call_PQsendQuery (query : string)
| Call_PQflush
| Call_PQgetResult
| Call_PQclear (res : PGresult)
| Call_PQputCopyData (buffer : string)
| Call_PQputCopyEnd (errormsg : option string)
| Call_PQgetCopyData
| Call_PQputline (line : string)
| Call_PQendcopy
| Call_PQgetline
| Call_PQfinish.

(** ** The connection and the cursor *)

(** [conn->status]: pqpath.c names two of its values. *)
Inductive conn_status : Type :=
| CONN_STATUS_READY
| CONN_STATUS_BEGIN
| CONN_STATUS_OTHER (value : Z).

Definition conn_status_eqb (a b : conn_status) : bool :=
  match a, b with
  | CONN_STATUS_READY, CONN_STATUS_READY => true
  | CONN_STATUS_BEGIN, CONN_STATUS_BEGIN => true
  | CONN_STATUS_OTHER x, CONN_STATUS_OTHER y => x =? y
  | _, _ => false
  end.

Inductive async_state : Type :=
| ASYNC_DONE
| ASYNC_READ
| ASYNC_WRITE.

(** A typecaster, by its name; the two defaults of the module. *)
Definition typecast : Type := string.
Definition psyco_default_cast : typecast := "DEFAULT".
Definition psyco_default_binary_cast : typecast := "BINARY".

(** A dictionary from type oid to typecaster. *)
Definition cast_dict : Type := list (Z * typecast).

Fixpoint PyDict_GetItem (d : cast_dict) (key : Z) : option typecast :=
  match d with
  | [] => None
  | (k, v) :: rest => if k =? key then Some v else PyDict_GetItem rest key
  end.

Record connectionObject : Type := mkConnection {
  status : conn_status;
  isolation_level : Z;
  mark : Z;
  critical : option string;
  closed : Z;
  protocol : Z;
  async_status : async_state;
  async_cursor : bool;                  (* holds a reference to the cursor *)
  conn_string_types : cast_dict
}.

(** One item of [cursor.description]. *)
Record description_item : Type := mkDescription {
  d_name : string;
  d_type_code : Z;
  d_display_size : option Z;
  d_internal_size : Z;
  d_precision : option Z;
  d_scale : option Z;
  d_null_ok : option bool
}.

Record cursorObject : Type := mkCursor {
  pgres : option PGresult;
  rowcount : Z;
  lastoid : Z;
  notuples : Z;
  row : Z;
  columns : Z;
  description : option (list description_item);   (* [None] is Py_None *)
  casts : option (list typecast);
  pgstatus : option string;
  copysize : Z;
  string_types : option cast_dict
}.

(** ** The world *)

Record world : Type := mkWorld {
  w_curs : cursorObject;
  w_conn : connectionObject;
  w_pg : option PGconn;                 (* [conn->pgconn]; [None] is NULL *)
  w_file : PyFile;                      (* [curs->copyfile] *)
  w_err : option exception;             (* the error indicator *)
  w_green : bool;                       (* [psyco_green()] *)
  w_types : cast_dict;                  (* [psyco_types] *)
  w_trace : list call                   (* libpq calls, oldest first *)
}.

Definition set_curs (c : cursorObject) (w : world) : world :=
  mkWorld c (w_conn w) (w_pg w) (w_file w) (w_err w) (w_green w) (w_types w)
    (w_trace w).
Definition set_conn (c : connectionObject) (w : world) : world :=
  mkWorld (w_curs w) c (w_pg w) (w_file w) (w_err w) (w_green w) (w_types w)
    (w_trace w).
Definition set_pg (p : option PGconn) (w : world) : world :=
  mkWorld (w_curs w) (w_conn w) p (w_file w) (w_err w) (w_green w) (w_types w)
    (w_trace w).
Definition set_file (f : PyFile) (w : world) : world :=
  mkWorld (w_curs w) (w_conn w) (w_pg w) f (w_err w) (w_green w) (w_types w)
    (w_trace w).
Definition set_err (e : option exception) (w : world) : world :=
  mkWorld (w_curs w) (w_conn w) (w_pg w) (w_file w) e (w_green w) (w_types w)
    (w_trace w).
Definition set_trace (t : list call) (w : world) : world :=
  mkWorld (w_curs w) (w_conn w) (w_pg w) (w_file w) (w_err w) (w_green w)
    (w_types w) t.

Definition set_status (v : conn_status) (c : connectionObject) :=
  mkConnection v (isolation_level c) (mark c) (critical c) (closed c)
    (protocol c) (async_status c) (async_cursor c) (conn_string_types c).
Definition set_mark (v : Z) (c : connectionObject) :=
  mkConnection (status c) (isolation_level c) v (critical c) (closed c)
    (protocol c) (async_status c) (async_cursor c) (conn_string_types c).
Definition set_critical (v : option string) (c : connectionObject) :=
  mkConnection (status c) (isolation_level c) (mark c) v (closed c)
    (protocol c) (async_status c) (async_cursor c) (conn_string_types c).
Definition set_closed (v : Z) (c : connectionObject) :=
  mkConnection (status c) (isolation_level c) (mark c) (critical c) v
    (protocol c) (async_status c) (async_cursor c) (conn_string_types c).
Definition set_async_status (v : async_state) (c : connectionObject) :=
  mkConnection (status c) (isolation_level c) (mark c) (critical c) (closed c)
    (protocol c) v (async_cursor c) (conn_string_types c).
Definition set_async_cursor (v : bool) (c : connectionObject) :=
  mkConnection (status c) (isolation_level c) (mark c) (critical c) (closed c)
    (protocol c) (async_status c) v (conn_string_types c).

Definition set_pgres (v : option PGresult) (c : cursorObject) :=
  mkCursor v (rowcount c) (lastoid c) (notuples c) (row c) (columns c)
    (description c) (casts c) (pgstatus c) (copysize c) (string_types c).
Definition set_rowcount (v : Z) (c : cursorObject) :=
  mkCursor (pgres c) v (lastoid c) (notuples c) (row c) (columns c)
    (description c) (casts c) (pgstatus c) (copysize c) (string_types c).
Definition set_lastoid (v : Z) (c : cursorObject) :=
  mkCursor (pgres c) (rowcount c) v (notuples c) (row c) (columns c)
    (description c) (casts c) (pgstatus c) (copysize c) (string_types c).
Definition set_notuples (v : Z) (c : cursorObject) :=
  mkCursor (pgres c) (rowcount c) (lastoid c) v (row c) (columns c)
    (description c) (casts c) (pgstatus c) (copysize c) (string_types c).
Definition set_row (v : Z) (c : cursorObject) :=
  mkCursor (pgres c) (rowcount c) (lastoid c) (notuples c) v (columns c)
    (description c) (casts c) (pgstatus c) (copysize c) (string_types c).
Definition set_columns (v : Z) (c : cursorObject) :=
  mkCursor (pgres c) (rowcount c) (lastoid c) (notuples c) (row c) v
    (description c) (casts c) (pgstatus c) (copysize c) (string_types c).
Definition set_description (v : option (list description_item))
  (c : cursorObject) :=
  mkCursor (pgres c) (rowcount c) (lastoid c) (notuples c) (row c) (columns c)
    v (casts c) (pgstatus c) (copysize c) (string_types c).
Definition set_casts (v : option (list typecast)) (c : cursorObject) :=
  mkCursor (pgres c) (rowcount c) (lastoid c) (notuples c) (row c) (columns c)
    (description c) v (pgstatus c) (copysize c) (string_types c).
Definition set_pgstatus (v : option string) (c : cursorObject) :=
  mkCursor (pgres c) (rowcount c) (lastoid c) (notuples c) (row c) (columns c)
    (description c) (casts c) v (copysize c) (string_types c).

(** ** The monad of the C functions *)

Definition M (A : Type) : Type := world -> option (A * world).

Definition ret {A : Type} (a : A) : M A := fun w => Some (a, w).

Definition bind {A B : Type} (m : M A) (k : A -> M B) : M B :=
  fun w =>
    match m w with
    | Some (a, w') => k a w'
    | None => None
    end.

(** Undefined behaviour. *)
Definition undefined {A : Type} : M A := fun _ => None.

Definition gets {A : Type} (f : world -> A) : M A := fun w => Some (f w, w).

Definition modify (f : world -> world) : M unit := fun w => Some (tt, f w).

Declare Scope monad_scope.
Delimit Scope monad_scope with monad.

Notation "x <- c1 ;; c2" := (bind c1 (fun x => c2))
  (at level 61, c1 at next level, right associativity) : monad_scope.
Notation "' pat <- c1 ;; c2" :=
  (bind c1 (fun x => match x with pat => c2 end))
  (at level 61, pat pattern, c1 at next level, right associativity)
  : monad_scope.
Notation "c1 ;; c2" := (bind c1 (fun _ => c2))
  (at level 61, right associativity) : monad_scope.

Local Open Scope monad_scope.

Definition upd_conn (f : connectionObject -> connectionObject) : M unit :=
  modify (fun w => set_conn (f (w_conn w)) w).

Definition upd_curs (f : cursorObject -> cursorObject) : M unit :=
  modify (fun w => set_curs (f (w_curs w)) w).

Definition when (b : bool) (m : M unit) : M unit := if b then m else ret tt.


(** ** libpq: the calls

    Every call that reaches the backend is appended to the trace and
    consumes the next answer of the session.  On a NULL connection, and
    once the session has nothing more to answer, a call fails the way libpq
    documents it. *)

Definition ConnStatusType_eqb (a b : ConnStatusType) : bool :=
  match a, b with
  | CONNECTION_OK, CONNECTION_OK
  | CONNECTION_BAD, CONNECTION_BAD
  | CONNECTION_STARTED, CONNECTION_STARTED
  | CONNECTION_MADE, CONNECTION_MADE
  | CONNECTION_AWAITING_RESPONSE, CONNECTION_AWAITING_RESPONSE
  | CONNECTION_AUTH_OK, CONNECTION_AUTH_OK
  | CONNECTION_SETENV, CONNECTION_SETENV
  | CONNECTION_SSL_STARTUP, CONNECTION_SSL_STARTUP
  | CONNECTION_NEEDED, CONNECTION_NEEDED => true
  | _, _ => false
  end.

Definition trace (c : call) : M unit :=
  modify (fun w => set_trace (w_trace w ++ [c]) w).

Definition next_reply : M (option reply) :=
  fun w =>
    match w_pg w with
    | Some pg =>
        match pg_script pg with
        | r :: rest =>
            Some (Some r, set_pg (Some (mkPGconn (r_status r) (r_error r) rest)) w)
        | [] => Some (None, w)
        end
    | None => Some (None, w)
    end.

(** The number of answers the session still holds. *)
Definition pending_replies (w : world) : nat :=
  match w_pg w with
  | Some pg => List.length (pg_script pg)
  | None => O
  end.

Definition PQstatus : M ConnStatusType :=
  gets (fun w => match w_pg w with
                 | Some pg => pg_status pg
                 | None => CONNECTION_BAD
                 end).

Definition PQerrorMessage : M (option string) :=
  gets (fun w => match w_pg w with
                 | Some pg => Some (pg_error pg)
                 | None => Some ("connection pointer is NULL" ++ newline)%string
                 end).

Definition reply_result (r : option reply) : option PGresult :=
  match r with
  | Some r => r_result r
  | None => None
  end.

Definition reply_int (failure : Z) (r : option reply) : Z :=
  match r with
  | Some r => r_int r
  | None => failure
  end.

Definition PQexec (query : string) : M (option PGresult) :=
  trace (Call_PQexec query);;
  r <- next_reply;;
  ret (reply_result r).

Definition PQgetResult : M (option PGresult) :=
  trace Call_PQgetResult;;
  r <- next_reply;;
  ret (reply_result r).

Definition PQclear (res : PGresult) : M unit := trace (Call_PQclear res).

Definition PQsendQuery (query : string) : M Z :=
  trace (Call_PQsendQuery query);;
  r <- next_reply;;
  ret (reply_int 0 r).

Definition PQflush : M Z :=
  trace Call_PQflush;;
  r <- next_reply;;
  ret (reply_int (-1) r).

Definition PQputCopyData (buffer : string) : M Z :=
  trace (Call_PQputCopyData buffer);;
  r <- next_reply;;
  ret (reply_int (-1) r).

Definition PQputCopyEnd (errormsg : option string) : M Z :=
  trace (Call_PQputCopyEnd errormsg);;
  r <- next_reply;;
  ret (reply_int (-1) r).

(** The length returned and the buffer allocated. *)
Definition PQgetCopyData : M (Z * option string) :=
  trace Call_PQgetCopyData;;
  r <- next_reply;;
  ret (match r with
       | Some r =>
           match r_copy r with
           | CopyRow data => (strlen data, Some data)
           | CopyWouldBlock => (0, None)
           | CopyDone => (-1, None)
           | CopyError => (-2, None)
           end
       | None => (-2, None)
       end).

Definition PQputline (line : string) : M Z :=
  trace (Call_PQputline line);;
  r <- next_reply;;
  ret (reply_int (-1) r).

Definition PQendcopy : M Z :=
  trace Call_PQendcopy;;
  r <- next_reply;;
  ret (reply_int 1 r).

(** The status returned and the line left in the buffer. *)
Definition PQgetline : M (Z * string) :=
  trace Call_PQgetline;;
  r <- next_reply;;
  ret (match r with
       | Some r =>
           match r_line r with
           | LineEOF => (-1, "")
           | LineWhole line => (0, line)
           | LinePart line => (1, line)
           end
       | None => (-1, "")
       end).

Definition PQfinish : M unit :=
  trace Call_PQfinish;;
  modify (set_pg None).

(** [CLEARPGRES] and [IFCLEARPGRES] of pqpath.h, on [curs->pgres]. *)
Definition CLEARPGRES_curs : M unit :=
  res <- gets (fun w => pgres (w_curs w));;
  match res with
  | Some r => PQclear r
  | None => ret tt
  end;;
  upd_curs (set_pgres None).

Definition IFCLEARPGRES_curs : M unit :=
  res <- gets (fun w => pgres (w_curs w));;
  match res with
  | Some r => PQclear r;; upd_curs (set_pgres None)
  | None => ret tt
  end.

(** [IFCLEARPGRES] on a local variable: the value it is left with. *)
Definition IFCLEARPGRES (res : option PGresult) : M (option PGresult) :=
  match res with
  | Some r => PQclear r;; ret None
  | None => ret None
  end.

(** ** The interpreter *)

Definition PyErr_SetString (type : PyExc) (msg : option string) : M unit :=
  match msg with
  | Some m => modify (set_err (Some (mkException type m None None false)))
  | None => undefined
  end.

Definition PyErr_Occurred : M bool :=
  gets (fun w => match w_err w with Some _ => true | None => false end).

Definition has_attr (name : string) (f : PyFile) : bool :=
  existsb (String.eqb name) (file_attrs f).

(** [PyObject_GetAttrString(curs->copyfile, name)]: whether the attribute
    was found; a missing one raises AttributeError. *)
Definition PyObject_GetAttrString (name : string) : M bool :=
  f <- gets w_file;;
  if has_attr name f then ret true
  else
    modify (set_err (Some (mkException PyExc_AttributeError name None None false)));;
    ret false.

(** A call of a method of the file object: the object returned, NULL
    when the method raised. *)
Definition call_file (c : pycall) : M (option PyObject) :=
  f <- gets w_file;;
  match file_script f with
  | Returns o :: rest =>
      modify (set_file (mkPyFile (file_attrs f) rest (file_calls f ++ [c])));;
      ret (Some o)
  | Raises e :: rest =>
      modify (set_file (mkPyFile (file_attrs f) rest (file_calls f ++ [c])));;
      modify (set_err (Some e));;
      ret None
  | [] =>
      modify (set_file (mkPyFile (file_attrs f) [] (file_calls f ++ [c])));;
      ret (Some (PyString ""))
  end.

(** ** Collaborators outside pqpath.c *)

(** Modelled from the spec: [psyco_set_error] (psycopgmodule.c is not among
    the sources).  Every failure yields one classified error object
    carrying the stripped message and, when available, the raw message and
    the diagnostic code. *)
Definition psyco_set_error (exc : PyExc) (curs : bool) (msg : string)
  (pgerror pgcode : option string) : M unit :=
  modify (set_err (Some (mkException exc msg pgerror pgcode curs))).

(** Modelled from the spec: [conn_close] (connection_int.c is not among
    the sources).  It tears down the session: the connection is marked
    closed and its libpq session is finished. *)
Definition conn_close : M unit :=
  upd_conn (fun c => if closed c =? 0 then set_closed 1 c else c);;
  pg <- gets w_pg;;
  match pg with
  | Some _ => PQfinish
  | None => ret tt
  end.

(** Modelled from the spec: [conn_notice_process] and
    [conn_notifies_process] (connection_int.c is not among the sources)
    drain the notice and notification queues, which are outside the state
    kept here. *)
Definition conn_notice_process : M unit := ret tt.
Definition conn_notifies_process : M unit := ret tt.

(** Modelled from the spec: [curs_reset] (cursor_type.c is not among the
    sources) removes the information about the previous query.  The result
    buffer stays: [pq_fetch] reads [curs->pgres] right after the call. *)
Definition curs_reset : M unit :=
  upd_curs (set_notuples 1);;
  upd_curs (set_rowcount (-1));;
  upd_curs (set_row 0);;
  upd_curs (set_description None);;
  upd_curs (set_casts None).

(** Modelled from the spec: [psyco_exec_green] (green.c is not among the
    sources).  The cooperative wait hook runs in place of the blocking
    call: when it raises, no result comes back; otherwise the result of the
    command does. *)
Definition psyco_exec_green (query : string) : M (option PGresult) :=
  trace (Call_exec_green query);;
  r <- next_reply;;
  match r with
  | Some r =>
      match r_wait r with
      | Some e => modify (set_err (Some e));; ret None
      | None => ret (r_result r)
      end
  | None => ret None
  end.

(** Modelled from the spec: the type of [conn->mark] (connection.h is not
    among the sources) is an unsigned 64-bit counter. *)
Definition mark_incr (m : Z) : Z := (m + 1) mod 2 ^ 64.

(** [NUMERICOID] of pgtypes.h. *)
Definition NUMERICOID : Z := 1700.

(** The build switches the file is compiled under. *)
Record build : Type := mkBuild {
  PSYCOPG_EXTENSIONS : bool;
  HAVE_PQPROTOCOL3 : bool;
  PSYCOPG_DISPLAY_SIZE : bool
}.

(** * pqpath.c *)

Section Pqpath.

Variable cfg : build.

(** ** pq_raise (lines 152-222)

    [conn] is the connection of the world, never NULL; [curs] tells whether
    a cursor is given. *)
Definition pq_raise (curs : bool) (res : option PGresult) : M unit :=
  pg <- gets w_pg;;
  when (match pg with
        | Some s => ConnStatusType_eqb (pg_status s) CONNECTION_BAD
        | None => false
        end)
       (upd_conn (set_closed 2));;
  curs_pgres <- gets (fun w => pgres (w_curs w));;
  let res := match res with
             | None => if curs then curs_pgres else None
             | Some r => Some r
             end in
  proto <- gets (fun w => protocol (w_conn w));;
  let err := match res with
             | Some r => PQresultErrorMessage r
             | None => None
             end in
  let code := match res, err with
              | Some r, Some _ =>
                  if HAVE_PQPROTOCOL3 cfg && (proto =? 3)
                  then PQresultErrorField_SQLSTATE r
                  else None
              | _, _ => None
              end in
  conn_err <- PQerrorMessage;;
  let err := match err with
             | Some e => Some e
             | None => conn_err
             end in
  match err with
  | None => PyErr_SetString Error (Some "psycopg went psycotic without error set")
  | Some err =>
      let exc := match code with
                 | Some code => Some (exception_from_sqlstate (PSYCOPG_EXTENSIONS cfg) code)
                 | None => None
                 end in
      let exc :=
        match exc with
        | Some exc => exc
        | None =>
            if (strncmp err "ERROR:  Cannot insert a duplicate key" 37 =? 0)
               || (strncmp err "ERROR:  ExecAppend: Fail to add null" 36 =? 0)
               || (match strstr err "referential integrity violation" with
                   | Some _ => true
                   | None => false
                   end)
            then IntegrityError
            else if (match strstr err "could not serialize" with
                     | Some _ => true
                     | None => false
                     end)
                    || (match strstr err "deadlock detected" with
                        | Some _ => true
                        | None => false
                        end)
            then (if PSYCOPG_EXTENSIONS cfg then TransactionRollbackError
                  else OperationalError)
            else ProgrammingError
        end in
      match strip_severity (Some err) with
      | Some err2 => psyco_set_error exc curs err2 (Some err) code
      | None => undefined
      end
  end.

(** ** pq_set_critical, pq_clear_critical, pq_resolve_critical
    (lines 233-280) *)

Definition pq_set_critical (msg : option string) : M unit :=
  msg <- match msg with
         | None => PQerrorMessage
         | Some m => ret (Some m)
         end;;
  match msg with
  | Some m =>
      if negb (Ascii.eqb (char_at m 0) zero)
      then upd_conn (set_critical (Some (strdup m)))
      else upd_conn (set_critical None)
  | None => upd_conn (set_critical None)
  end.

Definition pq_clear_critical : M unit :=
  crit <- gets (fun w => critical (w_conn w));;
  match crit with
  | Some _ => upd_conn (set_critical None)
  | None => ret tt
  end.

(** The function returns NULL on every path.  [&(conn->critical[6])] lies
    within the stored string only when that has six characters or more. *)
Definition pq_resolve_critical (close : Z) : M unit :=
  crit <- gets (fun w => critical (w_conn w));;
  match crit with
  | Some crit =>
      if strlen crit <? 6 then undefined
      else
        let msg := offset 6 crit in
        PyErr_SetString OperationalError (Some msg);;
        when (close =? 1) conn_close;;
        pq_clear_critical
  | None => ret tt
  end.

(** ** pq_execute_command_locked (lines 342-382)

    The result is the return value with what is left in [*pgres] and
    [*error]. *)
Definition pq_execute_command_locked (query : string)
  : M (Z * option PGresult * option string) :=
  green <- gets w_green;;
  res <- (if negb green then PQexec query else psyco_exec_green query);;
  match res with
  | None =>
      msg <- PQerrorMessage;;
      ret (-1, None, option_map strdup msg)
  | Some r =>
      if negb (ExecStatusType_eqb (PQresultStatus r) PGRES_COMMAND_OK)
      then ret (-1, Some r, None)
      else
        res <- IFCLEARPGRES (Some r);;
        ret (0, res, None)
  end.

(** ** pq_complete_error (lines 392-409) *)
Definition pq_complete_error (res : option PGresult) (error : option string)
  : M unit :=
  match res with
  | Some r => pq_raise false (Some r)
  | None =>
      match error with
      | Some e => PyErr_SetString OperationalError (Some e)
      | None => PyErr_SetString OperationalError (Some "unknown error")
      end
  end;;
  _ <- IFCLEARPGRES res;;
  ret tt.

(** ** pq_begin_locked (lines 420-444) *)

Definition begin_query : list (option string) :=
  [ None;
    Some "BEGIN; SET TRANSACTION ISOLATION LEVEL READ COMMITTED";
    Some "BEGIN; SET TRANSACTION ISOLATION LEVEL SERIALIZABLE" ].

(** [query[level]], when that lies within the array. *)
Definition begin_query_at (level : Z) : option (option string) :=
  if level <? 0 then None else nth_error begin_query (Z.to_nat level).

Definition pq_begin_locked (res : option PGresult) (error : option string)
  : M (Z * option PGresult * option string) :=
  level <- gets (fun w => isolation_level (w_conn w));;
  st <- gets (fun w => status (w_conn w));;
  if (level =? 0) || negb (conn_status_eqb st CONN_STATUS_READY)
  then ret (0, res, error)
  else
    match begin_query_at level with
    | Some (Some query) =>
        ' (result, res, error) <- pq_execute_command_locked query;;
        when (result =? 0) (upd_conn (set_status CONN_STATUS_BEGIN));;
        ret (result, res, error)
    | _ => undefined
    end.

(** ** pq_commit (lines 452-486) *)
Definition pq_commit : M Z :=
  level <- gets (fun w => isolation_level (w_conn w));;
  st <- gets (fun w => status (w_conn w));;
  if (level =? 0) || negb (conn_status_eqb st CONN_STATUS_BEGIN)
  then ret 0
  else
    upd_conn (fun c => set_mark (mark_incr (mark c)) c);;
    ' (retvalue, res, error) <- pq_execute_command_locked "COMMIT";;
    conn_notice_process;;
    when (retvalue <? 0) (pq_complete_error res error);;
    upd_conn (set_status CONN_STATUS_READY);;
    ret retvalue.

(** ** pq_abort_locked, pq_abort (lines 488-544) *)
Definition pq_abort_locked (res : option PGresult) (error : option string)
  : M (Z * option PGresult * option string) :=
  level <- gets (fun w => isolation_level (w_conn w));;
  st <- gets (fun w => status (w_conn w));;
  if (level =? 0) || negb (conn_status_eqb st CONN_STATUS_BEGIN)
  then ret (0, res, error)
  else
    upd_conn (fun c => set_mark (mark_incr (mark c)) c);;
    ' (retvalue, res, error) <- pq_execute_command_locked "ROLLBACK";;
    when (retvalue =? 0) (upd_conn (set_status CONN_STATUS_READY));;
    ret (retvalue, res, error).

Definition pq_abort : M Z :=
  level <- gets (fun w => isolation_level (w_conn w));;
  st <- gets (fun w => status (w_conn w));;
  if (level =? 0) || negb (conn_status_eqb st CONN_STATUS_BEGIN)
  then ret 0
  else
    ' (retvalue, res, error) <- pq_abort_locked None None;;
    conn_notice_process;;
    when (retvalue <? 0) (pq_complete_error res error);;
    ret retvalue.

(** ** pq_reset_locked (lines 555-582) *)
Definition pq_reset_locked (res : option PGresult) (error : option string)
  : M (Z * option PGresult * option string) :=
  upd_conn (fun c => set_mark (mark_incr (mark c)) c);;
  level <- gets (fun w => isolation_level (w_conn w));;
  st <- gets (fun w => status (w_conn w));;
  ' (retvalue, res, error) <-
    (if (level >? 0) && conn_status_eqb st CONN_STATUS_BEGIN
     then pq_execute_command_locked "ABORT"
     else ret (0, res, error));;
  if negb (retvalue =? 0) then ret (retvalue, res, error)
  else
    ' (retvalue, res, error) <- pq_execute_command_locked "RESET ALL";;
    if negb (retvalue =? 0) then ret (retvalue, res, error)
    else
      ' (retvalue, res, error) <-
        pq_execute_command_locked "SET SESSION AUTHORIZATION DEFAULT";;
      if negb (retvalue =? 0) then ret (retvalue, res, error)
      else
        upd_conn (set_status CONN_STATUS_READY);;
        ret (retvalue, res, error).

(** ** The loop over the results of the backend

    [while ((curs->pgres = PQgetResult(conn)) != NULL)], as it closes each
    of the four COPY functions.  Every turn consumes one answer of the
    session, so as many turns as there are answers, and one more, always
    suffice. *)
Fixpoint get_results (fuel : nat) : M unit :=
  match fuel with
  | O => undefined
  | S fuel =>
      res <- PQgetResult;;
      upd_curs (set_pgres res);;
      match res with
      | None => ret tt
      | Some r =>
          when (ExecStatusType_eqb (PQresultStatus r) PGRES_FATAL_ERROR)
               (pq_raise true None);;
          IFCLEARPGRES_curs;;
          get_results fuel
      end
  end.

Definition grab_results : M unit :=
  fun w => get_results (S (pending_replies w)) w.

(** The number of answers the file object still holds. *)
Definition pending_file (w : world) : nat :=
  List.length (file_script (w_file w)).

(** ** _pq_copy_in_v3 (lines 1067-1157) *)

(** The loop, up to its [break]: the value of [error] it leaves. *)
Fixpoint copy_in_v3_loop (fuel : nat) (size : Z) : M Z :=
  match fuel with
  | O => undefined
  | S fuel =>
      o <- call_file (Py_read size);;
      match o with
      | Some (PyString data) =>
          let length := strlen data in
          if (length =? 0) || (length >? INT_MAX) then ret 0
          else
            res <- PQputCopyData data;;
            let error := if res =? 0 then 0
                         else if res =? -1 then 2
                         else 0 in
            if error =? 2 then ret 2
            else copy_in_v3_loop fuel size
      | _ => ret 1
      end
  end.

Definition _pq_copy_in_v3 : M Z :=
  func <- PyObject_GetAttrString "read";;
  if negb func then ret (-1)
  else
    size <- gets (fun w => copysize (w_curs w));;
    error <- (fun w => copy_in_v3_loop (S (pending_file w)) size w);;
    res <- (if error =? 0 then PQputCopyEnd None
            else if error =? 2
            then PQputCopyEnd (Some "error in PQputCopyData() call")
            else PQputCopyEnd (Some "error in .read() call"));;
    IFCLEARPGRES_curs;;
    (if res =? -1
     then pq_raise true None;; upd_conn (set_closed 2)
     else grab_results);;
    ret (if error =? 0 then 1 else -1).

(** ** _pq_copy_in (lines 1160-1206) *)

(** The loop: [true] when it is left by [break], [false] by [goto exit]. *)
Fixpoint copy_in_loop (fuel : nat) : M bool :=
  match fuel with
  | O => undefined
  | S fuel =>
      o <- call_file Py_readline;;
      match o with
      | None => ret false
      | Some Py_None => ret true
      | Some (PyString line) =>
          if strlen line =? 0 then ret true
          else
            rv <- PQputline (until_nul line);;
            if negb (rv =? 0) then ret false
            else copy_in_loop fuel
      end
  end.

Definition _pq_copy_in : M Z :=
  func <- PyObject_GetAttrString "readline";;
  if negb func then ret (-1)
  else
    finished <- (fun w => copy_in_loop (S (pending_file w)) w);;
    if negb finished then ret (-1)
    else
      PQputline ("\." ++ newline)%string;;
      PQendcopy;;
      IFCLEARPGRES_curs;;
      grab_results;;
      ret 1.

(** ** _pq_copy_out_v3 (lines 1209-1260) *)

(** The loop: the [len] it breaks with, [None] when a write raised. *)
Fixpoint copy_out_v3_loop (fuel : nat) : M (option Z) :=
  match fuel with
  | O => undefined
  | S fuel =>
      ' (len, buffer) <- PQgetCopyData;;
      match (if len >? 0 then buffer else None) with
      | Some data =>
          tmp <- call_file (Py_write data);;
          match tmp with
          | None => ret None
          | Some _ => copy_out_v3_loop fuel
          end
      | None =>
          if len <=? 0 then ret (Some len)
          else copy_out_v3_loop fuel
      end
  end.

Definition _pq_copy_out_v3 : M Z :=
  func <- PyObject_GetAttrString "write";;
  if negb func then ret (-1)
  else
    len <- (fun w => copy_out_v3_loop (S (pending_replies w)) w);;
    match len with
    | None => ret (-1)
    | Some len =>
        if len =? -2 then pq_raise true None;; ret (-1)
        else
          IFCLEARPGRES_curs;;
          grab_results;;
          ret 1
    end.

(** ** _pq_copy_out (lines 1263-1320) *)

(** The loop: [inr tt] when it is left by [break], [inl status] by
    [goto exit].  [PQgetline] returns 1 with the buffer full. *)
Fixpoint copy_out_loop (fuel : nat) (ll : bool) : M (Z + unit) :=
  match fuel with
  | O => undefined
  | S fuel =>
      ' (status, buffer) <- PQgetline;;
      if status =? 0 then
        if negb ll && Ascii.eqb (char_at buffer 0) "\"
           && Ascii.eqb (char_at buffer 1) "."
        then ret (inr tt)
        else
          tmp <- call_file (Py_write (buffer ++ newline)%string);;
          match tmp with
          | None => ret (inl status)
          | Some _ => copy_out_loop fuel false
          end
      else if status =? 1 then
        tmp <- call_file (Py_write (String.substring 0 4095 buffer));;
        match tmp with
        | None => ret (inl status)
        | Some _ => copy_out_loop fuel true
        end
      else ret (inl status)
  end.

Definition _pq_copy_out : M Z :=
  func <- PyObject_GetAttrString "write";;
  if negb func then ret (-1)
  else
    left <- (fun w => copy_out_loop (S (pending_replies w)) false w);;
    match left with
    | inl status => ret status
    | inr _ =>
        rv <- PQendcopy;;
        let status := if negb (rv =? 0) then -1 else 1 in
        IFCLEARPGRES_curs;;
        grab_results;;
        ret status
    end.

(** ** _pq_fetch_tuples (lines 910-1064) *)

(** [dsize]: per column, the largest cell length over the rows, -1 when
    there is no row. *)
Definition display_sizes (res : PGresult) (rows : Z) (nfields : nat) : list Z :=
  map (fun i =>
         fold_left (fun acc j => let len := PQgetlength res j i in
                                 if len >? acc then len else acc)
                   (seq 0 (Z.to_nat rows)) (-1))
      (seq 0 nfields).

Definition lookup_cast (curs_types : option cast_dict)
  (conn_types global_types : cast_dict) (pgbintuples : bool) (type : Z)
  : typecast :=
  let cast := match curs_types with
              | Some d => PyDict_GetItem d type
              | None => None
              end in
  let cast := match cast with
              | Some c => Some c
              | None => PyDict_GetItem conn_types type
              end in
  let cast := match cast with
              | Some c => Some c
              | None => PyDict_GetItem global_types type
              end in
  let cast := match cast with
              | Some c => c
              | None => psyco_default_cast
              end in
  if pgbintuples && String.eqb cast psyco_default_binary_cast
  then psyco_default_cast
  else cast.

Definition describe_field (dsize : option Z) (f : PGfield) : description_item :=
  let fmod := if fmod f >? 0 then fmod f - 4 else fmod f in
  let numeric := ftype f =? NUMERICOID in
  mkDescription
    (fname f)
    (ftype f)
    (match dsize with
     | Some d => if d >=? 0 then Some d else None
     | None => None
     end)
    (if fsize f =? -1
     then (if numeric then Z.land (Z.shiftr fmod 16) 65535 else fmod)
     else fsize f)
    (if numeric then Some (Z.land (Z.shiftr fmod 16) 65535) else None)
    (if numeric then Some (Z.land fmod 65535) else None)
    None.

Definition _pq_fetch_tuples : M unit :=
  res <- gets (fun w => pgres (w_curs w));;
  let flds := match res with Some r => fields r | None => [] end in
  let pgbintuples := match res with Some r => PQbinaryTuples r | None => false end in
  upd_curs (set_notuples 0);;
  upd_curs (set_columns (Z.of_nat (List.length flds)));;
  rows <- gets (fun w => rowcount (w_curs w));;
  let dsize :=
    match res with
    | Some r =>
        if PSYCOPG_DISPLAY_SIZE cfg
        then map Some (display_sizes r rows (List.length flds))
        else map (fun _ => None) flds
    | None => []
    end in
  curs_types <- gets (fun w => string_types (w_curs w));;
  conn_types <- gets (fun w => conn_string_types (w_conn w));;
  global_types <- gets w_types;;
  upd_curs (set_casts
    (Some (map (fun f => lookup_cast curs_types conn_types global_types
                           pgbintuples (ftype f)) flds)));;
  upd_curs (set_description
    (Some (map (fun df => describe_field (fst df) (snd df))
               (combine dsize flds)))).

(** ** pq_fetch (lines 1322-1430) *)
Definition pq_fetch : M Z :=
  curs_reset;;
  res <- gets (fun w => pgres (w_curs w));;
  match res with
  | None => ret 0
  | Some r =>
      let pgstatus := PQresultStatus r in
      upd_curs (set_pgstatus (Some (PQcmdStatus r)));;
      ex <- match pgstatus with
            | PGRES_COMMAND_OK =>
                let rowcount := PQcmdTuples r in
                upd_curs (set_rowcount
                  (match rowcount with
                   | None => -1
                   | Some text =>
                       if Ascii.eqb (char_at text 0) zero then -1
                       else atoi text
                   end));;
                upd_curs (set_lastoid (PQoidValue r));;
                CLEARPGRES_curs;;
                ret 1
            | PGRES_COPY_OUT =>
                proto <- gets (fun w => protocol (w_conn w));;
                ex <- (if HAVE_PQPROTOCOL3 cfg && (proto =? 3)
                       then _pq_copy_out_v3
                       else _pq_copy_out);;
                upd_curs (set_rowcount (-1));;
                occurred <- PyErr_Occurred;;
                IFCLEARPGRES_curs;;
                ret (if occurred then -1 else ex)
            | PGRES_COPY_IN =>
                proto <- gets (fun w => protocol (w_conn w));;
                ex <- (if HAVE_PQPROTOCOL3 cfg && (proto =? 3)
                       then _pq_copy_in_v3
                       else _pq_copy_in);;
                upd_curs (set_rowcount (-1));;
                occurred <- PyErr_Occurred;;
                IFCLEARPGRES_curs;;
                ret (if occurred then -1 else ex)
            | PGRES_TUPLES_OK =>
                upd_curs (set_rowcount (PQntuples r));;
                _pq_fetch_tuples;;
                ret 0
            | _ =>
                pq_raise true None;;
                IFCLEARPGRES_curs;;
                ret (-1)
            end;;
      conn_notice_process;;
      conn_notifies_process;;
      crit <- gets (fun w => critical (w_conn w));;
      match crit with
      | Some _ =>
          (if ex =? -1 then pq_resolve_critical 1 else pq_resolve_critical 0);;
          ret (-1)
      | None => ret ex
      end
  end.

(** ** pq_execute (lines 742-848) *)

(** The submission of the query: [inl v] when the function returns [v] at
    once, [inr s] when it goes on with [async_status = s]. *)
Definition pq_execute_submit (query : string) (async : Z)
  : M (Z + async_state) :=
  if async =? 0 then
    IFCLEARPGRES_curs;;
    green <- gets w_green;;
    res <- (if negb green then PQexec query else psyco_exec_green query);;
    upd_curs (set_pgres res);;
    match res with
    | None =>
        occurred <- PyErr_Occurred;;
        (if negb occurred
         then msg <- PQerrorMessage;; PyErr_SetString OperationalError msg
         else ret tt);;
        ret (inl (-1))
    | Some _ => ret (inr ASYNC_WRITE)
    end
  else if async =? 1 then
    IFCLEARPGRES_curs;;
    sent <- PQsendQuery query;;
    if sent =? 0 then
      msg <- PQerrorMessage;;
      PyErr_SetString OperationalError msg;;
      ret (inl (-1))
    else
      flushed <- PQflush;;
      if flushed =? 0 then ret (inr ASYNC_READ)
      else if flushed =? 1 then ret (inr ASYNC_WRITE)
      else ret (inl (-1))
  else ret (inr ASYNC_WRITE).

Definition pq_execute (query : string) (async : Z) : M Z :=
  crit <- gets (fun w => critical (w_conn w));;
  match crit with
  | Some _ => pq_resolve_critical 1;; ret (-1)
  | None =>
      st <- PQstatus;;
      if negb (ConnStatusType_eqb st CONNECTION_OK) then
        msg <- PQerrorMessage;;
        PyErr_SetString OperationalError msg;;
        ret (-1)
      else
        ' (began, res, error) <- pq_begin_locked None None;;
        if began <? 0 then
          pq_complete_error res error;;
          ret (-1)
        else
          submitted <- pq_execute_submit query async;;
          match submitted with
          | inl v => ret v
          | inr state =>
              if async =? 0 then
                fetched <- pq_fetch;;
                if fetched =? -1 then ret (-1) else ret (1 - async)
              else
                upd_conn (set_async_status state);;
                upd_conn (set_async_cursor true);;
                ret (1 - async)
          end
  end.

End Pqpath.


(** * pqpath.c: the functions around the query path *)

(** ** pq_clear_async (lines 289-305)

    [CLEARPGRES(pgres)] on the local variable is [PQclear(pgres)].  No
    result is looked at: a failed one is released like any other. *)
Fixpoint clear_async_loop (fuel : nat) : M unit :=
  match fuel with
  | O => undefined
  | S fuel =>
      res <- PQgetResult;;
      match res with
      | None => ret tt
      | Some r => PQclear r;; clear_async_loop fuel
      end
  end.

Definition pq_clear_async : M unit :=
  (fun w => clear_async_loop (S (pending_replies w)) w);;
  upd_conn (set_async_cursor false).

(** ** pq_get_last_result (lines 878-897)

    [result] is the local variable of that name. *)
Fixpoint get_last_result_loop (fuel : nat) (result : option PGresult)
  : M (option PGresult) :=
  match fuel with
  | O => undefined
  | S fuel =>
      res <- PQgetResult;;
      match res with
      | None => ret result
      | Some r =>
          match result with
          | Some previous => PQclear previous
          | None => ret tt
          end;;
          get_last_result_loop fuel (Some r)
      end
  end.

Definition pq_get_last_result : M (option PGresult) :=
  fun w => get_last_result_loop (S (pending_replies w)) None w.

(** ** pq_reset (lines 584-611)

    The connection record of this development does not carry
    [conn->tpc_xid]: the field is passed in, and its value after the call
    is returned beside the return value. *)
Section Reset.

Variable cfg : build.
Variable Xid : Type.

Definition pq_reset (tpc_xid : option Xid) : M (Z * option Xid) :=
  ' (retvalue, res, error) <- pq_reset_locked None None;;
  conn_notice_process;;
  if retvalue <? 0
  then pq_complete_error cfg res error;; ret (retvalue, tpc_xid)
  else ret (retvalue, None).

End Reset.

Arguments pq_reset cfg {Xid} tpc_xid.

(** ** pq_tpc_command_locked (lines 619-650) *)

(** [PyOS_snprintf(buf, size, ...)], for [size > 0]: the length of the
    whole text, and the string left in the buffer, which holds at most
    [size - 1] characters of it. *)
Definition PyOS_snprintf (size : Z) (text : string) : Z * string :=
  (strlen text, String.substring 0 (Z.to_nat (size - 1)) text).

Definition PyErr_NoMemory : M unit :=
  modify (set_err (Some (mkException PyExc_MemoryError "" None None false))).

Section Tpc.

(** The two collaborators of the function that are not of libpq:
    [psycopg_escape_string] (utils.c is not among the sources) returns the
    quoted text, or NULL; [PyMem_Malloc] tells whether the buffer could be
    allocated. *)
Variable psycopg_escape_string : string -> M (option string).
Variable PyMem_Malloc : Z -> M bool.

(** The format ["%s %s;"] applied to the command and the quoted id. *)
Definition tpc_format (cmd etid : string) : string :=
  (cmd ++ " " ++ etid ++ ";")%string.

Definition pq_tpc_command_locked (cmd tid : string)
  (res : option PGresult) (error : option string)
  : M (Z * option PGresult * option string) :=
  etid <- psycopg_escape_string tid;;
  match etid with
  | None => ret (-1, res, error)
  | Some etid =>
      let buflen := 3 + strlen cmd + strlen etid in
      buf <- PyMem_Malloc buflen;;
      if negb buf then PyErr_NoMemory;; ret (-1, res, error)
      else
        let printed := PyOS_snprintf buflen (tpc_format cmd etid) in
        if fst printed <? 0 then ret (-1, res, error)
        else pq_execute_command_locked (snd printed)
  end.

End Tpc.

(** * typecast_basic.c: the casts of the basic types

    The casts are handed the text of a column as a pointer and a length,
    and copy it into buffers of their own, so the memory is modelled here:
    a pointer by the bytes that can be read from its address on, a [char]
    array by its cells.  [None] as a result of a cast stands for undefined
    behaviour of the C code: a read or a write outside an object, or a
    read of a cell never written. *)

Module Typecast.

(** A [const char *]: NULL, or the bytes from the address to the end of
    the object that holds them, terminators included. *)
Definition pointer : Type := option string.

(** [s[i]]. *)
Definition load (s : string) (i : Z) : option ascii :=
  if i <? 0 then None else String.get (Z.to_nat i) s.

(** The C string read at [s] by a function that takes a [char *]: the
    characters before the first terminator, which has to be there. *)
Definition c_string (s : string) : option string :=
  if nul_free s then None else Some (until_nul s).

(** A [char] array, a local one or one from [PyMem_Malloc]: a cell that
    was never written holds no value. *)
Definition array : Type := list (option ascii).

Definition uninitialised (size : Z) : array := repeat None (Z.to_nat size).

(** [buffer[i] = c]. *)
Definition store (buffer : array) (i : Z) (c : ascii) : option array :=
  if (i <? 0) || (Z.of_nat (List.length buffer) <=? i) then None
  else Some (firstn (Z.to_nat i) buffer
               ++ Some c :: skipn (S (Z.to_nat i)) buffer)%list.

(** The [n] characters [strncpy] writes: those of the source up to its
    terminator, then terminators.  The source is read up to its
    terminator, or for [n] characters when there is none before. *)
Fixpoint copied (src : string) (n : nat) {struct n} : option (list ascii) :=
  match n with
  | O => Some []
  | S n' =>
      match src with
      | EmptyString => None
      | String c src' =>
          if Ascii.eqb c zero then Some (repeat zero n)
          else option_map (cons c) (copied src' n')
      end
  end.

(** The characters written into the array from cell [i] on. *)
Fixpoint write (buffer : array) (i : Z) (cs : list ascii) : option array :=
  match cs with
  | [] => Some buffer
  | c :: rest =>
      match store buffer i c with
      | Some buffer' => write buffer' (i + 1) rest
      | None => None
      end
  end.

(** [strncpy(dest, src, (size_t) len)].  A negative [len] is, as a
    [size_t], more than any array holds. *)
Definition strncpy (dest : array) (src : string) (len : Z) : option array :=
  if len <? 0 then None
  else match copied src (Z.to_nat len) with
       | Some cs => write dest 0 cs
       | None => None
       end.

(** The C string read from an array. *)
Fixpoint array_string (buffer : array) : option string :=
  match buffer with
  | [] => None
  | None :: _ => None
  | Some c :: rest =>
      if Ascii.eqb c zero then Some EmptyString
      else option_map (String c) (array_string rest)
  end.

(** [strncpy(buffer, s, (size_t) len); buffer[len] = '\0';] and the text
    then read from [buffer]. *)
Definition copy_terminated (buffer : array) (s : string) (len : Z)
  : option string :=
  match strncpy buffer s len with
  | Some buffer1 =>
      match store buffer1 len zero with
      | Some buffer2 => array_string buffer2
      | None => None
      end
  | None => None
  end.

Section Casts.

(** The interpreter: its objects ([PyObject *], NULL with the exception
    the call left among them), and the calls the casts make.  The text a
    call is given is the C string at the pointer it receives. *)
Variable object : Type.
Variable Py_None : object.
Variable PyInt_FromString : string -> object.
Variable PyLong_FromString : string -> object.
Variable PyMem_Malloc : Z -> bool.
Variable PyErr_NoMemory : object.
Variable psyco_GetDecimalType : option object.
Variable PyFloat_Type : object.
Variable PyObject_CallFunction : object -> string -> object.

(** ** typecast_INTEGER_cast (lines 28-39) *)
Definition typecast_INTEGER_cast (s : pointer) (len : Z) : option object :=
  match s with
  | None => Some Py_None
  | Some s =>
      match load s len with
      | None => None
      | Some c =>
          if negb (Ascii.eqb c zero)
          then option_map PyInt_FromString
                 (copy_terminated (uninitialised 12) s len)
          else option_map PyInt_FromString (c_string s)
      end
  end.

(** ** typecast_LONGINTEGER_cast (lines 43-54) *)
Definition typecast_LONGINTEGER_cast (s : pointer) (len : Z) : option object :=
  match s with
  | None => Some Py_None
  | Some s =>
      match load s len with
      | None => None
      | Some c =>
          if negb (Ascii.eqb c zero)
          then option_map PyLong_FromString
                 (copy_terminated (uninitialised 24) s len)
          else option_map PyLong_FromString (c_string s)
      end
  end.

(** ** typecast_DECIMAL_cast (lines 122-146) *)
Definition typecast_DECIMAL_cast (s : pointer) (len : Z) : option object :=
  match s with
  | None => Some Py_None
  | Some s =>
      if negb (PyMem_Malloc (len + 1)) then Some PyErr_NoMemory
      else
        match copy_terminated (uninitialised (len + 1)) s len with
        | None => None
        | Some buffer =>
            match psyco_GetDecimalType with
            | Some decimalType =>
                Some (PyObject_CallFunction decimalType buffer)
            | None => Some (PyObject_CallFunction PyFloat_Type buffer)
            end
        end
  end.

End Casts.

Arguments typecast_INTEGER_cast {object} Py_None PyInt_FromString s len.
Arguments typecast_LONGINTEGER_cast {object} Py_None PyLong_FromString s len.
Arguments typecast_DECIMAL_cast {object} Py_None PyMem_Malloc PyErr_NoMemory
  psyco_GetDecimalType PyFloat_Type PyObject_CallFunction s len.

(** The text of a column of [len] characters at [s]: what a C function
    reads of it, which stops at a terminator. *)
Definition column_text (s : string) (len : Z) : string :=
  until_nul (String.substring 0 (Z.to_nat len) s).

End Typecast.
(** * Vocabulary of the properties *)

(** [m] returns from [w], with a result and a final world that satisfy
    [Q].  Undefined behaviour does not return. *)
Definition runs {A : Type} (m : M A) (w : world) (Q : A -> world -> Prop)
  : Prop :=
  exists a w', m w = Some (a, w') /\ Q a w'.

(** What no call changes or grows: the critical message of the connection,
    and the answers the session and the file object still hold. *)
Record frame (w w' : world) : Prop := mkFrame {
  frame_critical : critical (w_conn w') = critical (w_conn w);
  frame_replies : (pending_replies w' <= pending_replies w)%nat;
  frame_file : (pending_file w' <= pending_file w)%nat
}.

Definition safe {A : Type} (m : M A) : Prop :=
  forall w, runs m w (fun _ w' => frame w w').

(** The first step of [pq_raise]: a connection whose session is broken is
    marked closed, needing cleanup. *)
Definition flag_bad (w : world) : world :=
  if match w_pg w with
     | Some s => ConnStatusType_eqb (pg_status s) CONNECTION_BAD
     | None => false
     end
  then set_conn (set_closed 2 (w_conn w)) w
  else w.

(** An exception of the DB-API family is set. *)
Definition raised (w : world) : Prop :=
  exists e, w_err w = Some e /\ is_dbapi_error (exc_type e) = true.

(** Two connection objects that differ at most in [closed]. *)
Definition upto_closed (c c' : connectionObject) : Prop :=
  c' = set_closed (closed c') c.

(** The next answer of the session accepts a command: it carries a
    command-ok result and, under a wait callback, the callback does not
    raise. *)
Definition next_command_ok (w : world) : bool :=
  match w_pg w with
  | Some pg =>
      match pg_script pg with
      | r :: _ =>
          match r_result r with
          | Some res =>
              ExecStatusType_eqb (resultStatus res) PGRES_COMMAND_OK
              && (if w_green w
                  then match r_wait r with Some _ => false | None => true end
                  else true)
          | None => false
          end
      | [] => false
      end
  | None => false
  end.

(** The number a string of decimal digits denotes, after [acc]; no number
    when a character is not a digit. *)
Fixpoint decimal_digits (acc : Z) (s : string) : option Z :=
  match s with
  | EmptyString => Some acc
  | String c s' =>
      if isdigit c then decimal_digits (acc * 10 + (code c - 48)) s' else None
  end.

(** The decimal integer a text denotes, when the text is a non-empty string
    of decimal digits. *)
Definition decimal_value (s : string) : option Z :=
  match s with
  | EmptyString => None
  | _ => decimal_digits 0 s
  end.

(** The answers the session still holds. *)
Definition session_script (w : world) : list reply :=
  match w_pg w with
  | Some pg => pg_script pg
  | None => []
  end.

(** The results queued at the head of a script: those [PQgetResult] hands
    out before it returns NULL. *)
Fixpoint queued (script : list reply) : list PGresult :=
  match script with
  | r :: rest =>
      match r_result r with
      | Some res => res :: queued rest
      | None => []
      end
  | [] => []
  end.

(** What is left of a script once the queued results have been taken and
    [PQgetResult] has returned NULL. *)
Fixpoint after_queued (script : list reply) : list reply :=
  match script with
  | r :: rest =>
      match r_result r with
      | Some _ => after_queued rest
      | None => rest
      end
  | [] => []
  end.

Definition is_fatal (res : PGresult) : bool :=
  ExecStatusType_eqb (resultStatus res) PGRES_FATAL_ERROR.

(** The calls that take every queued result and release it. *)
Definition drain_trace (results : list PGresult) : list call :=
  (flat_map (fun res => [Call_PQgetResult; Call_PQclear res]) results
   ++ [Call_PQgetResult])%list.

Record drained (results : list PGresult) (rest : list reply) (w w' : world)
  : Prop := mkDrained {
  drained_trace : w_trace w' = (w_trace w ++ drain_trace results)%list;
  drained_pgres : w_curs w' = set_pgres None (w_curs w);
  drained_rest : session_script w' = rest;
  drained_raised : existsb is_fatal results = true -> raised w';
  drained_quiet : existsb is_fatal results = false -> w_err w' = w_err w;
  drained_conn : upto_closed (w_conn w) (w_conn w');
  drained_file : w_file w' = w_file w
}.

(** A chunk [_pq_copy_in_v3] sends: not empty, and no longer than an [int]
    can tell. *)
Definition chunk_ok (data : string) : bool :=
  negb (strlen data =? 0) && (strlen data <=? INT_MAX).

(** The call released the result the cursor held, if it held one. *)
Definition clear_trace (res : option PGresult) : list call :=
  match res with
  | Some r => [Call_PQclear r]
  | None => []
  end.

Definition accepted (r : reply) : bool := negb (r_int r =? -1).

(** The length [PQgetCopyData] returns for a frame that ends the loop of
    [_pq_copy_out_v3]; a row with data does not end it. *)
Definition end_code (frame : copy_frame) : option Z :=
  match frame with
  | CopyRow data => if strlen data =? 0 then Some 0 else None
  | CopyWouldBlock => Some 0
  | CopyDone => Some (-1)
  | CopyError => Some (-2)
  end.

Definition returns (r : pyresult) : bool :=
  match r with
  | Returns _ => true
  | Raises _ => false
  end.

(** The next [n] calls of the file object return: none of them raises. *)
Definition calls_return (n : nat) (f : PyFile) : bool :=
  forallb returns (firstn n (file_script f)).

Definition nonempty (data : string) : bool := negb (strlen data =? 0).

(** A call that leaves everything but the session and the trace alone. *)
Definition silent {A : Type} (m : M A) : Prop :=
  forall w, runs m w (fun _ w' =>
    w_conn w' = w_conn w /\ w_curs w' = w_curs w /\ w_err w' = w_err w).

(** * Scenarios

    Concrete worlds on which the properties are exercised. *)

Module Scenario.

Definition cfg : build := mkBuild true true false.

Definition command_ok (tuples : option string) : PGresult :=
  mkPGresult PGRES_COMMAND_OK "" None "INSERT 0 3" tuples 0 0 [] false [].

Definition fatal_error : PGresult :=
  mkPGresult PGRES_FATAL_ERROR "ERROR:  current transaction is aborted"
    (Some "25P02") "" None 0 0 [] false [].

Definition copy_result (kind : ExecStatusType) : PGresult :=
  mkPGresult kind "" None "COPY" None 0 0 [] false [].

Definition answer (res : option PGresult) : reply :=
  mkReply CONNECTION_OK "" res 0 CopyDone LineEOF None.

Definition answer_int (n : Z) : reply :=
  mkReply CONNECTION_OK "" None n CopyDone LineEOF None.

Definition answer_copy (frame : copy_frame) : reply :=
  mkReply CONNECTION_OK "" None 0 frame LineEOF None.

Definition connection (st : conn_status) (crit : option string)
  : connectionObject :=
  mkConnection st 1 41 crit 0 3 ASYNC_DONE false [].

Definition cursor (res : option PGresult) : cursorObject :=
  mkCursor res 0 0 0 0 0 None None None 8192 None.

Definition no_file : PyFile := mkPyFile [] [] [].

Definition session (script : list reply) : option PGconn :=
  Some (mkPGconn CONNECTION_OK "" script).

Definition make (curs : cursorObject) (conn : connectionObject)
  (script : list reply) (file : PyFile) : world :=
  mkWorld curs conn (session script) file None false [] [].

(** A ready connection whose backend accepts the next command, twice. *)
Definition w_ready : world :=
  make (cursor None) (connection CONN_STATUS_READY None)
    [answer (Some (command_ok None)); answer (Some (command_ok None))] no_file.

(** A ready connection whose backend refuses the next command. *)
Definition w_refused : world :=
  make (cursor None) (connection CONN_STATUS_READY None)
    [answer (Some fatal_error)] no_file.

(** A connection inside a transaction whose backend refuses COMMIT. *)
Definition w_in_transaction : world :=
  make (cursor None) (connection CONN_STATUS_BEGIN None)
    [answer (Some fatal_error)] no_file.

(** A connection poisoned by a lost session. *)
Definition w_critical : world :=
  make (cursor None)
    (connection CONN_STATUS_READY (Some "FATAL: terminating connection"))
    [] no_file.

(** A cursor holding the result of a command that touched three rows. *)
Definition w_three_rows : world :=
  make (cursor (Some (command_ok (Some "3"))))
    (connection CONN_STATUS_BEGIN None) [] no_file.

(** A COPY FROM under way: the file yields "abc", "def" and then the empty
    string; the backend takes the data and the end of the copy, and has the
    result of the command queued. *)
Definition w_copy_in : world :=
  make (cursor (Some (copy_result PGRES_COPY_IN)))
    (connection CONN_STATUS_BEGIN None)
    [answer_int 1; answer_int 1; answer_int 1;
     answer (Some (command_ok None)); answer None]
    (mkPyFile ["read"]
       [Returns (PyString "abc"); Returns (PyString "def");
        Returns (PyString "")] []).

(** A COPY TO under way: three rows, the end of the copy, and the result
    of the command queued. *)
Definition w_copy_out : world :=
  make (cursor (Some (copy_result PGRES_COPY_OUT)))
    (connection CONN_STATUS_BEGIN None)
    [answer_copy (CopyRow "1,one"); answer_copy (CopyRow "2,two");
     answer_copy (CopyRow "3,three"); answer_copy CopyDone;
     answer (Some (command_ok None)); answer None]
    (mkPyFile ["write"] [] []).

(** A COPY TO that breaks after its first row. *)
Definition w_copy_out_broken : world :=
  make (cursor (Some (copy_result PGRES_COPY_OUT)))
    (connection CONN_STATUS_BEGIN None)
    [answer_copy (CopyRow "1,one"); answer_copy CopyError]
    (mkPyFile ["write"] [] []).

(** A ready connection about to run a command that touches three rows. *)
Definition w_insert : world :=
  make (cursor None) (connection CONN_STATUS_READY None)
    [answer (Some (command_ok None)); answer (Some (command_ok (Some "3")))]
    no_file.

(** A ready connection about to submit a query without waiting. *)
Definition w_submit : world :=
  make (cursor None) (connection CONN_STATUS_READY None)
    [answer (Some (command_ok None)); answer_int 1; answer_int 0] no_file.

End Scenario.


(** * Vocabulary of the further properties *)

(** The answer the session gives to the next call. *)
Definition next_answer (w : world) : option reply := hd_error (session_script w).

(** The call that runs a command: [PQexec], or the green exec under a wait
    callback. *)
Definition exec_call (green : bool) (query : string) : call :=
  if green then Call_exec_green query else Call_PQexec query.

(** The result an answer brings to a command: none when the wait callback
    raises. *)
Definition reply_outcome (green : bool) (r : reply) : option PGresult :=
  if green
  then match r_wait r with
       | Some _ => None
       | None => r_result r
       end
  else r_result r.

(** The result the next command comes back with. *)
Definition command_result (w : world) : option PGresult :=
  match next_answer w with
  | Some r => reply_outcome (w_green w) r
  | None => None
  end.

Definition is_command_ok (res : option PGresult) : bool :=
  match res with
  | Some r => ExecStatusType_eqb (resultStatus r) PGRES_COMMAND_OK
  | None => false
  end.

(** The error message of the connection once the next call is answered. *)
Definition error_after (w : world) : string :=
  match w_pg w with
  | Some pg =>
      match pg_script pg with
      | r :: _ => r_error r
      | [] => pg_error pg
      end
  | None => ("connection pointer is NULL" ++ newline)%string
  end.

(** The exception [PyErr_SetString] sets. *)
Definition plain_error (type : PyExc) (msg : string) : exception :=
  mkException type msg None None false.

(** What a sequence of commands leaves in the trace when each is run only
    if the one before was accepted: every accepted command is followed by
    the release of its result, the first one that is not accepted ends the
    sequence. *)
Fixpoint commands_trace (green : bool) (cmds : list string)
  (script : list reply) : list call :=
  match cmds with
  | [] => []
  | query :: cmds' =>
      match script with
      | r :: rest =>
          match reply_outcome green r with
          | Some res =>
              if ExecStatusType_eqb (resultStatus res) PGRES_COMMAND_OK
              then exec_call green query :: Call_PQclear res
                   :: commands_trace green cmds' rest
              else [exec_call green query]
          | None => [exec_call green query]
          end
      | [] => [exec_call green query]
      end
  end.

(** Every command of the sequence is accepted. *)
Fixpoint commands_pass (green : bool) (cmds : list string)
  (script : list reply) : bool :=
  match cmds with
  | [] => true
  | _ :: cmds' =>
      match script with
      | r :: rest =>
          is_command_ok (reply_outcome green r) && commands_pass green cmds' rest
      | [] => false
      end
  end.

(** The commands of a reset, for a connection in the given state. *)
Definition reset_commands (c : connectionObject) : list string :=
  ((if (isolation_level c >? 0) && conn_status_eqb (status c) CONN_STATUS_BEGIN
    then ["ABORT"] else [])
   ++ ["RESET ALL"; "SET SESSION AUTHORIZATION DEFAULT"])%list.

(** The results released in a trace, in the order of their release. *)
Fixpoint released (t : list call) : list PGresult :=
  match t with
  | Call_PQclear res :: rest => res :: released rest
  | _ :: rest => released rest
  | [] => []
  end.

(** The number of results asked for in a trace. *)
Fixpoint asked (t : list call) : nat :=
  match t with
  | Call_PQgetResult :: rest => S (asked rest)
  | _ :: rest => asked rest
  | [] => O
  end.

(** [needle] occurs in [hay]. *)
Definition occurs (needle hay : string) : Prop :=
  exists before after, hay = (before ++ needle ++ after)%string.

(** The error messages [pq_raise] takes for an integrity violation, and
    those it takes for a transaction that must be rolled back. *)
Definition integrity_text (err : string) : Prop :=
  String.prefix "ERROR:  Cannot insert a duplicate key" err = true \/
  String.prefix "ERROR:  ExecAppend: Fail to add null" err = true \/
  occurs "referential integrity violation" err.

Definition rollback_text (err : string) : Prop :=
  occurs "could not serialize" err \/ occurs "deadlock detected" err.

(** The world in which the command of [pq_commit] or [pq_abort] runs. *)
Definition marked (w : world) : world :=
  set_conn (set_mark (mark_incr (mark (w_conn w))) (w_conn w)) w.

(** The result [pq_raise] reads the error from: the one given, else the
    one the cursor holds. *)
Definition raise_source (curs : bool) (res : option PGresult) (w : world)
  : option PGresult :=
  match res with
  | Some r => Some r
  | None => if curs then pgres (w_curs w) else None
  end.

(** The kind [pq_raise] takes from the text of a message. *)
Definition text_kind (cfg : build) (err : string) : PyExc :=
  if (strncmp err "ERROR:  Cannot insert a duplicate key" 37 =? 0)
     || (strncmp err "ERROR:  ExecAppend: Fail to add null" 36 =? 0)
     || (match strstr err "referential integrity violation" with
         | Some _ => true
         | None => false
         end)
  then IntegrityError
  else if (match strstr err "could not serialize" with
           | Some _ => true
           | None => false
           end)
          || (match strstr err "deadlock detected" with
              | Some _ => true
              | None => false
              end)
  then (if PSYCOPG_EXTENSIONS cfg then TransactionRollbackError
        else OperationalError)
  else ProgrammingError.

(** The cursor once the information about the previous query is removed. *)
Definition reset_cursor (c : cursorObject) : cursorObject :=
  set_casts None
    (set_description None (set_row 0 (set_rowcount (-1) (set_notuples 1 c)))).

(** The statuses [pq_fetch] has no case for: it takes them for a failure. *)
Definition failure_status (s : ExecStatusType) : bool :=
  match s with
  | PGRES_COMMAND_OK | PGRES_COPY_OUT | PGRES_COPY_IN | PGRES_TUPLES_OK => false
  | _ => true
  end.

(** The status and the error message of the session as it stands. *)
Definition session_status (w : world) : ConnStatusType :=
  match w_pg w with
  | Some pg => pg_status pg
  | None => CONNECTION_BAD
  end.

Definition error_now (w : world) : string :=
  match w_pg w with
  | Some pg => pg_error pg
  | None => ("connection pointer is NULL" ++ newline)%string
  end.

(** A query on this connection begins a transaction: the connection is
    ready and does not run in autocommit. *)
Definition begins (c : connectionObject) : bool :=
  negb ((isolation_level c =? 0)
        || negb (conn_status_eqb (status c) CONN_STATUS_READY)).

(** The command that begins a transaction at an isolation level. *)
Definition begin_command (level : Z) : string :=
  match begin_query_at level with
  | Some (Some query) => query
  | _ => ""
  end.






(** The call that hands a query to the backend: a blocking exec, or the
    submission of an asynchronous one. *)
Definition query_call (green : bool) (async : Z) (query : string) : call :=
  if async =? 0 then exec_call green query else Call_PQsendQuery query.

(** A line of the old COPY protocol that ends the data: it begins with a
    backslash and a dot. *)
Definition ends_copy (line : string) : bool :=
  Ascii.eqb (char_at line 0) "\" && Ascii.eqb (char_at line 1) ".".

(** The answer of the file object that ends a COPY FROM of the old
    protocol: [None], or the empty string. *)
Definition ends_input (r : pyresult) : bool :=
  match r with
  | Returns Py_None => true
  | Returns (PyString line) => strlen line =? 0
  | Raises _ => false
  end.

(** [PQputline] took the line. *)
Definition line_taken (r : reply) : bool := r_int r =? 0.

(** The end of a COPY: the result the cursor held is released, every
    queued result is taken and released, a fatal one raising. *)
Definition copy_closed (w w' : world) : Prop :=
  w_trace w' =
    (w_trace w ++ clear_trace (pgres (w_curs w))
     ++ drain_trace (queued (session_script w)))%list /\
  pgres (w_curs w') = None /\
  session_script w' = after_queued (session_script w) /\
  w_file w' = w_file w /\
  upto_closed (w_conn w) (w_conn w') /\
  (existsb is_fatal (queued (session_script w)) = true -> raised w') /\
  (existsb is_fatal (queued (session_script w)) = false -> w_err w' = w_err w).

(** A line of data: one that does not end the copy. *)
Definition data_line (line : string) : bool := negb (ends_copy line).

(** An answer of the file object that [_pq_copy_in_v3] cannot use: the
    call raised, or returned something that is not a string. *)
Definition read_failed (r : pyresult) : bool :=
  match r with
  | Returns (PyString _) => false
  | _ => true
  end.

(** The results [rs], after the one already held in [result]. *)
Definition with_kept (result : option PGresult) (rs : list PGresult)
  : list PGresult :=
  match result with
  | Some r => r :: rs
  | None => rs
  end.

(** What a call keeps of the transaction state, and of the history: the
    trace is only ever extended. *)
Record keeps (w w' : world) : Prop := mkKeeps {
  keeps_status : status (w_conn w') = status (w_conn w);
  keeps_level : isolation_level (w_conn w') = isolation_level (w_conn w);
  keeps_mark : mark (w_conn w') = mark (w_conn w);
  keeps_trace : exists added, w_trace w' = (w_trace w ++ added)%list
}.

(** Every return of [m] is related to its start by [R]. *)
Definition preserves (R : world -> world -> Prop) {A : Type} (m : M A) : Prop :=
  forall w a w', m w = Some (a, w') -> R w w'.

(** * Further scenarios *)

Module Cases.

Import Scenario.

(** A connection inside a transaction whose backend accepts the next
    command. *)
Definition w_open : world :=
  make (cursor None) (connection CONN_STATUS_BEGIN None)
    [answer (Some (command_ok None))] no_file.

(** A connection inside a transaction whose backend accepts three
    commands. *)
Definition w_open3 : world :=
  make (cursor None) (connection CONN_STATUS_BEGIN None)
    [answer (Some (command_ok None)); answer (Some (command_ok None));
     answer (Some (command_ok None))] no_file.

(** A connection inside a transaction whose session is lost: the next
    call brings no result and leaves an error message. *)
Definition w_lost : world :=
  make (cursor None) (connection CONN_STATUS_BEGIN None)
    [mkReply CONNECTION_BAD "server closed the connection unexpectedly"
       None 0 CopyDone LineEOF None] no_file.

(** A result of protocol 2, which carries no SQLSTATE, refused by the
    backend for a deadlock. *)
Definition deadlock : PGresult :=
  mkPGresult PGRES_FATAL_ERROR "ERROR:  deadlock detected" None "" None 0 0
    [] false [].

(** A cursor holding a failed result, on a connection whose session is
    broken. *)
Definition w_failed : world :=
  mkWorld (cursor (Some fatal_error)) (connection CONN_STATUS_BEGIN None)
    (Some (mkPGconn CONNECTION_BAD "" [])) no_file None false [] [].

(** A cursor holding two rows of two columns, an integer key and an amount
    declared NUMERIC(10,2). *)
Definition two_rows : PGresult :=
  mkPGresult PGRES_TUPLES_OK "" None "SELECT" None 0 2
    [mkPGfield "id" 23 4 (-1); mkPGfield "amount" 1700 (-1) 655366]
    false [[1; 4]; [2; 7]].

Definition w_two_rows : world :=
  make (cursor (Some two_rows)) (connection CONN_STATUS_BEGIN None) [] no_file.

(** A cursor holding the result of a command, on a connection poisoned by
    a lost session. *)
Definition w_poisoned (res : PGresult) : world :=
  make (cursor (Some res))
    (connection CONN_STATUS_BEGIN (Some "FATAL: terminating connection"))
    [] no_file.

(** A connection whose session is broken. *)
Definition w_broken : world :=
  mkWorld (cursor None) (connection CONN_STATUS_READY None)
    (Some (mkPGconn CONNECTION_BAD "could not connect to server" []))
    no_file None false [] [].

(** A connection in autocommit about to run a command. *)
Definition w_autocommit : world :=
  make (cursor None)
    (mkConnection CONN_STATUS_READY 0 41 None 0 3 ASYNC_DONE false [])
    [answer (Some (command_ok (Some "1")))] no_file.

(** A COPY FROM of the old protocol: two lines, then the end of the file;
    the backend takes every line and has the result of the command
    queued. *)
Definition w_copy_in_lines : world :=
  make (cursor (Some (copy_result PGRES_COPY_IN)))
    (mkConnection CONN_STATUS_BEGIN 1 41 None 0 2 ASYNC_DONE false [])
    [answer_int 0; answer_int 0; answer_int 0; answer_int 0;
     answer (Some (command_ok None)); answer None]
    (mkPyFile ["readline"]
       [Returns (PyString ("1,one" ++ newline));
        Returns (PyString ("2,two" ++ newline)); Returns (PyString "")] []).

(** A line [PQgetline] delivers whole. *)
Definition answer_line (frame : line_frame) : reply :=
  mkReply CONNECTION_OK "" None 0 CopyDone frame None.

(** A COPY TO of the old protocol: two lines, the line that ends the data,
    and the result of the command queued. *)
Definition w_copy_out_lines : world :=
  make (cursor (Some (copy_result PGRES_COPY_OUT)))
    (mkConnection CONN_STATUS_BEGIN 1 41 None 0 2 ASYNC_DONE false [])
    [answer_line (LineWhole "1,one"); answer_line (LineWhole "2,two");
     answer_line (LineWhole "\."); answer_int 0;
     answer (Some (command_ok None)); answer None]
    (mkPyFile ["write"] [] []).

(** A COPY FROM of protocol 3 whose file object fails after one chunk. *)
Definition w_copy_in_fails : world :=
  make (cursor (Some (copy_result PGRES_COPY_IN)))
    (connection CONN_STATUS_BEGIN None)
    [answer_int 1; answer_int 1; answer None]
    (mkPyFile ["read"]
       [Returns (PyString "abc");
        Raises (mkException (PyExc_Other "IOError") "disk error" None None false)]
       []).

(** A file object without methods, on a cursor in the middle of a COPY. *)
Definition w_no_method : world :=
  make (cursor (Some (copy_result PGRES_COPY_IN)))
    (connection CONN_STATUS_BEGIN None) [answer None] no_file.

(** Three results queued: two commands, then a failure. *)
Definition w_queued : world :=
  make (cursor None)
    (mkConnection CONN_STATUS_BEGIN 1 41 None 0 3 ASYNC_READ true [])
    [answer (Some (command_ok (Some "1"))); answer (Some (command_ok (Some "2")));
     answer (Some fatal_error); answer None]
    no_file.

(** The result of a command that touched 2147483648 rows, one more than
    an [int] holds, and a cursor holding it. *)
Definition many_rows : PGresult :=
  mkPGresult PGRES_COMMAND_OK "" None "UPDATE 2147483648"
    (Some "2147483648") 0 0 [] false [].

Definition w_many_rows : world :=
  make (cursor (Some many_rows)) (connection CONN_STATUS_BEGIN None) []
    no_file.

End Cases.
(** * Properties *)

(** ** C strings *)

Lemma code_inj (a b : ascii) : code a = code b -> a = b.
Proof.
  unfold code; intros H.
  apply Nat2Z.inj in H.
  rewrite <- (ascii_nat_embedding a), <- (ascii_nat_embedding b).
  now rewrite H.
Qed.

Lemma code_zero (a : ascii) : code a = 0 -> a = zero.
Proof. intros H; apply code_inj; exact H. Qed.

Lemma strncmp_prefix (p : string) :
  nul_free p = true ->
  forall msg, (strncmp msg p (String.length p) =? 0) = String.prefix p msg.
Proof.
  induction p as [|cp p IH]; intros Hp msg.
  - destruct msg; reflexivity.
  - simpl in Hp. apply andb_true_iff in Hp as [Hc Hp].
    destruct msg as [|cm msg]; simpl.
    + apply Z.eqb_neq; intros E.
      assert (cp = zero) as -> by (apply code_zero; lia).
      discriminate Hc.
    + destruct (Ascii.eqb_spec cm cp) as [->|Hne].
      * destruct (ascii_dec cp cp) as [_|N]; [|contradiction].
        apply IH; assumption.
      * destruct (ascii_dec cp cm) as [E|_]; [congruence|].
        apply Z.eqb_neq; intros E; apply Hne, code_inj; lia.
Qed.

Lemma streq_eq (a b : string) :
  nul_free a = true -> nul_free b = true -> streq a b = true -> a = b.
Proof.
  unfold streq; revert b; induction a as [|ca a IH]; intros [|cb b]; simpl;
    intros Ha Hb H; try reflexivity.
  - apply andb_true_iff in Hb as [Hc _]. apply Z.eqb_eq in H.
    assert (cb = zero) as -> by (apply code_zero; lia). discriminate Hc.
  - apply andb_true_iff in Ha as [Hc _]. apply Z.eqb_eq in H.
    assert (ca = zero) as -> by (apply code_zero; lia). discriminate Hc.
  - apply andb_true_iff in Ha as [_ Ha]. apply andb_true_iff in Hb as [_ Hb].
    destruct (Ascii.eqb_spec ca cb) as [->|Hne].
    + f_equal; apply IH; assumption.
    + apply Z.eqb_eq in H. exfalso; apply Hne, code_inj; lia.
Qed.

Lemma streq_refl (a : string) : streq a a = true.
Proof.
  unfold streq; induction a as [|c a IH]; simpl; [reflexivity|].
  now rewrite Ascii.eqb_refl.
Qed.

Lemma offset_append (p tail : string) :
  offset (String.length p) (p ++ tail) = tail.
Proof. induction p as [|c p IH]; simpl; [now destruct tail|exact IH]. Qed.

Lemma length_append (a b : string) :
  String.length (a ++ b) = (String.length a + String.length b)%nat.
Proof. induction a as [|c a IH]; simpl; [reflexivity|now rewrite IH]. Qed.

Lemma prefix_append (p tail : string) : String.prefix p (p ++ tail) = true.
Proof.
  induction p as [|c p IH]; simpl; [now destruct tail|].
  destruct (ascii_dec c c) as [_|N]; [exact IH|contradiction].
Qed.

(** ** strip_severity *)

Lemma severity_prefix_shape (p : string) :
  In p severity_prefixes -> String.length p = 8%nat /\ nul_free p = true.
Proof.
  intros [<-|[<-|[<-|[]]]]; split; reflexivity.
Qed.

Lemma strip_severity_test (msg : string) :
  strip_severity (Some msg) =
  if (strlen msg >? 8) && existsb (fun p => String.prefix p msg) severity_prefixes
  then Some (offset 8 msg) else Some msg.
Proof.
  unfold strip_severity, severity_prefixes, existsb.
  rewrite <- (strncmp_prefix "ERROR:  " eq_refl msg).
  rewrite <- (strncmp_prefix "FATAL:  " eq_refl msg).
  rewrite <- (strncmp_prefix "PANIC:  " eq_refl msg).
  simpl String.length.
  now rewrite orb_false_r, orb_assoc.
Qed.

(** C7, as amended.  A message of more than 8 bytes that begins with
    "ERROR:  ", "FATAL:  " or "PANIC:  " yields the tail after the prefix;
    a message of at most 8 bytes, or one that begins with none of the
    three, is returned unchanged. *)
Theorem strip_severity_amended :
  (forall p tail : string,
      In p severity_prefixes -> tail <> "" ->
      strip_severity (Some (p ++ tail)) = Some tail) /\
  (forall msg : string,
      (String.length msg <= 8)%nat \/
      (forall p, In p severity_prefixes -> String.prefix p msg = false) ->
      strip_severity (Some msg) = Some msg).
Proof.
  split.
  - intros p tail Hp Htail.
    destruct (severity_prefix_shape p Hp) as [Hlen _].
    rewrite strip_severity_test.
    assert (existsb (fun q => String.prefix q (p ++ tail)) severity_prefixes = true)
      as ->.
    { apply existsb_exists; exists p; split; [exact Hp|apply prefix_append]. }
    assert ((strlen (p ++ tail) >? 8) = true) as ->.
    { unfold strlen; rewrite length_append, Hlen.
      destruct tail; [contradiction|]. simpl String.length. apply Z.gtb_lt; lia. }
    cbn [andb]. rewrite <- Hlen. now rewrite offset_append.
  - intros msg H. rewrite strip_severity_test.
    destruct H as [Hshort|Hnone].
    + assert ((strlen msg >? 8) = false) as ->; [|reflexivity].
      unfold strlen. destruct (Z.gtb_spec (Z.of_nat (String.length msg)) 8); [lia|reflexivity].
    + assert (existsb (fun p => String.prefix p msg) severity_prefixes = false)
        as ->; [|now rewrite andb_false_r].
      destruct (existsb _ _) eqn:E; [|reflexivity].
      apply existsb_exists in E as (p & Hp & Hpre).
      rewrite (Hnone p Hp) in Hpre; discriminate.
Qed.

Lemma strip_severity_amended_witness :
  strip_severity (Some "ERROR:  relation does not exist")
    = Some "relation does not exist" /\
  strip_severity (Some "ERROR:  ") = Some "ERROR:  " /\
  strip_severity (Some "NOTICE:  hello") = Some "NOTICE:  hello".
Proof.
  split; [|split].
  - apply (proj1 strip_severity_amended "ERROR:  " "relation does not exist").
    + simpl; auto.
    + discriminate.
  - apply (proj2 strip_severity_amended "ERROR:  "). left; simpl; lia.
  - apply (proj2 strip_severity_amended "NOTICE:  hello"). right.
    intros p [<-|[<-|[<-|[]]]]; reflexivity.
Defined.

(** C7, as stated, fails on the message that is exactly a severity prefix:
    it begins with "ERROR:  ", so the claim has its tail, the empty string,
    returned; the code returns the message unchanged. *)
Lemma strip_severity_counterexample :
  String.prefix "ERROR:  " "ERROR:  " = true /\
  "ERROR:  " = "ERROR:  " ++ "" /\
  String.length "ERROR:  " = 8%nat /\
  strip_severity (Some "ERROR:  ") = Some "ERROR:  " /\
  strip_severity (Some "ERROR:  ") <> Some "".
Proof. repeat split; discriminate. Qed.

(** ** exception_from_sqlstate *)

Lemma exception_from_sqlstate_dbapi (extensions : bool) (sqlstate : string) :
  is_dbapi_error (exception_from_sqlstate extensions sqlstate) = true.
Proof.
  unfold exception_from_sqlstate.
  destruct sqlstate as [|c0 [|c1 rest]].
  - reflexivity.
  - destruct c0 as [[] [] [] [] [] [] [] []]; cbn;
      try reflexivity; destruct extensions; reflexivity.
  - destruct c0 as [[] [] [] [] [] [] [] []]; cbn -[strcmp];
      try reflexivity;
      try (destruct extensions; cbn -[strcmp]; try reflexivity;
           match goal with |- context [if ?b then _ else _] => destruct b end;
           reflexivity);
      destruct c1 as [[] [] [] [] [] [] [] []]; cbn; try reflexivity;
      destruct extensions; reflexivity.
Qed.

(** C1, as amended.  With the extensions built in, the classification of
    every SQLSTATE is: QueryCanceled for the exact code 57014; Operational
    for any other code that starts with 5 and Internal for any code that
    starts with F, P or X, whatever the second character; the kind the
    class table gives for the other listed class codes; the generic Database
    error for everything else. *)
Theorem exception_from_sqlstate_family (sqlstate : string) :
  exception_from_sqlstate true sqlstate = classify_by_family sqlstate.
Proof.
  unfold exception_from_sqlstate, classify_by_family, streq.
  destruct sqlstate as [|c0 [|c1 rest]].
  - reflexivity.
  - destruct c0 as [[] [] [] [] [] [] [] []]; reflexivity.
  - destruct c0 as [[] [] [] [] [] [] [] []];
      try (vm_compute; reflexivity);
      try (cbn -[strcmp];
           match goal with |- context [if ?b then _ else _] => destruct b end;
           reflexivity);
      destruct c1 as [[] [] [] [] [] [] [] []];
      try reflexivity; destruct rest; reflexivity.
Qed.

(** On every class code the table lists, the amended classification is the
    one the specification words. *)
Lemma classify_by_family_on_table (sqlstate : string) (kind : PyExc) :
  class_lookup (sqlstate_class sqlstate) sqlstate_class_table = Some kind ->
  classify_by_family sqlstate = classify_by_table sqlstate.
Proof.
  unfold classify_by_family, classify_by_table, sqlstate_class, streq.
  destruct (strcmp sqlstate "57014" =? 0); [reflexivity|].
  destruct sqlstate as [|c0 [|c1 rest]].
  - discriminate.
  - destruct c0 as [[] [] [] [] [] [] [] []]; discriminate.
  - destruct c0 as [[] [] [] [] [] [] [] []];
      try (destruct rest; discriminate);
      destruct c1 as [[] [] [] [] [] [] [] []];
      try (destruct rest; discriminate);
      destruct rest; reflexivity.
Qed.

(** C1, as stated, fails on a class that starts with 5 and is not in the
    table: 56 is not listed, so the claim has the generic Database error
    returned; the code returns Operational. *)
Lemma exception_from_sqlstate_counterexample :
  class_lookup (sqlstate_class "56000") sqlstate_class_table = None /\
  classify_by_table "56000" = DatabaseError /\
  exception_from_sqlstate true "56000" = OperationalError /\
  exception_from_sqlstate true "56000" <> classify_by_table "56000".
Proof. repeat split; discriminate. Qed.

(** ** Runs of the monad *)

Ltac unfold_monad :=
  cbv [bind ret gets modify undefined when upd_conn upd_curs trace
       PyErr_SetString PyErr_Occurred PQclear PQfinish PQstatus PQerrorMessage
       IFCLEARPGRES IFCLEARPGRES_curs CLEARPGRES_curs psyco_set_error
       conn_notice_process conn_notifies_process curs_reset conn_close
       reply_result reply_int] in *.

Ltac simpl_world :=
  cbn [w_curs w_conn w_pg w_file w_err w_green w_types w_trace
       set_curs set_conn set_pg set_file set_err set_trace
       status isolation_level mark critical closed protocol async_status
       async_cursor conn_string_types
       set_status set_mark set_critical set_closed set_async_status
       set_async_cursor
       pgres rowcount lastoid notuples row columns description casts pgstatus
       copysize string_types
       set_pgres set_rowcount set_lastoid set_notuples set_row set_columns
       set_description set_casts set_pgstatus
       pg_status pg_error pg_script file_attrs file_script file_calls
       pending_replies pending_file List.length
       fst snd] in *.

Ltac msimpl := unfold_monad; simpl_world.

Lemma runs_ret {A} (a : A) w (Q : A -> world -> Prop) : Q a w -> runs (ret a) w Q.
Proof. intros H; exists a, w; split; [reflexivity|exact H]. Qed.

Lemma runs_bind {A B} (m : M A) (k : A -> M B) w (Q : B -> world -> Prop) :
  runs m w (fun a w' => runs (k a) w' Q) -> runs (bind m k) w Q.
Proof.
  intros (a & w' & E & b & w'' & E' & H).
  exists b, w''; split; [|exact H]. unfold bind; now rewrite E.
Qed.

Lemma runs_weaken {A} (m : M A) w (Q Q' : A -> world -> Prop) :
  runs m w Q -> (forall a w', Q a w' -> Q' a w') -> runs m w Q'.
Proof. intros (a & w' & E & H) HQ; exists a, w'; auto. Qed.

Lemma runs_gets {A} (f : world -> A) w (Q : A -> world -> Prop) :
  Q (f w) w -> runs (gets f) w Q.
Proof. intros H; exists (f w), w; split; [reflexivity|exact H]. Qed.

Lemma runs_modify (f : world -> world) w (Q : unit -> world -> Prop) :
  Q tt (f w) -> runs (modify f) w Q.
Proof. intros H; exists tt, (f w); split; [reflexivity|exact H]. Qed.

Lemma runs_inv {A} (m : M A) w (Q : A -> world -> Prop) a w' :
  runs m w Q -> m w = Some (a, w') -> Q a w'.
Proof. intros (a0 & w0 & E & H) E'. rewrite E in E'. now injection E' as <- <-. Qed.

Lemma frame_refl w : frame w w.
Proof. split; auto. Qed.

Lemma frame_trans w1 w2 w3 : frame w1 w2 -> frame w2 w3 -> frame w1 w3.
Proof. intros [a b c] [a' b' c']; split; [congruence|lia|lia]. Qed.

Lemma safe_ret {A} (a : A) : safe (ret a).
Proof. intros w; apply runs_ret, frame_refl. Qed.

Lemma safe_bind {A B} (m : M A) (k : A -> M B) :
  safe m -> (forall a, safe (k a)) -> safe (bind m k).
Proof.
  intros Hm Hk w. apply runs_bind.
  eapply runs_weaken; [apply Hm|]. intros a w' F.
  eapply runs_weaken; [apply Hk|]. intros b w'' F'. exact (frame_trans _ _ _ F F').
Qed.

Lemma safe_gets {A} (f : world -> A) : safe (gets f).
Proof. intros w; apply runs_gets, frame_refl. Qed.

Lemma safe_when (b : bool) (m : M unit) : safe m -> safe (when b m).
Proof. destruct b; [auto|intros _; apply safe_ret]. Qed.

Lemma safe_upd_curs f : safe (upd_curs f).
Proof. intros w; apply runs_modify; split; reflexivity. Qed.

Lemma safe_set_err e : safe (modify (set_err e)).
Proof. intros w; apply runs_modify; split; reflexivity. Qed.

Lemma safe_trace c : safe (trace c).
Proof. intros w; apply runs_modify; split; reflexivity. Qed.

Lemma safe_next_reply : safe next_reply.
Proof.
  intros w; unfold next_reply, runs.
  destruct (w_pg w) as [[st e [|r rest]]|] eqn:E; eexists _, _; (split; [reflexivity|]);
    split; unfold pending_replies; simpl_world; try rewrite E; simpl_world; auto.
Qed.

Create HintDb safe.
#[local] Hint Resolve safe_ret safe_bind safe_gets safe_when safe_upd_curs safe_set_err safe_trace safe_next_reply : safe.

Lemma safe_PQexec q : safe (PQexec q).
Proof. unfold PQexec; auto with safe. Qed.
Lemma safe_PQgetResult : safe PQgetResult.
Proof. unfold PQgetResult; auto with safe. Qed.
Lemma safe_PQclear r : safe (PQclear r).
Proof. unfold PQclear; auto with safe. Qed.
Lemma safe_PQsendQuery q : safe (PQsendQuery q).
Proof. unfold PQsendQuery; auto with safe. Qed.
Lemma safe_PQflush : safe PQflush.
Proof. unfold PQflush; auto with safe. Qed.
Lemma safe_PQputCopyData q : safe (PQputCopyData q).
Proof. unfold PQputCopyData; auto with safe. Qed.
Lemma safe_PQputCopyEnd q : safe (PQputCopyEnd q).
Proof. unfold PQputCopyEnd; auto with safe. Qed.
Lemma safe_PQgetCopyData : safe PQgetCopyData.
Proof. unfold PQgetCopyData; auto with safe. Qed.
Lemma safe_PQputline q : safe (PQputline q).
Proof. unfold PQputline; auto with safe. Qed.
Lemma safe_PQendcopy : safe PQendcopy.
Proof. unfold PQendcopy; auto with safe. Qed.
Lemma safe_PQgetline : safe PQgetline.
Proof. unfold PQgetline; auto with safe. Qed.

Lemma safe_if {A} (b : bool) (m1 m2 : M A) : safe m1 -> safe m2 -> safe (if b then m1 else m2).
Proof. now destruct b. Qed.

#[local] Hint Resolve safe_if safe_PQexec safe_PQgetResult safe_PQclear safe_PQsendQuery safe_PQflush
  safe_PQputCopyData safe_PQputCopyEnd safe_PQgetCopyData safe_PQputline safe_PQendcopy safe_PQgetline : safe.

Lemma safe_PyErr_SetString t m : safe (PyErr_SetString t (Some m)).
Proof. unfold PyErr_SetString; auto with safe. Qed.

Lemma safe_upd_closed v : safe (upd_conn (set_closed v)).
Proof. intros w; apply runs_modify; split; reflexivity. Qed.

Lemma safe_psyco_set_error a b c d e : safe (psyco_set_error a b c d e).
Proof. unfold psyco_set_error; auto with safe. Qed.

#[local] Hint Resolve safe_PyErr_SetString safe_upd_closed safe_psyco_set_error : safe.

Lemma safe_PQerrorMessage_bind {A} (k : option string -> M A) :
  (forall m, safe (k (Some m))) -> safe (bind PQerrorMessage k).
Proof.
  intros Hk w. apply runs_bind. unfold PQerrorMessage. apply runs_gets.
  destruct (w_pg w); apply Hk.
Qed.

Lemma strip_severity_some (m : string) : exists s, strip_severity (Some m) = Some s.
Proof. unfold strip_severity; destruct (_ && _); eauto. Qed.

Lemma safe_pq_raise cfg curs res : safe (pq_raise cfg curs res).
Proof.
  unfold pq_raise.
  repeat (first [apply safe_PQerrorMessage_bind; intros | apply safe_bind; [auto with safe|intros]]).
  match goal with |- safe (match ?x with _ => _ end) => destruct x as [err|] end;
    [|auto with safe].
  destruct (strip_severity_some err) as [s ->]. auto with safe.
Qed.

#[local] Hint Resolve safe_pq_raise : safe.

Lemma safe_IFCLEARPGRES_curs : safe IFCLEARPGRES_curs.
Proof.
  unfold IFCLEARPGRES_curs. apply safe_bind; [auto with safe|intros [r|]]; auto with safe.
Qed.
#[local] Hint Resolve safe_IFCLEARPGRES_curs : safe.

Lemma PQgetResult_pops w :
  runs PQgetResult w (fun r w' =>
    frame w w' /\ (r <> None -> (pending_replies w' < pending_replies w)%nat)).
Proof.
  unfold PQgetResult, next_reply, runs; msimpl. unfold pending_replies.
  destruct (w_pg w) as [[st e [|r rest]]|] eqn:E; simpl_world;
    eexists _, _; (split; [reflexivity|]); simpl_world;
    (split; [split; unfold pending_replies; simpl_world; try rewrite E; simpl_world; auto|]);
    try congruence; intros _; simpl; lia.
Qed.

Ltac mstep L :=
  apply runs_bind; eapply runs_weaken; [apply L|]; cbv beta.

Lemma get_results_safe cfg (fuel : nat) :
  forall w, (pending_replies w < fuel)%nat ->
  runs (get_results cfg fuel) w (fun _ w' => frame w w').
Proof.
  induction fuel as [|fuel IH]; intros w Hfuel; [lia|].
  simpl get_results.
  mstep PQgetResult_pops. intros r w1 [F1 Hpop].
  mstep safe_upd_curs. intros ? w2 F2.
  destruct r as [res|]; [|apply runs_ret; eapply frame_trans; eauto].
  mstep safe_when; [apply safe_pq_raise|]. intros ? w3 F3.
  mstep safe_IFCLEARPGRES_curs. intros ? w4 F4.
  pose proof (frame_trans _ _ _ F2 (frame_trans _ _ _ F3 F4)) as F.
  eapply runs_weaken; [apply IH|].
  - pose proof (frame_replies _ _ F).
    assert (pending_replies w1 < pending_replies w)%nat by (apply Hpop; discriminate).
    lia.
  - intros ? w5 F5. exact (frame_trans _ _ _ F1 (frame_trans _ _ _ F F5)).
Qed.

Lemma safe_grab_results cfg : safe (grab_results cfg).
Proof. intros w; apply get_results_safe; lia. Qed.

(** ** pq_raise and the transaction functions *)

Lemma pq_raise_runs cfg curs res w :
  runs (pq_raise cfg curs res) w (fun _ w' =>
    exists e, is_dbapi_error (exc_type e) = true /\
              w' = set_err (Some e) (flag_bad w)).
Proof.
  unfold pq_raise.
  apply runs_bind, runs_gets.
  apply runs_bind with (m := when _ _).
  apply runs_weaken with (Q := fun _ w' => w' = flag_bad w).
  { unfold flag_bad, when. destruct (match w_pg w with Some _ => _ | None => _ end).
    - apply runs_modify; reflexivity.
    - apply runs_ret; reflexivity. }
  intros ? w1 ->.
  apply runs_bind, runs_gets.
  apply runs_bind, runs_gets.
  apply runs_bind, runs_gets.
  match goal with |- runs (match ?x with _ => _ end) _ _ => destruct x as [err|] end.
  - destruct (strip_severity_some err) as [s ->].
    unfold psyco_set_error. apply runs_modify.
    eexists; split; [|reflexivity]. cbn [exc_type].
    match goal with
    | |- is_dbapi_error (match (match ?c with _ => _ end) with _ => _ end) = true =>
        destruct c
    end.
    + apply exception_from_sqlstate_dbapi.
    + repeat match goal with
             | |- context [if ?b then _ else _] => destruct b
             end; reflexivity.
  - unfold PyErr_SetString. apply runs_modify.
    eexists; split; [|reflexivity]. reflexivity.
Qed.


Lemma upto_closed_refl c : upto_closed c c.
Proof. now destruct c. Qed.

Lemma upto_closed_set v c : upto_closed c (set_closed v c).
Proof. now destruct c. Qed.

Lemma upto_closed_trans a b c : upto_closed a b -> upto_closed b c -> upto_closed a c.
Proof. unfold upto_closed; intros -> ->; now destruct a. Qed.

Lemma pq_execute_command_locked_runs query w :
  runs (pq_execute_command_locked query) w (fun out w' =>
    w_conn w' = w_conn w /\ w_curs w' = w_curs w /\ w_file w' = w_file w /\
    w_green w' = w_green w /\ w_types w' = w_types w /\
    (pending_replies w' <= pending_replies w)%nat /\
    fst (fst out) = (if next_command_ok w then 0 else -1) /\
    (fst (fst out) = 0 -> w_err w' = w_err w)).
Proof.
  destruct w as [curs conn pg file err green types tr].
  unfold runs, pq_execute_command_locked, next_command_ok, PQresultStatus.
  destruct green, pg as [[st e [|[rs re [res|] ri rc rl [ex|]] rest]]|]; cbn;
    try (destruct (ExecStatusType_eqb (resultStatus res) PGRES_COMMAND_OK); cbn).
  all: eexists _, _; (split; [reflexivity|]); cbn.
  all: repeat split; auto; try discriminate; try lia.
Qed.

Lemma upto_closed_fields c c' :
  upto_closed c c' ->
  status c' = status c /\ isolation_level c' = isolation_level c /\
  mark c' = mark c /\ critical c' = critical c /\ protocol c' = protocol c /\
  async_status c' = async_status c /\ async_cursor c' = async_cursor c.
Proof. unfold upto_closed; intros ->; now destruct c. Qed.

Lemma flag_bad_conn w : upto_closed (w_conn w) (w_conn (flag_bad w)).
Proof.
  unfold flag_bad. destruct (match w_pg w with Some _ => _ | None => _ end).
  - apply upto_closed_set.
  - apply upto_closed_refl.
Qed.

Lemma flag_bad_rest w :
  w_curs (flag_bad w) = w_curs w /\ w_pg (flag_bad w) = w_pg w /\
  w_file (flag_bad w) = w_file w /\ w_err (flag_bad w) = w_err w /\
  w_green (flag_bad w) = w_green w /\ w_types (flag_bad w) = w_types w /\
  w_trace (flag_bad w) = w_trace w.
Proof.
  unfold flag_bad. destruct (match w_pg w with Some _ => _ | None => _ end);
    repeat split; reflexivity.
Qed.

Lemma pq_complete_error_runs cfg res error w :
  runs (pq_complete_error cfg res error) w (fun _ w' =>
    upto_closed (w_conn w) (w_conn w') /\ raised w' /\
    w_curs w' = w_curs w /\ w_pg w' = w_pg w /\ w_file w' = w_file w /\
    w_green w' = w_green w).
Proof.
  unfold pq_complete_error.
  destruct res as [r|].
  - mstep pq_raise_runs. intros ? w1 (e & He & ->).
    unfold IFCLEARPGRES, PQclear.
    apply runs_bind, runs_bind, runs_modify, runs_ret, runs_ret.
    destruct (flag_bad_rest w) as (? & ? & ? & ? & ? & ? & ?).
    simpl_world. repeat split; auto.
    + apply flag_bad_conn.
    + exists e; auto.
  - apply runs_bind with (m := match error with Some _ => _ | None => _ end).
    apply runs_weaken with (Q := fun _ w' => exists m, w' = set_err (Some (mkException OperationalError m None None false)) w).
    { destruct error; apply runs_modify; eauto. }
    intros ? w1 (m & ->).
    apply runs_bind, runs_ret, runs_ret. simpl_world.
    repeat split; auto.
    + apply upto_closed_refl.
    + eexists; split; reflexivity.
Qed.


Lemma conn_status_eqb_eq a b : conn_status_eqb a b = true <-> a = b.
Proof.
  destruct a, b; simpl; split; intros H; try discriminate; try reflexivity.
  - apply Z.eqb_eq in H; now subst.
  - injection H as ->; apply Z.eqb_refl.
Qed.

Lemma pq_commit_runs (cfg : build) (w : world) :
  status (w_conn w) = CONN_STATUS_BEGIN ->
  isolation_level (w_conn w) <> 0 ->
  runs (pq_commit cfg) w (fun retvalue w' =>
    status (w_conn w') = CONN_STATUS_READY /\
    mark (w_conn w') = mark_incr (mark (w_conn w)) /\
    retvalue = (if next_command_ok w then 0 else -1)).
Proof.
  intros Hst Hlevel.
  unfold pq_commit.
  apply runs_bind, runs_gets. apply runs_bind, runs_gets.
  rewrite Hst. apply Z.eqb_neq in Hlevel. rewrite Hlevel. cbn [conn_status_eqb negb orb].
  apply runs_bind, runs_modify.
  mstep pq_execute_command_locked_runs.
  intros [[rv res] error] w1 (Hconn & _ & _ & _ & _ & _ & Hrv & _).
  cbn [fst] in Hrv. simpl_world.
  unfold conn_notice_process. apply runs_bind, runs_ret.
  apply runs_bind with (m := when _ _).
  apply runs_weaken with (Q := fun _ w' => upto_closed (w_conn w1) (w_conn w')).
  { unfold when. destruct (rv <? 0).
    - eapply runs_weaken; [apply pq_complete_error_runs|]. now intros ? ? [? _].
    - apply runs_ret, upto_closed_refl. }
  intros ? w2 Hup.
  apply runs_bind, runs_modify, runs_ret. simpl_world.
  apply upto_closed_fields in Hup as (_ & _ & Hmark & _).
  repeat split.
  - now rewrite Hmark, Hconn.
  - exact Hrv.
Qed.

(** C4.  Called on a connection that is in a transaction (status BEGIN,
    isolation level not 0), [pq_commit] returns, leaves the status READY
    and the mark incremented once, whether the COMMIT command succeeded or
    failed; the return value tells the two apart: 0 when the backend
    accepted the command, -1 when it did not. *)
Theorem pq_commit_unconditional (cfg : build) (w : world) :
  status (w_conn w) = CONN_STATUS_BEGIN ->
  isolation_level (w_conn w) <> 0 ->
  exists retvalue w',
    pq_commit cfg w = Some (retvalue, w') /\
    status (w_conn w') = CONN_STATUS_READY /\
    mark (w_conn w') = mark_incr (mark (w_conn w)) /\
    retvalue = (if next_command_ok w then 0 else -1).
Proof. intros Hst Hlevel. exact (pq_commit_runs cfg w Hst Hlevel). Qed.

Lemma pq_commit_unconditional_witness :
  exists retvalue w',
    pq_commit Scenario.cfg Scenario.w_in_transaction = Some (retvalue, w') /\
    status (w_conn w') = CONN_STATUS_READY /\
    mark (w_conn w') = mark_incr (mark (w_conn Scenario.w_in_transaction)) /\
    retvalue = (if next_command_ok Scenario.w_in_transaction then 0 else -1).
Proof.
  apply (pq_commit_unconditional Scenario.cfg Scenario.w_in_transaction).
  - reflexivity.
  - simpl; lia.
Defined.

Lemma pq_begin_locked_noop (res : option PGresult) (error : option string) (w : world) :
  isolation_level (w_conn w) = 0 \/ status (w_conn w) <> CONN_STATUS_READY ->
  pq_begin_locked res error w = Some ((0, res, error), w).
Proof.
  intros H. unfold pq_begin_locked, bind, gets.
  assert ((isolation_level (w_conn w) =? 0)
          || negb (conn_status_eqb (status (w_conn w)) CONN_STATUS_READY) = true) as ->;
    [|reflexivity].
  destruct H as [->|H]; [reflexivity|].
  apply orb_true_iff; right.
  destruct (conn_status_eqb _ _) eqn:E; [|reflexivity].
  apply conn_status_eqb_eq in E; contradiction.
Qed.

Lemma pq_begin_locked_runs (w : world) :
  status (w_conn w) = CONN_STATUS_READY ->
  isolation_level (w_conn w) = 1 \/ isolation_level (w_conn w) = 2 ->
  runs (pq_begin_locked None None) w (fun out w' =>
    fst (fst out) = (if next_command_ok w then 0 else -1) /\
    w_conn w' = (if next_command_ok w
                 then set_status CONN_STATUS_BEGIN (w_conn w)
                 else w_conn w) /\
    w_curs w' = w_curs w /\ w_file w' = w_file w /\ w_green w' = w_green w /\
    w_types w' = w_types w /\
    (pending_replies w' <= pending_replies w)%nat /\
    (fst (fst out) = 0 -> w_err w' = w_err w)).
Proof.
  intros Hst Hlevel.
  unfold pq_begin_locked.
  apply runs_bind, runs_gets. apply runs_bind, runs_gets.
  rewrite Hst.
  assert (exists q, (isolation_level (w_conn w) =? 0) = false /\
                    begin_query_at (isolation_level (w_conn w)) = Some (Some q))
    as (q & -> & ->) by (destruct Hlevel as [->| ->]; eexists; split; reflexivity).
  cbn [conn_status_eqb negb orb].
  mstep pq_execute_command_locked_runs.
  intros [[rv res] error] w1 (Hconn & Hcurs & Hfile & Hgreen & Htypes & Hpend & Hrv & Herr).
  cbn [fst] in *.
  apply runs_bind with (m := when _ _).
  rewrite Hrv. destruct (next_command_ok w); cbn [Z.eqb when].
  - apply runs_modify, runs_ret. simpl_world. cbn [fst]. rewrite Hconn.
    repeat split; auto.
  - apply runs_ret, runs_ret. cbn [fst]. repeat split; auto. discriminate.
Qed.

(** C2.  Starting from status READY with isolation level 1 or 2 (the
    levels other than 0), when the backend accepts the BEGIN command
    [pq_begin_locked] returns 0 and leaves the status BEGIN and the mark
    unchanged, and a following [pq_commit] returns the status to READY with
    the mark incremented exactly once over the pair; when the backend does
    not accept the command, [pq_begin_locked] returns -1 and the status
    stays READY.  [pq_begin_locked] does nothing at all (no command issued,
    the whole state unchanged) when the isolation level is 0 or the status
    is not READY. *)
Theorem begin_commit_cycle (cfg : build) :
  (forall w : world,
      status (w_conn w) = CONN_STATUS_READY ->
      isolation_level (w_conn w) = 1 \/ isolation_level (w_conn w) = 2 ->
      next_command_ok w = true ->
      exists res error w1 retvalue w2,
        pq_begin_locked None None w = Some ((0, res, error), w1) /\
        status (w_conn w1) = CONN_STATUS_BEGIN /\
        mark (w_conn w1) = mark (w_conn w) /\
        pq_commit cfg w1 = Some (retvalue, w2) /\
        status (w_conn w2) = CONN_STATUS_READY /\
        mark (w_conn w2) = mark_incr (mark (w_conn w))) /\
  (forall w : world,
      status (w_conn w) = CONN_STATUS_READY ->
      isolation_level (w_conn w) = 1 \/ isolation_level (w_conn w) = 2 ->
      next_command_ok w = false ->
      exists res error w1,
        pq_begin_locked None None w = Some ((-1, res, error), w1) /\
        status (w_conn w1) = CONN_STATUS_READY /\
        mark (w_conn w1) = mark (w_conn w)) /\
  (forall (w : world) (res : option PGresult) (error : option string),
      isolation_level (w_conn w) = 0 \/ status (w_conn w) <> CONN_STATUS_READY ->
      pq_begin_locked res error w = Some ((0, res, error), w)).
Proof.
  split; [|split].
  - intros w Hst Hlevel Hok.
    destruct (pq_begin_locked_runs w Hst Hlevel)
      as ([[rv res] error] & w1 & Hbegin & Hrv & Hconn & _).
    rewrite Hok in Hrv, Hconn. cbn [fst] in Hrv. subst rv.
    destruct (pq_commit_runs cfg w1) as (retvalue & w2 & Hcommit & Hst2 & Hmark2 & _).
    + now rewrite Hconn.
    + rewrite Hconn; simpl_world. destruct Hlevel as [->| ->]; discriminate.
    + exists res, error, w1, retvalue, w2.
      rewrite Hconn in *. simpl_world. repeat split; assumption.
  - intros w Hst Hlevel Hok.
    destruct (pq_begin_locked_runs w Hst Hlevel)
      as ([[rv res] error] & w1 & Hbegin & Hrv & Hconn & _).
    rewrite Hok in Hrv, Hconn. cbn [fst] in Hrv. subst rv.
    exists res, error, w1. rewrite Hconn. repeat split; assumption.
  - intros w res error H. now apply pq_begin_locked_noop.
Qed.

Lemma begin_commit_cycle_witness :
  (exists res error w1 retvalue w2,
      pq_begin_locked None None Scenario.w_ready = Some ((0, res, error), w1) /\
      status (w_conn w1) = CONN_STATUS_BEGIN /\
      mark (w_conn w1) = mark (w_conn Scenario.w_ready) /\
      pq_commit Scenario.cfg w1 = Some (retvalue, w2) /\
      status (w_conn w2) = CONN_STATUS_READY /\
      mark (w_conn w2) = mark_incr (mark (w_conn Scenario.w_ready))) /\
  (exists res error w1,
      pq_begin_locked None None Scenario.w_refused = Some ((-1, res, error), w1) /\
      status (w_conn w1) = CONN_STATUS_READY /\
      mark (w_conn w1) = mark (w_conn Scenario.w_refused)) /\
  pq_begin_locked None None Scenario.w_in_transaction
    = Some ((0, None, None), Scenario.w_in_transaction).
Proof.
  destruct (begin_commit_cycle Scenario.cfg) as (Hcycle & Hrefused & Hnoop).
  split; [|split].
  - apply (Hcycle Scenario.w_ready); [reflexivity|left; reflexivity|reflexivity].
  - apply (Hrefused Scenario.w_refused); [reflexivity|left; reflexivity|reflexivity].
  - apply (Hnoop Scenario.w_in_transaction). right; simpl; discriminate.
Defined.

(** When the backend refuses the BEGIN command the connection is left as
    it was: [pq_begin_locked] returns -1 with the status still READY, and a
    [pq_commit] that follows finds no transaction and leaves the mark. *)
Lemma begin_refused_stays_ready :
  status (w_conn Scenario.w_refused) = CONN_STATUS_READY /\
  isolation_level (w_conn Scenario.w_refused) <> 0 /\
  exists res error w1 w2,
    pq_begin_locked None None Scenario.w_refused = Some ((-1, res, error), w1) /\
    status (w_conn w1) <> CONN_STATUS_BEGIN /\
    pq_commit Scenario.cfg w1 = Some (0, w2) /\
    status (w_conn w2) = CONN_STATUS_READY /\
    mark (w_conn w2) = mark (w_conn Scenario.w_refused) /\
    mark (w_conn w2) <> mark_incr (mark (w_conn Scenario.w_refused)).
Proof.
  split; [reflexivity|]. split; [simpl; lia|].
  do 4 eexists.
  split; [vm_compute; reflexivity|].
  split; [simpl; discriminate|].
  split; [vm_compute; reflexivity|].
  split; [reflexivity|]. split; [reflexivity|]. vm_compute; discriminate.
Qed.

(** ** The critical flag *)

Lemma offset_split (n : nat) (s : string) :
  (n <= String.length s)%nat ->
  exists skipped, s = skipped ++ offset n s /\ String.length skipped = n.
Proof.
  revert s; induction n as [|n IH]; intros s Hn.
  - exists ""; split; reflexivity.
  - destruct s as [|c s]; [simpl in Hn; lia|].
    destruct (IH s) as (sk & E & L); [simpl in Hn; lia|].
    exists (String c sk); split; simpl; [now rewrite <- E|now rewrite L].
Qed.

Lemma conn_close_runs w :
  runs conn_close w (fun _ w' =>
    upto_closed (w_conn w) (w_conn w') /\ closed (w_conn w') <> 0 /\
    w_pg w' = None /\
    w_curs w' = w_curs w /\ w_file w' = w_file w /\ w_err w' = w_err w /\
    w_green w' = w_green w).
Proof.
  unfold conn_close.
  apply runs_bind, runs_modify. apply runs_bind, runs_gets. simpl_world.
  assert (H : upto_closed (w_conn w)
                (if closed (w_conn w) =? 0 then set_closed 1 (w_conn w) else w_conn w)
              /\ closed (if closed (w_conn w) =? 0 then set_closed 1 (w_conn w) else w_conn w) <> 0).
  { destruct (Z.eqb_spec (closed (w_conn w)) 0).
    - split; [apply upto_closed_set|]. now destruct (w_conn w).
    - split; [apply upto_closed_refl|assumption]. }
  destruct H as [Hup Hcl].
  destruct (w_pg w) eqn:Hpg.
  - unfold PQfinish. apply runs_bind, runs_modify, runs_modify. simpl_world.
    repeat split; auto.
  - apply runs_ret. simpl_world. repeat split; auto.
Qed.

Lemma pq_resolve_critical_none (close : Z) (w : world) :
  critical (w_conn w) = None -> pq_resolve_critical close w = Some (tt, w).
Proof. intros H. unfold pq_resolve_critical, bind, gets. now rewrite H. Qed.

Lemma pq_resolve_critical_runs (close : Z) (w : world) (crit : string) :
  critical (w_conn w) = Some crit ->
  6 <= strlen crit ->
  runs (pq_resolve_critical close) w (fun _ w' =>
    critical (w_conn w') = None /\
    w_err w' = Some (mkException OperationalError (offset 6 crit) None None false) /\
    (close = 1 -> closed (w_conn w') <> 0) /\
    w_curs w' = w_curs w /\ w_file w' = w_file w).
Proof.
  intros Hcrit Hlen.
  unfold pq_resolve_critical.
  apply runs_bind, runs_gets. rewrite Hcrit.
  assert ((strlen crit <? 6) = false) as -> by (apply Z.ltb_ge; exact Hlen).
  unfold PyErr_SetString. apply runs_bind, runs_modify.
  apply runs_bind with (m := when _ _).
  apply runs_weaken with (Q := fun _ w' =>
    upto_closed (w_conn w) (w_conn w') /\ (close = 1 -> closed (w_conn w') <> 0) /\
    w_curs w' = w_curs w /\ w_file w' = w_file w /\
    w_err w' = Some (mkException OperationalError (offset 6 crit) None None false)).
  { unfold when. destruct (Z.eqb_spec close 1).
    - eapply runs_weaken; [apply conn_close_runs|].
      intros ? w' (Hup & Hcl & _ & Hcurs & Hfile & Herr & _). simpl_world. auto.
    - apply runs_ret. simpl_world. repeat split; auto using upto_closed_refl. }
  intros ? w1 (Hup & Hcl & Hcurs & Hfile & Herr).
  unfold pq_clear_critical. apply runs_bind, runs_gets.
  apply upto_closed_fields in Hup as (_ & _ & _ & Hc & _).
  rewrite Hc, Hcrit. apply runs_modify. simpl_world.
  repeat split; auto.
Qed.

Lemma pq_resolve_critical_clears (close : Z) (w w1 : world) :
  pq_resolve_critical close w = Some (tt, w1) -> critical (w_conn w1) = None.
Proof.
  intros H.
  destruct (critical (w_conn w)) as [crit|] eqn:Hcrit.
  - destruct (Z.ltb_spec (strlen crit) 6) as [Hlt|Hge].
    + unfold pq_resolve_critical, bind, gets in H. rewrite Hcrit in H.
      apply Z.ltb_lt in Hlt. rewrite Hlt in H. discriminate H.
    + apply (runs_inv _ _ _ _ _ (pq_resolve_critical_runs close w crit Hcrit Hge) H).
  - rewrite (pq_resolve_critical_none close w Hcrit) in H.
    injection H as <-. exact Hcrit.
Qed.

(** C9.  After a call of [pq_resolve_critical] has returned, the critical
    flag is clear, and a second call (with either value of [close]) returns
    leaving the whole state as it was: no error is raised, the connection
    is not closed again. *)
Theorem pq_resolve_critical_idempotent (close1 close2 : Z) (w w1 : world) :
  pq_resolve_critical close1 w = Some (tt, w1) ->
  critical (w_conn w1) = None /\
  pq_resolve_critical close2 w1 = Some (tt, w1).
Proof.
  intros H. pose proof (pq_resolve_critical_clears _ _ _ H) as Hc.
  split; [exact Hc|]. now apply pq_resolve_critical_none.
Qed.

Lemma pq_resolve_critical_idempotent_witness :
  exists w1,
    pq_resolve_critical 1 Scenario.w_critical = Some (tt, w1) /\
    critical (w_conn w1) = None /\
    pq_resolve_critical 0 w1 = Some (tt, w1).
Proof.
  eexists. split; [vm_compute; reflexivity|].
  apply (pq_resolve_critical_idempotent 1 0 Scenario.w_critical).
  vm_compute; reflexivity.
Defined.

(** C10.  When the critical flag holds a message of six characters or
    more, resolving it raises OperationalError with the stored message less
    its first six characters: the stored message is those six characters
    followed by the surfaced one, which therefore differs from it. *)
Theorem pq_resolve_critical_skips_six (close : Z) (w : world) (stored : string) :
  critical (w_conn w) = Some stored ->
  (6 <= String.length stored)%nat ->
  exists skipped surfaced w',
    stored = skipped ++ surfaced /\
    String.length skipped = 6%nat /\
    surfaced <> stored /\
    pq_resolve_critical close w = Some (tt, w') /\
    w_err w' = Some (mkException OperationalError surfaced None None false).
Proof.
  intros Hcrit Hlen.
  destruct (offset_split 6 stored Hlen) as (skipped & Hsplit & Hsk).
  destruct (pq_resolve_critical_runs close w stored Hcrit) as ([] & w' & Hrun & _ & Herr & _).
  { unfold strlen; lia. }
  exists skipped, (offset 6 stored), w'. repeat split; auto.
  intros E. rewrite E in Hsplit at 1.
  apply (f_equal String.length) in Hsplit. rewrite length_append in Hsplit. lia.
Qed.

Lemma pq_resolve_critical_skips_six_witness :
  exists skipped surfaced w',
    "FATAL: terminating connection" = skipped ++ surfaced /\
    String.length skipped = 6%nat /\
    surfaced <> "FATAL: terminating connection" /\
    pq_resolve_critical 1 Scenario.w_critical = Some (tt, w') /\
    w_err w' = Some (mkException OperationalError surfaced None None false).
Proof.
  apply (pq_resolve_critical_skips_six 1 Scenario.w_critical).
  - reflexivity.
  - simpl; lia.
Defined.

(** ** pq_fetch on the result of a command *)

Lemma digits_value_decimal (s : string) :
  forall acc n, decimal_digits acc s = Some n -> digits_value acc s = n.
Proof.
  induction s as [|c s IH]; simpl; intros acc n H.
  - now injection H.
  - destruct (isdigit c); [now apply IH|discriminate].
Qed.

Lemma decimal_digits_lower (s : string) :
  forall acc n, 0 <= acc -> decimal_digits acc s = Some n -> 0 <= n.
Proof.
  induction s as [|c s IH]; simpl; intros acc n Hacc H.
  - injection H as <-; exact Hacc.
  - destruct (isdigit c) eqn:D; [|discriminate].
    apply (IH (acc * 10 + (code c - 48)) n); [|exact H].
    unfold isdigit in D; cbv zeta in D. apply andb_true_iff in D as [D1 D2].
    apply Z.leb_le in D1. lia.
Qed.

Lemma isdigit_not_space (c : ascii) : isdigit c = true -> isspace c = false.
Proof.
  unfold isdigit, isspace; cbv zeta; intros H.
  apply andb_true_iff in H as [H1 H2]. apply Z.leb_le in H1. apply Z.leb_le in H2.
  apply orb_false_iff; split.
  - apply Z.eqb_neq; lia.
  - apply andb_false_iff; right. apply Z.leb_gt; lia.
Qed.

Lemma atoi_decimal (text : string) (n : Z) :
  decimal_value text = Some n -> n <= INT_MAX -> atoi text = n.
Proof.
  unfold decimal_value. destruct text as [|c s]; [discriminate|].
  intros H Hmax.
  pose proof (decimal_digits_lower _ _ _ (Z.le_refl 0) H) as Hpos.
  pose proof (digits_value_decimal _ _ _ H) as Hv.
  simpl in H. destruct (isdigit c) eqn:D; [|discriminate].
  unfold atoi, strtol10. simpl skip_spaces. rewrite (isdigit_not_space c D).
  assert (Hsat : saturate_long n = n).
  { unfold saturate_long, LONG_MAX, LONG_MIN, INT_MAX in *.
    destruct (Z.gtb_spec n 9223372036854775807); [lia|].
    destruct (Z.ltb_spec n (-9223372036854775808)); [lia|reflexivity]. }
  assert (Hint : int_of_long n = n).
  { unfold int_of_long, INT_MAX in *. rewrite Z.mod_small; lia. }
  assert (Hsign : c <> "-"%char /\ c <> "+"%char).
  { split; intros ->; discriminate D. }
  destruct Hsign as [Hm Hp].
  destruct c as [[] [] [] [] [] [] [] []]; try congruence;
    rewrite Hv, Hsat; exact Hint.
Qed.

Ltac mstep1 :=
  lazymatch goal with
  | |- runs (bind _ _) _ _ => apply runs_bind
  | |- runs (ret _) _ _ => apply runs_ret
  | |- runs (gets _) _ _ => apply runs_gets
  | |- runs (modify _) _ _ => apply runs_modify
  | |- runs (upd_curs _) _ _ => apply runs_modify
  | |- runs (upd_conn _) _ _ => apply runs_modify
  | |- runs (trace _) _ _ => apply runs_modify
  | |- runs (PQclear _) _ _ => apply runs_modify
  | |- runs conn_notice_process _ _ => apply runs_ret
  | |- runs conn_notifies_process _ _ => apply runs_ret
  | |- runs PyErr_Occurred _ _ => apply runs_gets
  | |- runs PQerrorMessage _ _ => apply runs_gets
  | |- runs PQstatus _ _ => apply runs_gets
  | |- runs (PyErr_SetString _ (Some _)) _ _ => apply runs_modify
  end.

Ltac mrun := repeat (mstep1; simpl_world).

Lemma pq_fetch_command_runs (cfg : build) (w : world) (r : PGresult) :
  pgres (w_curs w) = Some r ->
  resultStatus r = PGRES_COMMAND_OK ->
  (forall m, critical (w_conn w) = Some m -> 6 <= strlen m) ->
  runs (pq_fetch cfg) w (fun ex w' =>
    rowcount (w_curs w') =
      match cmdTuples r with
      | None => -1
      | Some text => if Ascii.eqb (char_at text 0) zero then -1 else atoi text
      end /\
    lastoid (w_curs w') = oidValue r /\
    pgres (w_curs w') = None /\
    (critical (w_conn w) = None -> ex = 1 /\ w_err w' = w_err w) /\
    (critical (w_conn w) <> None -> ex = -1)).
Proof.
  intros Hres Hst Hcrit.
  unfold pq_fetch, curs_reset. mrun. rewrite Hres. mrun.
  unfold PQresultStatus. rewrite Hst. mrun.
  unfold CLEARPGRES_curs. mrun. rewrite Hres. mrun.
  destruct (critical (w_conn w)) as [m|] eqn:Hc.
  - cbn [Z.eqb]. mrun.
    eapply runs_weaken; [apply (pq_resolve_critical_runs 0 _ m)|]; simpl_world; auto.
    intros ? w' (_ & _ & _ & Hcurs & _). mrun. rewrite Hcurs. simpl_world.
    unfold PQcmdTuples, PQoidValue. repeat split; auto; discriminate.
  - mrun. unfold PQcmdTuples, PQoidValue.
    repeat split; auto. intros H; contradiction.
Qed.

(** The row count of a command within the range of [int].  When the
    cursor holds a command-only result (and the critical message, if one is
    set, is long enough to be resolved), [pq_fetch] returns with the
    rowcount of the cursor set to -1 if the affected-rows text is absent or
    empty, and to the integer the text denotes if it is a decimal numeral
    that fits an [int]. *)
Theorem pq_fetch_command_rowcount (cfg : build) (w : world) (r : PGresult) :
  pgres (w_curs w) = Some r ->
  resultStatus r = PGRES_COMMAND_OK ->
  (forall m, critical (w_conn w) = Some m -> 6 <= strlen m) ->
  exists ex w',
    pq_fetch cfg w = Some (ex, w') /\
    (cmdTuples r = None \/ cmdTuples r = Some "" -> rowcount (w_curs w') = -1) /\
    (forall text n,
        cmdTuples r = Some text -> decimal_value text = Some n -> n <= INT_MAX ->
        rowcount (w_curs w') = n).
Proof.
  intros Hres Hst Hcrit.
  destruct (pq_fetch_command_runs cfg w r Hres Hst Hcrit)
    as (ex & w' & Hrun & Hrows & _).
  exists ex, w'. split; [exact Hrun|]. rewrite Hrows. split.
  - intros [-> | ->]; reflexivity.
  - intros text n -> Hdec Hmax.
    rewrite (atoi_decimal text n Hdec Hmax).
    destruct text as [|c s]; [discriminate|].
    simpl in Hdec. destruct (isdigit c) eqn:D; [|discriminate].
    cbn [char_at String.get]. destruct (Ascii.eqb_spec c zero) as [->|]; [discriminate D|reflexivity].
Qed.

Lemma pq_fetch_command_rowcount_witness :
  exists ex w',
    pq_fetch Scenario.cfg Scenario.w_three_rows = Some (ex, w') /\
    rowcount (w_curs w') = 3.
Proof.
  destruct (pq_fetch_command_rowcount Scenario.cfg Scenario.w_three_rows
              (Scenario.command_ok (Some "3")))
    as (ex & w' & Hrun & _ & Hrows).
  - reflexivity.
  - reflexivity.
  - intros m H; discriminate H.
  - exists ex, w'. split; [exact Hrun|].
    apply (Hrows "3" 3); [reflexivity|reflexivity|unfold INT_MAX; lia].
Defined.

(** C8, at a count an [int] does not hold.  For a command that reports
    2147483648 affected rows, a numeral that denotes that number,
    [pq_fetch] succeeds and leaves -2147483648 as the rowcount of the
    cursor: [atoi] converts through [int], and the count is one more than
    the largest [int]. *)
Theorem pq_fetch_rowcount_overflow :
  decimal_value "2147483648" = Some 2147483648 /\
  exists w',
    pq_fetch Scenario.cfg Cases.w_many_rows = Some (1, w') /\
    rowcount (w_curs w') = (-2147483648) /\
    w_err w' = None.
Proof.
  split; [reflexivity|].
  eexists. split; [vm_compute; reflexivity|]. split; reflexivity.
Qed.

(** ** The results loop and the COPY loops *)

Lemma next_reply_runs (w : world) (Q : option reply -> world -> Prop) :
  match w_pg w with
  | Some pg =>
      match pg_script pg with
      | r :: rest =>
          Q (Some r) (set_pg (Some (mkPGconn (r_status r) (r_error r) rest)) w)
      | [] => Q None w
      end
  | None => Q None w
  end ->
  runs next_reply w Q.
Proof.
  unfold runs, next_reply. destruct (w_pg w) as [[st e [|r rest]]|]; simpl; eauto.
Qed.

Ltac mstep2 :=
  lazymatch goal with
  | |- runs next_reply _ _ => apply next_reply_runs
  | |- runs (when _ _) _ _ => unfold when
  | |- runs PQgetResult _ _ => unfold PQgetResult
  | |- runs (PQputCopyData _) _ _ => unfold PQputCopyData
  | |- runs (PQputCopyEnd _) _ _ => unfold PQputCopyEnd
  | |- runs PQgetCopyData _ _ => unfold PQgetCopyData
  | |- runs IFCLEARPGRES_curs _ _ => unfold IFCLEARPGRES_curs
  | |- runs (call_file _) _ _ => unfold call_file
  | |- runs (PyObject_GetAttrString _) _ _ => unfold PyObject_GetAttrString
  | _ => mstep1
  end.

Ltac mrun2 :=
  simpl_world; cbn [reply_result reply_int negb];
  repeat (mstep2; simpl_world; cbn [reply_result reply_int negb]).

Lemma session_script_cases (w : world) :
  (w_pg w = None /\ session_script w = []) \/
  (exists st e, w_pg w = Some (mkPGconn st e (session_script w))).
Proof.
  unfold session_script. destruct (w_pg w) as [[st e script]|]; [right|left]; eauto.
Qed.

Lemma get_results_drains (cfg : build) :
  forall (script : list reply) (fuel : nat) (w : world),
    session_script w = script ->
    (List.length script < fuel)%nat ->
    runs (get_results cfg fuel) w (fun _ w' =>
      drained (queued script) (after_queued script) w w').
Proof.
  induction script as [|r rest IH]; intros fuel w Hscript Hfuel;
    (destruct fuel as [|fuel]; [simpl in Hfuel; lia|]); simpl get_results.
  - mrun2.
    destruct (session_script_cases w) as [[Hpg _]|(st & e & Hpg)];
      rewrite Hpg; try rewrite Hscript; simpl_world; mrun2.
    all: split; simpl; auto using upto_closed_refl; try discriminate.
    all: unfold session_script; simpl_world; rewrite Hpg; auto.
  - mrun2.
    destruct (session_script_cases w) as [[_ Hnil]|(st & e & Hpg)];
      [congruence|].
    rewrite Hpg, Hscript. simpl_world. simpl queued; simpl after_queued.
    destruct (r_result r) as [res|] eqn:Hres; mrun2.
    + set (w1 := set_curs _ _).
      apply runs_weaken with (Q := fun _ w2 =>
        w_curs w2 = w_curs w1 /\ w_pg w2 = w_pg w1 /\ w_trace w2 = w_trace w1 /\
        w_file w2 = w_file w1 /\ upto_closed (w_conn w1) (w_conn w2) /\
        (is_fatal res = true -> raised w2) /\
        (is_fatal res = false -> w_err w2 = w_err w1)).
      { unfold is_fatal, PQresultStatus.
        destruct (ExecStatusType_eqb (resultStatus res) PGRES_FATAL_ERROR).
        - eapply runs_weaken; [apply pq_raise_runs|].
          intros ? w2 (ex & Hex & ->).
          destruct (flag_bad_rest w1) as (? & ? & ? & ? & ? & ? & ?).
          simpl_world. repeat split; auto using flag_bad_conn; try discriminate.
          intros _; exists ex; auto.
        - apply runs_ret. repeat split; auto using upto_closed_refl; discriminate. }
      intros ? w2 (Hcurs & Hpg2 & Htrace & Hfile & Hconn & Hfatal & Hquiet).
      subst w1; simpl_world. mrun2. rewrite Hcurs. mrun2.
      eapply runs_weaken; [apply (IH fuel)|].
      * unfold session_script; simpl_world. now rewrite Hpg2.
      * simpl in Hfuel; lia.
      * intros ? w3 [Dt Dp Dr Dra Dq Dc Df]. simpl_world.
        split; simpl_world.
        -- rewrite Dt, Htrace. unfold drain_trace. simpl.
           now rewrite <- !app_assoc.
        -- rewrite Dp, Hcurs. now destruct (w_curs w).
        -- exact Dr.
        -- simpl. intros Hex. destruct (existsb is_fatal (queued rest)) eqn:Hrest.
           ++ now apply Dra.
           ++ rewrite orb_false_r in Hex. destruct (Hfatal Hex) as (ex & Hw2 & Hk).
              exists ex. split; [|exact Hk]. now rewrite Dq.
        -- simpl. intros Hex. apply orb_false_iff in Hex as [H1 H2].
           rewrite (Dq H2). now apply Hquiet.
        -- eapply upto_closed_trans; [exact Hconn|exact Dc].
        -- now rewrite Df.
    + split; simpl; simpl_world; auto using upto_closed_refl; try discriminate.
Qed.

Lemma grab_results_drains (cfg : build) (w : world) :
  runs (grab_results cfg) w (fun _ w' =>
    drained (queued (session_script w)) (after_queued (session_script w)) w w').
Proof.
  unfold grab_results. apply get_results_drains; [reflexivity|].
  unfold pending_replies, session_script. destruct (w_pg w); simpl; lia.
Qed.

Lemma copy_in_v3_loop_sends (size : Z) :
  forall (chunks : list string) (sends : list reply) (fuel : nat) (w : world)
         (after_file : list pyresult) (after_pg : list reply)
         (st : ConnStatusType) (e : string),
    forallb chunk_ok chunks = true ->
    List.length sends = List.length chunks ->
    forallb accepted sends = true ->
    file_script (w_file w) =
      (map (fun c => Returns (PyString c)) chunks
       ++ Returns (PyString "") :: after_file)%list ->
    w_pg w = Some (mkPGconn st e (sends ++ after_pg)) ->
    (List.length chunks < fuel)%nat ->
    runs (copy_in_v3_loop fuel size) w (fun error w' =>
      error = 0 /\
      w_trace w' = (w_trace w ++ map Call_PQputCopyData chunks)%list /\
      session_script w' = after_pg /\
      w_file w' = mkPyFile (file_attrs (w_file w)) after_file
                    (file_calls (w_file w)
                     ++ repeat (Py_read size) (S (List.length chunks)))%list /\
      w_curs w' = w_curs w /\ w_conn w' = w_conn w /\ w_err w' = w_err w).
Proof.
  induction chunks as [|c chunks IH];
    intros sends fuel w after_file after_pg st e Hok Hlen Hacc Hfile Hpg Hfuel;
    (destruct fuel as [|fuel]; [simpl in Hfuel; lia|]); simpl copy_in_v3_loop.
  - destruct sends; [|discriminate Hlen]. simpl in Hfile, Hpg.
    mrun2. rewrite Hfile. mrun2. cbn. mrun2.
    repeat split; auto using app_nil_r;
      try (unfold session_script; simpl_world; rewrite Hpg; reflexivity).
  - destruct sends as [|s sends]; [discriminate Hlen|].
    simpl in Hfile, Hpg, Hok, Hacc, Hlen.
    apply andb_true_iff in Hok as [Hc Hok]. apply andb_true_iff in Hacc as [Hs Hacc].
    unfold chunk_ok in Hc. apply andb_true_iff in Hc as [Hc1 Hc2].
    apply negb_true_iff in Hc1. apply Z.leb_le in Hc2.
    mrun2. rewrite Hfile. mrun2.
    rewrite Hc1. assert ((strlen c >? INT_MAX) = false) as ->.
    { destruct (Z.gtb_spec (strlen c) INT_MAX); [lia|reflexivity]. }
    cbn [orb]. mrun2. rewrite Hpg. mrun2.
    unfold accepted in Hs. apply negb_true_iff in Hs.
    assert ((if r_int s =? 0 then 0 else if r_int s =? -1 then 2 else 0) = 0) as ->.
    { rewrite Hs. now destruct (r_int s =? 0). }
    cbn [Z.eqb].
    eapply runs_weaken; [eapply (IH sends fuel _ after_file after_pg)|]; simpl_world;
      try eassumption; try reflexivity; try lia.
    intros error w' (He & Ht & Hs' & Hf & Hcu & Hco & Her). simpl_world.
    repeat split; auto.
    + rewrite Ht. simpl. now rewrite <- app_assoc.
    + rewrite Hf. f_equal. simpl. now rewrite <- app_assoc.
Qed.

Lemma copy_in_v3_runs (cfg : build) (w : world) (chunks : list string)
  (sends : list reply) (stop : reply) (after_file : list pyresult)
  (after_pg : list reply) (st : ConnStatusType) (e : string) :
  has_attr "read" (w_file w) = true ->
  file_script (w_file w) =
    (map (fun c => Returns (PyString c)) chunks
     ++ Returns (PyString "") :: after_file)%list ->
  forallb chunk_ok chunks = true ->
  w_pg w = Some (mkPGconn st e (sends ++ stop :: after_pg)) ->
  List.length sends = List.length chunks ->
  forallb accepted sends = true ->
  accepted stop = true ->
  runs (_pq_copy_in_v3 cfg) w (fun ret w' =>
    ret = 1 /\
    w_trace w' =
      (w_trace w ++ map Call_PQputCopyData chunks ++ [Call_PQputCopyEnd None]
       ++ clear_trace (pgres (w_curs w)) ++ drain_trace (queued after_pg))%list /\
    pgres (w_curs w') = None /\
    session_script w' = after_queued after_pg /\
    file_calls (w_file w') =
      (file_calls (w_file w)
       ++ repeat (Py_read (copysize (w_curs w))) (S (List.length chunks)))%list /\
    (existsb is_fatal (queued after_pg) = true -> raised w') /\
    (existsb is_fatal (queued after_pg) = false -> w_err w' = w_err w)).
Proof.
  intros Hattr Hfile Hok Hpg Hlen Hacc Hstop.
  unfold _pq_copy_in_v3. mrun2. rewrite Hattr. mrun2.
  eapply runs_weaken.
  { apply (copy_in_v3_loop_sends (copysize (w_curs w)) chunks sends
             (S (pending_file w)) w after_file (stop :: after_pg) st e);
      auto.
    unfold pending_file. rewrite Hfile, length_app, length_map. simpl. lia. }
  intros error w1 (-> & Ht & Hs & Hf & Hcu & Hco & Her).
  cbn [Z.eqb]. mrun2.
  destruct (session_script_cases w1) as [[_ Hnil]|(st1 & e1 & Hpg1)];
    [congruence|].
  rewrite Hpg1, Hs. mrun2.
  unfold accepted in Hstop. apply negb_true_iff in Hstop.
  rewrite Hcu.
  apply runs_weaken with (Q := fun _ w2 =>
    w_trace w2 = (w_trace w ++ map Call_PQputCopyData chunks
                  ++ [Call_PQputCopyEnd None] ++ clear_trace (pgres (w_curs w)))%list /\
    w_curs w2 = set_pgres None (w_curs w) /\
    session_script w2 = after_pg /\
    w_file w2 = w_file w1 /\ w_err w2 = w_err w /\ w_conn w2 = w_conn w).
  { destruct (pgres (w_curs w)) as [r0|] eqn:Hr0; mrun2; rewrite ?Ht, ?Hcu.
    - repeat split; auto.
      now rewrite <- !app_assoc.
    - repeat split; auto.
      + now rewrite <- !app_assoc.
      + destruct (w_curs w); simpl in *; now subst. }
  intros ? w2 (Ht2 & Hcu2 & Hs2 & Hf2 & Her2 & Hco2).
  rewrite Hstop. mrun2.
  eapply runs_weaken; [apply grab_results_drains|].
  intros ? w3 [Dt Dp Dr Dra Dq Dc Df]. rewrite Hs2 in *. mrun2.
  repeat split; auto.
  - rewrite Dt, Ht2. now rewrite <- !app_assoc.
  - now rewrite Dp.
  - now rewrite Df, Hf2, Hf.
  - intros H. rewrite (Dq H). exact Her2.
Qed.

Lemma copy_out_v3_loop_forwards :
  forall (rows : list string) (frames : list reply) (fuel : nat) (w : world)
         (stop : reply) (after : list reply) (code : Z)
         (st : ConnStatusType) (e : string),
    map r_copy frames = map CopyRow rows ->
    forallb nonempty rows = true ->
    calls_return (List.length rows) (w_file w) = true ->
    w_pg w = Some (mkPGconn st e (frames ++ stop :: after)) ->
    end_code (r_copy stop) = Some code ->
    (List.length rows < fuel)%nat ->
    runs (copy_out_v3_loop fuel) w (fun len w' =>
      len = Some code /\
      w_trace w' =
        (w_trace w ++ repeat Call_PQgetCopyData (S (List.length rows)))%list /\
      session_script w' = after /\
      file_calls (w_file w') = (file_calls (w_file w) ++ map Py_write rows)%list /\
      w_curs w' = w_curs w /\ w_conn w' = w_conn w /\ w_err w' = w_err w).
Proof.
  induction rows as [|d rows IH];
    intros frames fuel w stop after code st e Hframes Hrows Hcalls Hpg Hend Hfuel;
    (destruct fuel as [|fuel]; [simpl in Hfuel; lia|]); simpl copy_out_v3_loop.
  - destruct frames; [|discriminate Hframes]. simpl in Hpg.
    mrun2. rewrite Hpg. mrun2.
    assert (Hlen : exists buffer,
               match r_copy stop with
               | CopyRow data => (strlen data, Some data)
               | CopyWouldBlock => (0, None)
               | CopyDone => (-1, None)
               | CopyError => (-2, None)
               end = (code, buffer) /\ code <= 0).
    { unfold end_code in Hend. destruct (r_copy stop) as [data| | |].
      - destruct (Z.eqb_spec (strlen data) 0) as [E|]; [|discriminate].
        injection Hend as <-. rewrite E. eexists; split; [reflexivity|lia].
      - injection Hend as <-. eexists; split; [reflexivity|lia].
      - injection Hend as <-. eexists; split; [reflexivity|lia].
      - injection Hend as <-. eexists; split; [reflexivity|lia]. }
    destruct Hlen as (buffer & -> & Hle).
    assert ((code >? 0) = false) as ->
      by (destruct (Z.gtb_spec code 0); [lia|reflexivity]).
    assert ((code <=? 0) = true) as -> by (apply Z.leb_le; exact Hle).
    mrun2. repeat split; auto using app_nil_r.
  - destruct frames as [|f frames]; [discriminate Hframes|].
    simpl in Hframes, Hpg, Hrows. injection Hframes as Hf Hframes.
    apply andb_true_iff in Hrows as [Hd Hrows].
    unfold nonempty in Hd. apply negb_true_iff in Hd. apply Z.eqb_neq in Hd.
    mrun2. rewrite Hpg. mrun2. rewrite Hf.
    assert ((strlen d >? 0) = true) as ->.
    { unfold strlen in *. apply Z.gtb_lt. lia. }
    mrun2.
    unfold calls_return in Hcalls.
    destruct (file_script (w_file w)) as [|[o|ex] script] eqn:Hscript;
      simpl in Hcalls; try discriminate Hcalls; mrun2.
    all: eapply runs_weaken;
      [eapply (IH frames fuel _ stop after code); simpl_world;
       try eassumption; try reflexivity; try lia;
       unfold calls_return; simpl_world; try exact Hcalls;
       now destruct (List.length rows)|].
    all: intros len w' (Hl & Ht & Hs & Hc & Hcu & Hco & Her); simpl_world.
    all: repeat split; auto.
    all: try (rewrite Ht; simpl; now rewrite <- app_assoc).
    all: rewrite Hc; simpl; now rewrite <- app_assoc.
Qed.

Lemma copy_out_v3_runs (cfg : build) (w : world) (rows : list string)
  (frames : list reply) (stop : reply) (after : list reply) (code : Z)
  (st : ConnStatusType) (e : string) :
  has_attr "write" (w_file w) = true ->
  calls_return (List.length rows) (w_file w) = true ->
  w_pg w = Some (mkPGconn st e (frames ++ stop :: after)) ->
  map r_copy frames = map CopyRow rows ->
  forallb nonempty rows = true ->
  end_code (r_copy stop) = Some code ->
  runs (_pq_copy_out_v3 cfg) w (fun ret w' =>
    file_calls (w_file w') = (file_calls (w_file w) ++ map Py_write rows)%list /\
    (code = -2 ->
       ret = -1 /\ raised w' /\
       w_trace w' =
         (w_trace w ++ repeat Call_PQgetCopyData (S (List.length rows)))%list) /\
    (code <> -2 ->
       ret = 1 /\
       w_trace w' =
         (w_trace w ++ repeat Call_PQgetCopyData (S (List.length rows))
          ++ clear_trace (pgres (w_curs w)) ++ drain_trace (queued after))%list /\
       pgres (w_curs w') = None /\
       session_script w' = after_queued after /\
       (existsb is_fatal (queued after) = true -> raised w') /\
       (existsb is_fatal (queued after) = false -> w_err w' = w_err w))).
Proof.
  intros Hattr Hcalls Hpg Hframes Hrows Hend.
  unfold _pq_copy_out_v3. mrun2. rewrite Hattr. mrun2.
  eapply runs_weaken.
  { apply (copy_out_v3_loop_forwards rows frames (S (pending_replies w)) w
             stop after code st e); auto.
    unfold pending_replies. rewrite Hpg. simpl_world.
    rewrite length_app. apply (f_equal (@List.length _)) in Hframes.
    rewrite !length_map in Hframes. simpl. lia. }
  intros len w1 (-> & Ht & Hs & Hc & Hcu & Hco & Her).
  destruct (Z.eqb_spec code (-2)) as [->|Hcode].
  - mrun2. eapply runs_weaken; [apply pq_raise_runs|].
    intros ? w2 (ex & Hex & ->). mrun2.
    destruct (flag_bad_rest w1) as (? & ? & Hfile & ? & ? & ? & Htrace).
    rewrite Hfile, Htrace. repeat split; auto; try contradiction.
    exists ex; auto.
  - apply runs_bind.
    apply runs_weaken with (Q := fun _ w2 =>
      w_trace w2 = (w_trace w ++ repeat Call_PQgetCopyData (S (List.length rows))
                    ++ clear_trace (pgres (w_curs w)))%list /\
      w_curs w2 = set_pgres None (w_curs w) /\
      session_script w2 = after /\
      w_file w2 = w_file w1 /\ w_err w2 = w_err w).
    { mrun2. rewrite Hcu.
      destruct (pgres (w_curs w)) as [r0|] eqn:Hr0; mrun2; rewrite ?Ht, ?Hcu.
      - repeat split; auto. now rewrite <- !app_assoc.
      - repeat split; auto.
        + now rewrite app_nil_r.
        + destruct (w_curs w); simpl in *; now subst. }
    intros ? w2 (Ht2 & Hcu2 & Hs2 & Hf2 & Her2).
    mrun2.
    eapply runs_weaken; [apply grab_results_drains|].
    intros ? w3 [Dt Dp Dr Dra Dq Dc Df]. rewrite Hs2 in *. mrun2.
    split; [now rewrite Df, Hf2|].
    split; [intros; contradiction|]. intros _.
    repeat split; auto.
    + rewrite Dt, Ht2. now rewrite <- !app_assoc.
    + now rewrite Dp.
    + intros H. rewrite (Dq H). exact Her2.
Qed.

(** ** Every COPY function returns *)


#[local] Hint Resolve safe_grab_results : safe.

Lemma safe_PyObject_GetAttrString name : safe (PyObject_GetAttrString name).
Proof.
  unfold PyObject_GetAttrString. apply safe_bind; [auto with safe|intros f].
  destruct (has_attr name f); auto with safe.
Qed.

Lemma call_file_pops (c : pycall) (w : world) :
  runs (call_file c) w (fun o w' =>
    frame w w' /\
    (forall data, o = Some (PyString data) -> strlen data <> 0 ->
                  (pending_file w' < pending_file w)%nat)).
Proof.
  unfold call_file. mrun2.
  destruct (file_script (w_file w)) as [|[o|ex] rest] eqn:Hs; mrun2.
  all: split; [split; unfold pending_file; simpl_world; rewrite ?Hs; simpl; auto|].
  all: intros data H Hlen; try discriminate H.
  - injection H as <-. now contradiction Hlen.
  - unfold pending_file; simpl_world; rewrite Hs; simpl; lia.
Qed.

Lemma safe_call_file c : safe (call_file c).
Proof. intros w. eapply runs_weaken; [apply call_file_pops|]. now intros ? ? [? _]. Qed.

#[local] Hint Resolve safe_PyObject_GetAttrString safe_call_file : safe.

Lemma PQgetCopyData_pops (w : world) :
  runs PQgetCopyData w (fun out w' =>
    frame w w' /\
    (0 < fst out -> (pending_replies w' < pending_replies w)%nat)).
Proof.
  unfold PQgetCopyData. mrun2.
  destruct (session_script_cases w) as [[Hpg _]|(st & e & Hpg)]; rewrite Hpg; mrun2.
  - split; [split; auto|]. simpl; lia.
  - unfold pending_replies. rewrite Hpg. simpl_world.
    destruct (session_script w) as [|r rest]; mrun2.
    + split; [split; unfold pending_replies; simpl_world; rewrite ?Hpg; auto|].
      simpl; lia.
    + split; [split; unfold pending_replies; simpl_world; rewrite ?Hpg; simpl; auto|].
      intros _; simpl; lia.
Qed.

Lemma PQgetline_pops (w : world) :
  runs PQgetline w (fun out w' =>
    frame w w' /\
    (fst out = 0 \/ fst out = 1 -> (pending_replies w' < pending_replies w)%nat)).
Proof.
  unfold PQgetline. mrun2.
  destruct (session_script_cases w) as [[Hpg _]|(st & e & Hpg)]; rewrite Hpg; mrun2.
  - split; [split; auto|]. simpl; lia.
  - unfold pending_replies. rewrite Hpg. simpl_world.
    destruct (session_script w) as [|r rest]; mrun2.
    + split; [split; unfold pending_replies; simpl_world; rewrite ?Hpg; auto|].
      simpl; lia.
    + split; [split; unfold pending_replies; simpl_world; rewrite ?Hpg; simpl; auto|].
      intros _; simpl; lia.
Qed.

Lemma copy_in_v3_loop_safe (size : Z) (fuel : nat) :
  forall w, (pending_file w < fuel)%nat ->
  runs (copy_in_v3_loop fuel size) w (fun _ w' => frame w w').
Proof.
  induction fuel as [|fuel IH]; intros w Hfuel; [lia|].
  simpl copy_in_v3_loop.
  mstep call_file_pops. intros o w1 [F1 Hpop].
  destruct o as [[data|]|]; try (apply runs_ret; exact F1).
  destruct (Z.eqb_spec (strlen data) 0) as [E|E]; cbn [orb];
    [apply runs_ret; exact F1|].
  destruct (strlen data >? INT_MAX); [apply runs_ret; exact F1|].
  mstep safe_PQputCopyData. intros res w2 F2.
  destruct ((if res =? 0 then 0 else if res =? -1 then 2 else 0) =? 2);
    [apply runs_ret; exact (frame_trans _ _ _ F1 F2)|].
  eapply runs_weaken; [apply IH|].
  - pose proof (frame_file _ _ F2). specialize (Hpop data eq_refl E). lia.
  - intros ? w3 F3. exact (frame_trans _ _ _ F1 (frame_trans _ _ _ F2 F3)).
Qed.

Lemma copy_in_loop_safe (fuel : nat) :
  forall w, (pending_file w < fuel)%nat ->
  runs (copy_in_loop fuel) w (fun _ w' => frame w w').
Proof.
  induction fuel as [|fuel IH]; intros w Hfuel; [lia|].
  simpl copy_in_loop.
  mstep call_file_pops. intros o w1 [F1 Hpop].
  destruct o as [[line|]|]; try (apply runs_ret; exact F1).
  destruct (Z.eqb_spec (strlen line) 0) as [E|E]; [apply runs_ret; exact F1|].
  mstep safe_PQputline. intros rv w2 F2.
  destruct (negb (rv =? 0)); [apply runs_ret; exact (frame_trans _ _ _ F1 F2)|].
  eapply runs_weaken; [apply IH|].
  - pose proof (frame_file _ _ F2). specialize (Hpop line eq_refl E). lia.
  - intros ? w3 F3. exact (frame_trans _ _ _ F1 (frame_trans _ _ _ F2 F3)).
Qed.

Lemma copy_out_v3_loop_safe (fuel : nat) :
  forall w, (pending_replies w < fuel)%nat ->
  runs (copy_out_v3_loop fuel) w (fun _ w' => frame w w').
Proof.
  induction fuel as [|fuel IH]; intros w Hfuel; [lia|].
  simpl copy_out_v3_loop.
  mstep PQgetCopyData_pops. intros [len buffer] w1 [F1 Hpop]. cbn [fst] in Hpop.
  destruct (Z.gtb_spec len 0) as [Hpos|Hneg].
  - destruct buffer as [data|].
    + mstep safe_call_file. intros tmp w2 F2.
      destruct tmp; [|apply runs_ret; exact (frame_trans _ _ _ F1 F2)].
      eapply runs_weaken; [apply IH|].
      * pose proof (frame_replies _ _ F2). specialize (Hpop Hpos). lia.
      * intros ? w3 F3. exact (frame_trans _ _ _ F1 (frame_trans _ _ _ F2 F3)).
    + assert ((len <=? 0) = false) as -> by (apply Z.leb_gt; exact Hpos).
      eapply runs_weaken; [apply IH|].
      * specialize (Hpop Hpos). lia.
      * intros ? w3 F3. exact (frame_trans _ _ _ F1 F3).
  - assert ((len <=? 0) = true) as -> by (apply Z.leb_le; exact Hneg).
    apply runs_ret; exact F1.
Qed.

Lemma copy_out_loop_safe (fuel : nat) :
  forall w ll, (pending_replies w < fuel)%nat ->
  runs (copy_out_loop fuel ll) w (fun _ w' => frame w w').
Proof.
  induction fuel as [|fuel IH]; intros w ll Hfuel; [lia|].
  simpl copy_out_loop.
  mstep PQgetline_pops. intros [status buffer] w1 [F1 Hpop]. cbn [fst] in Hpop.
  destruct (Z.eqb_spec status 0) as [E0|N0].
  - destruct (negb ll && _ && _); [apply runs_ret; exact F1|].
    mstep safe_call_file. intros tmp w2 F2.
    destruct tmp; [|apply runs_ret; exact (frame_trans _ _ _ F1 F2)].
    eapply runs_weaken; [apply IH|].
    + pose proof (frame_replies _ _ F2). specialize (Hpop (or_introl E0)). lia.
    + intros ? w3 F3. exact (frame_trans _ _ _ F1 (frame_trans _ _ _ F2 F3)).
  - destruct (Z.eqb_spec status 1) as [E1|N1]; [|apply runs_ret; exact F1].
    mstep safe_call_file. intros tmp w2 F2.
    destruct tmp; [|apply runs_ret; exact (frame_trans _ _ _ F1 F2)].
    eapply runs_weaken; [apply IH|].
    + pose proof (frame_replies _ _ F2). specialize (Hpop (or_intror E1)). lia.
    + intros ? w3 F3. exact (frame_trans _ _ _ F1 (frame_trans _ _ _ F2 F3)).
Qed.

Lemma safe_fueled {A} (loop : nat -> M A) (measure : world -> nat) :
  (forall fuel w, (measure w < fuel)%nat -> runs (loop fuel) w (fun _ w' => frame w w')) ->
  safe (fun w => loop (S (measure w)) w).
Proof. intros H w. apply H. lia. Qed.

Lemma safe_copy_in_v3 cfg : safe (_pq_copy_in_v3 cfg).
Proof.
  unfold _pq_copy_in_v3.
  apply safe_bind; [auto with safe|intros func].
  destruct func; cbn [negb]; [|auto with safe].
  apply safe_bind; [auto with safe|intros size].
  apply safe_bind.
  { apply (safe_fueled (fun fuel => copy_in_v3_loop fuel size) pending_file).
    intros; now apply copy_in_v3_loop_safe. }
  intros error.
  apply safe_bind; [auto 6 with safe|intros res].
  apply safe_bind; [auto with safe|intros _].
  apply safe_bind; [|auto with safe].
  destruct (res =? -1); auto 6 with safe.
Qed.

Lemma safe_copy_in cfg : safe (_pq_copy_in cfg).
Proof.
  unfold _pq_copy_in.
  apply safe_bind; [auto with safe|intros func].
  destruct func; cbn [negb]; [|auto with safe].
  apply safe_bind.
  { apply (safe_fueled copy_in_loop pending_file). intros; now apply copy_in_loop_safe. }
  intros [|]; cbn [negb]; auto 8 with safe.
Qed.

Lemma safe_copy_out_v3 cfg : safe (_pq_copy_out_v3 cfg).
Proof.
  unfold _pq_copy_out_v3.
  apply safe_bind; [auto with safe|intros func].
  destruct func; cbn [negb]; [|auto with safe].
  apply safe_bind.
  { apply (safe_fueled copy_out_v3_loop pending_replies).
    intros; now apply copy_out_v3_loop_safe. }
  intros [len|]; [|auto with safe].
  destruct (len =? -2); auto 8 with safe.
Qed.

Lemma safe_copy_out cfg : safe (_pq_copy_out cfg).
Proof.
  unfold _pq_copy_out.
  apply safe_bind; [auto with safe|intros func].
  destruct func; cbn [negb]; [|auto with safe].
  apply safe_bind.
  { apply (safe_fueled (fun fuel => copy_out_loop fuel false) pending_replies).
    intros; now apply copy_out_loop_safe. }
  intros [status|[]]; auto 8 with safe.
Qed.

#[local] Hint Resolve safe_copy_in_v3 safe_copy_in safe_copy_out_v3
  safe_copy_out : safe.

(** ** pq_fetch and pq_execute *)


(** After a COPY, [pq_fetch] turns a pending exception into -1. *)
Lemma pq_fetch_copy_tail (copy : M Z) (w : world) :
  safe copy ->
  critical (w_conn w) = None ->
  runs copy w (fun ex w1 =>
    runs (upd_curs (set_rowcount (-1));;
          occurred <- PyErr_Occurred;;
          IFCLEARPGRES_curs;;
          ret (if occurred then -1 else ex))%monad w1
      (fun ex w' =>
         critical (w_conn w') = None /\ (ex = -1 \/ w_err w' = None))).
Proof.
  intros Hsafe Hcrit.
  eapply runs_weaken; [apply Hsafe|]. intros ex w1 F1. mrun2.
  assert (Hc1 : critical (w_conn w1) = None) by (now rewrite (frame_critical _ _ F1)).
  destruct (pgres (w_curs w1)) as [r|]; mrun2; (split; [exact Hc1|]).
  all: destruct (w_err w1); auto.
Qed.

Lemma pq_fetch_runs (cfg : build) (w : world) :
  critical (w_conn w) = None ->
  runs (pq_fetch cfg) w (fun ex w' =>
    critical (w_conn w') = None /\
    (w_err w = None -> ex = -1 \/ w_err w' = None)).
Proof.
  intros Hcrit.
  unfold pq_fetch, curs_reset. mrun2.
  destruct (pgres (w_curs w)) as [r|] eqn:Hres; mrun2; [|auto].
  apply runs_weaken with (Q := fun ex w' =>
    critical (w_conn w') = None /\
    (w_err w = None -> ex = -1 \/ w_err w' = None)).
  2:{ intros ex w1 [Hc He]. mrun2. rewrite Hc. mrun2. auto. }
  unfold PQresultStatus.
  destruct (resultStatus r); mrun2.
  all: try (eapply runs_weaken; [apply safe_pq_raise|]; intros ? w1 F1; mrun2;
            pose proof (frame_critical _ _ F1) as Hc1; simpl_world;
            destruct (pgres (w_curs w1)); mrun2; split; auto; congruence).
  - unfold CLEARPGRES_curs. mrun2. rewrite Hres. mrun2. auto.
  - unfold _pq_fetch_tuples. mrun2. auto.
  - eapply runs_weaken; [apply pq_fetch_copy_tail; simpl_world; auto with safe|].
    cbv beta. intros ex w1 Hrun. eapply runs_weaken; [exact Hrun|].
    cbv beta. intros ? ? [? ?]; auto.
  - eapply runs_weaken; [apply pq_fetch_copy_tail; simpl_world; auto with safe|].
    cbv beta. intros ex w1 Hrun. eapply runs_weaken; [exact Hrun|].
    cbv beta. intros ? ? [? ?]; auto.
Qed.


Lemma exec_runs (query : string) (w : world) :
  runs (if negb (w_green w) then PQexec query else psyco_exec_green query) w
    (fun res w' =>
       w_conn w' = w_conn w /\ w_curs w' = w_curs w /\
       (res <> None -> w_err w' = w_err w)).
Proof.
  unfold PQexec, psyco_exec_green.
  destruct (w_green w); cbn [negb]; mrun2;
    (destruct (session_script_cases w) as [[Hpg _]|(st & e & Hpg)]; rewrite Hpg; mrun2;
     [auto|]);
    (destruct (session_script w) as [|r rest]; mrun2; [auto|]); auto.
  destruct (r_wait r); mrun2; auto.
  repeat split; auto. intros H; now contradiction H.
Qed.

Lemma silent_PQsendQuery query : silent (PQsendQuery query).
Proof.
  intros w. unfold PQsendQuery. mrun2.
  destruct (session_script_cases w) as [[Hpg _]|(st & e & Hpg)]; rewrite Hpg; mrun2;
    [auto|].
  destruct (session_script w); mrun2; auto.
Qed.

Lemma silent_PQflush : silent PQflush.
Proof.
  intros w. unfold PQflush. mrun2.
  destruct (session_script_cases w) as [[Hpg _]|(st & e & Hpg)]; rewrite Hpg; mrun2;
    [auto|].
  destruct (session_script w); mrun2; auto.
Qed.

Lemma pq_execute_submit_runs (query : string) (async : Z) (w : world) :
  runs (pq_execute_submit query async) w (fun out w' =>
    critical (w_conn w') = critical (w_conn w) /\
    match out with
    | inl v => v = -1
    | inr _ => w_err w' = w_err w
    end).
Proof.
  unfold pq_execute_submit.
  destruct (async =? 0).
  - apply runs_bind.
    apply runs_weaken with (Q := fun _ w1 =>
      w_conn w1 = w_conn w /\ w_err w1 = w_err w /\ w_green w1 = w_green w).
    { mrun2. destruct (pgres (w_curs w)); mrun2; auto. }
    intros ? w1 (Hc1 & He1 & Hg1). mrun2.
    eapply runs_weaken; [apply exec_runs|].
    intros res w2 (Hc2 & _ & He2). mrun2.
    destruct res as [r|]; mrun2.
    + rewrite Hc2, Hc1. split; [reflexivity|]. rewrite He2, He1; congruence.
    + destruct (w_err w2); mrun2.
      * split; congruence.
      * destruct (w_pg w2); mrun2; split; congruence.
  - destruct (async =? 1); [|mrun2; auto].
    apply runs_bind.
    apply runs_weaken with (Q := fun _ w1 =>
      w_conn w1 = w_conn w /\ w_err w1 = w_err w).
    { mrun2. destruct (pgres (w_curs w)); mrun2; auto. }
    intros ? w1 (Hc1 & He1).
    mstep silent_PQsendQuery. intros sent w2 (Hc2 & _ & He2).
    destruct (sent =? 0).
    + mrun2. destruct (w_pg w2); mrun2; split; congruence.
    + mstep silent_PQflush. intros flushed w3 (Hc3 & _ & He3).
      assert (critical (w_conn w3) = critical (w_conn w)) by congruence.
      assert (w_err w3 = w_err w) by congruence.
      destruct (flushed =? 0); [mrun2; auto|].
      destruct (flushed =? 1); mrun2; auto.
Qed.


(** ** The claims on COPY *)

(** C5.  In [_pq_copy_in_v3], when the file object has a [read] method
    whose successive calls return the chunks (each non-empty) and then the
    empty string, and the backend takes each chunk and the end of the copy,
    the function returns 1 having sent exactly one [PQputCopyData] per chunk,
    in order, then [PQputCopyEnd] with a null error message, then released
    the result the cursor held and taken and released every queued result
    up to the NULL that ends them; no result stays with the cursor; an
    exception of the DB-API family is raised when a queued result is fatal,
    and none is raised otherwise.  For the chunks "abc", "def": two data
    chunks, then the terminator. *)
Theorem copy_in_v3_sends_chunks (cfg : build) (w : world)
  (chunks : list string) (sends : list reply) (stop : reply)
  (after_file : list pyresult) (after_pg : list reply)
  (st : ConnStatusType) (e : string) :
  has_attr "read" (w_file w) = true ->
  file_script (w_file w) =
    (map (fun c => Returns (PyString c)) chunks
     ++ Returns (PyString "") :: after_file)%list ->
  forallb chunk_ok chunks = true ->
  w_pg w = Some (mkPGconn st e (sends ++ stop :: after_pg)) ->
  List.length sends = List.length chunks ->
  forallb accepted sends = true ->
  accepted stop = true ->
  exists w',
    _pq_copy_in_v3 cfg w = Some (1, w') /\
    w_trace w' =
      (w_trace w ++ map Call_PQputCopyData chunks ++ [Call_PQputCopyEnd None]
       ++ clear_trace (pgres (w_curs w)) ++ drain_trace (queued after_pg))%list /\
    pgres (w_curs w') = None /\
    session_script w' = after_queued after_pg /\
    (existsb is_fatal (queued after_pg) = true -> raised w') /\
    (existsb is_fatal (queued after_pg) = false -> w_err w' = w_err w).
Proof.
  intros Hattr Hfile Hok Hpg Hlen Hacc Hstop.
  destruct (copy_in_v3_runs cfg w chunks sends stop after_file after_pg st e
              Hattr Hfile Hok Hpg Hlen Hacc Hstop)
    as (ret & w' & Hrun & -> & Ht & Hp & Hs & _ & Hraised & Hquiet).
  exists w'. repeat split; assumption.
Qed.

Lemma copy_in_v3_sends_chunks_witness :
  exists w',
    _pq_copy_in_v3 Scenario.cfg Scenario.w_copy_in = Some (1, w') /\
    w_trace w' =
      [ Call_PQputCopyData "abc"; Call_PQputCopyData "def";
        Call_PQputCopyEnd None;
        Call_PQclear (Scenario.copy_result PGRES_COPY_IN);
        Call_PQgetResult; Call_PQclear (Scenario.command_ok None);
        Call_PQgetResult ] /\
    pgres (w_curs w') = None /\
    session_script w' = [] /\
    w_err w' = None.
Proof.
  destruct (copy_in_v3_sends_chunks Scenario.cfg Scenario.w_copy_in
              ["abc"; "def"]
              [Scenario.answer_int 1; Scenario.answer_int 1]
              (Scenario.answer_int 1) []
              [Scenario.answer (Some (Scenario.command_ok None));
               Scenario.answer None]
              CONNECTION_OK "")
    as (w' & Hrun & Ht & Hp & Hs & _ & Hquiet);
    try reflexivity.
  exists w'. repeat split; try assumption.
  apply Hquiet. reflexivity.
Defined.

(** C6.  In [_pq_copy_out_v3], when the file object has a [write] method
    that accepts every call, and the backend delivers the rows (each
    non-empty) and then a frame that ends the loop, every row is written to
    the file once, in the order received, and nothing else is.  When the
    ending frame has length -2 the function returns -1 with an exception of
    the DB-API family raised, and no result is taken.  Otherwise it returns 1
    having released the result the cursor held and taken and released every
    queued result up to the NULL that ends them, raising on a fatal one. *)
Theorem copy_out_v3_forwards_rows (cfg : build) (w : world)
  (rows : list string) (frames : list reply) (stop : reply)
  (after : list reply) (code : Z) (st : ConnStatusType) (e : string) :
  has_attr "write" (w_file w) = true ->
  calls_return (List.length rows) (w_file w) = true ->
  w_pg w = Some (mkPGconn st e (frames ++ stop :: after)) ->
  map r_copy frames = map CopyRow rows ->
  forallb nonempty rows = true ->
  end_code (r_copy stop) = Some code ->
  exists ret w',
    _pq_copy_out_v3 cfg w = Some (ret, w') /\
    file_calls (w_file w') = (file_calls (w_file w) ++ map Py_write rows)%list /\
    (code = -2 ->
       ret = -1 /\ raised w' /\
       w_trace w' =
         (w_trace w ++ repeat Call_PQgetCopyData (S (List.length rows)))%list) /\
    (code <> -2 ->
       ret = 1 /\
       w_trace w' =
         (w_trace w ++ repeat Call_PQgetCopyData (S (List.length rows))
          ++ clear_trace (pgres (w_curs w)) ++ drain_trace (queued after))%list /\
       pgres (w_curs w') = None /\
       session_script w' = after_queued after /\
       (existsb is_fatal (queued after) = true -> raised w') /\
       (existsb is_fatal (queued after) = false -> w_err w' = w_err w)).
Proof.
  intros Hattr Hcalls Hpg Hframes Hrows Hend.
  exact (copy_out_v3_runs cfg w rows frames stop after code st e
           Hattr Hcalls Hpg Hframes Hrows Hend).
Qed.

Lemma copy_out_v3_forwards_rows_witness :
  (exists w',
      _pq_copy_out_v3 Scenario.cfg Scenario.w_copy_out = Some (1, w') /\
      file_calls (w_file w') =
        [Py_write "1,one"; Py_write "2,two"; Py_write "3,three"] /\
      w_trace w' =
        [ Call_PQgetCopyData; Call_PQgetCopyData; Call_PQgetCopyData;
          Call_PQgetCopyData;
          Call_PQclear (Scenario.copy_result PGRES_COPY_OUT);
          Call_PQgetResult; Call_PQclear (Scenario.command_ok None);
          Call_PQgetResult ] /\
      pgres (w_curs w') = None /\
      w_err w' = None) /\
  (exists w',
      _pq_copy_out_v3 Scenario.cfg Scenario.w_copy_out_broken = Some (-1, w') /\
      file_calls (w_file w') = [Py_write "1,one"] /\
      raised w' /\
      w_trace w' = [Call_PQgetCopyData; Call_PQgetCopyData]).
Proof.
  split.
  - destruct (copy_out_v3_forwards_rows Scenario.cfg Scenario.w_copy_out
                ["1,one"; "2,two"; "3,three"]
                [Scenario.answer_copy (CopyRow "1,one");
                 Scenario.answer_copy (CopyRow "2,two");
                 Scenario.answer_copy (CopyRow "3,three")]
                (Scenario.answer_copy CopyDone)
                [Scenario.answer (Some (Scenario.command_ok None));
                 Scenario.answer None]
                (-1) CONNECTION_OK "")
      as (ret & w' & Hrun & Hcalls & _ & Hdone);
      try reflexivity.
    destruct Hdone as (-> & Ht & Hp & _ & _ & Hquiet); [lia|].
    exists w'. repeat split; try assumption.
    apply Hquiet. reflexivity.
  - destruct (copy_out_v3_forwards_rows Scenario.cfg Scenario.w_copy_out_broken
                ["1,one"]
                [Scenario.answer_copy (CopyRow "1,one")]
                (Scenario.answer_copy CopyError) [] (-2) CONNECTION_OK "")
      as (ret & w' & Hrun & Hcalls & Herror & _);
      try reflexivity.
    destruct Herror as (-> & Hraised & Ht); [reflexivity|].
    exists w'. repeat split; assumption.
Defined.

(** ** Runs of pq_execute *)

(** The three outcomes, on concrete runs: a synchronous command returns 1
    and leaves the row count, an asynchronous submission returns 0 and
    registers the cursor, a poisoned connection returns -1 and is closed. *)
Example pq_execute_sync_returns_1 :
  exists w',
    pq_execute Scenario.cfg "INSERT INTO t VALUES (1), (2), (3)" 0
      Scenario.w_insert = Some (1, w') /\
    rowcount (w_curs w') = 3 /\
    status (w_conn w') = CONN_STATUS_BEGIN /\
    w_err w' = None.
Proof. eexists. split; [vm_compute; reflexivity|]. repeat split. Qed.

Example pq_execute_async_returns_0 :
  exists w',
    pq_execute Scenario.cfg "SELECT pg_sleep(1)" 1 Scenario.w_submit
      = Some (0, w') /\
    async_status (w_conn w') = ASYNC_READ /\
    async_cursor (w_conn w') = true /\
    w_err w' = None.
Proof. eexists. split; [vm_compute; reflexivity|]. repeat split. Qed.

Example pq_execute_critical_fails :
  exists w',
    pq_execute Scenario.cfg "SELECT 1" 0 Scenario.w_critical = Some (-1, w') /\
    closed (w_conn w') = 1 /\
    critical (w_conn w') = None /\
    w_pg w' = None /\
    w_err w' =
      Some (mkException OperationalError " terminating connection"
              None None false).
Proof. eexists. split; [vm_compute; reflexivity|]. repeat split. Qed.

(** * Further properties *)

(** ** Commands on a locked connection *)

Lemma next_command_ok_result (w : world) :
  next_command_ok w = is_command_ok (command_result w).
Proof.
  unfold next_command_ok, command_result, next_answer, session_script,
    reply_outcome, is_command_ok.
  destruct (w_pg w) as [[st e [|r rest]]|]; cbn; try reflexivity.
  destruct (r_result r), (w_green w), (r_wait r); cbn;
    rewrite ?andb_true_r, ?andb_false_r; reflexivity.
Qed.

Lemma pq_execute_command_locked_exact (query : string) (w : world) :
  runs (pq_execute_command_locked query) w (fun out w' =>
    out = match command_result w with
          | Some r =>
              if ExecStatusType_eqb (resultStatus r) PGRES_COMMAND_OK
              then (0, None, None)
              else (-1, Some r, None)
          | None => (-1, None, Some (error_after w))
          end /\
    w_trace w' =
      (w_trace w ++ exec_call (w_green w) query
         :: (if is_command_ok (command_result w)
             then clear_trace (command_result w) else []))%list /\
    session_script w' = tl (session_script w) /\
    w_conn w' = w_conn w /\ w_curs w' = w_curs w /\ w_file w' = w_file w /\
    w_green w' = w_green w /\ w_types w' = w_types w /\
    (command_result w <> None -> w_err w' = w_err w)).
Proof.
  destruct w as [curs conn pg file err green types tr].
  unfold runs, pq_execute_command_locked, command_result, next_answer,
    session_script, reply_outcome, error_after, is_command_ok, exec_call,
    PQresultStatus.
  destruct green, pg as [[st e [|[rs re [res|] ri rc rl [ex|]] rest]]|]; cbn;
    try (destruct (ExecStatusType_eqb (resultStatus res) PGRES_COMMAND_OK); cbn).
  all: eexists _, _; (split; [reflexivity|]); cbn.
  all: repeat split; auto; try congruence.
  all: now rewrite <- app_assoc.
Qed.

Lemma pq_complete_error_exact (cfg : build) (res : option PGresult)
  (error : option string) (w : world) :
  runs (pq_complete_error cfg res error) w (fun _ w' =>
    upto_closed (w_conn w) (w_conn w') /\ raised w' /\
    w_curs w' = w_curs w /\ w_pg w' = w_pg w /\ w_file w' = w_file w /\
    w_green w' = w_green w /\
    w_trace w' = (w_trace w ++ clear_trace res)%list /\
    (res = None ->
     w_conn w' = w_conn w /\
     w_err w' = Some (plain_error OperationalError
                        match error with
                        | Some e => e
                        | None => "unknown error"
                        end))).
Proof.
  unfold pq_complete_error.
  destruct res as [r|].
  - mstep pq_raise_runs. intros ? w1 (e & He & ->).
    unfold IFCLEARPGRES, PQclear.
    apply runs_bind, runs_bind, runs_modify, runs_ret, runs_ret.
    destruct (flag_bad_rest w) as (? & ? & ? & ? & ? & ? & Ht).
    simpl_world. cbn [clear_trace]. rewrite Ht.
    repeat split; auto; try discriminate.
    + apply flag_bad_conn.
    + exists e; auto.
  - apply runs_bind with (m := match error with Some _ => _ | None => _ end).
    apply runs_weaken with
      (Q := fun _ w' =>
              w' = set_err (Some (plain_error OperationalError
                                    match error with
                                    | Some e => e
                                    | None => "unknown error"
                                    end)) w).
    { destruct error; apply runs_modify; reflexivity. }
    intros ? w1 ->.
    apply runs_bind, runs_ret, runs_ret. simpl_world. cbn [clear_trace].
    rewrite app_nil_r.
    repeat split; auto.
    + apply upto_closed_refl.
    + eexists; split; reflexivity.
Qed.

(** What [pq_commit], [pq_abort] and [pq_reset] do once the command has
    run: a failure is turned into an exception. *)
Lemma command_completed (cfg : build) (query : string) (w w1 : world)
  (out : Z * option PGresult * option string) :
  pq_execute_command_locked query w = Some (out, w1) ->
  runs (when (fst (fst out) <? 0)
             (pq_complete_error cfg (snd (fst out)) (snd out))) w1
    (fun _ w' =>
       fst (fst out) = (if next_command_ok w then 0 else -1) /\
       upto_closed (w_conn w) (w_conn w') /\
       w_trace w' =
         (w_trace w ++ exec_call (w_green w) query
            :: clear_trace (command_result w))%list /\
       session_script w' = tl (session_script w) /\
       w_curs w' = w_curs w /\ w_file w' = w_file w /\
       w_green w' = w_green w /\
       (next_command_ok w = true -> w_err w' = w_err w) /\
       (next_command_ok w = false -> raised w') /\
       (command_result w = None ->
        w_err w' = Some (plain_error OperationalError (error_after w)))).
Proof.
  intros Heq.
  pose proof (runs_inv _ _ _ _ _ (pq_execute_command_locked_exact query w) Heq)
    as (Hout & Htr & Hscript & Hconn & Hcurs & Hfile & Hgreen & _ & Herr).
  rewrite next_command_ok_result.
  unfold is_command_ok in *.
  destruct (command_result w) as [r|] eqn:Hres.
  - destruct (ExecStatusType_eqb (resultStatus r) PGRES_COMMAND_OK) eqn:Hok;
      subst out; cbn [fst snd Z.ltb Z.compare when].
    + apply runs_ret. rewrite Hconn. repeat split; auto using upto_closed_refl;
        try discriminate. intros _; apply Herr; discriminate.
    + eapply runs_weaken; [apply pq_complete_error_exact|]. cbv beta.
      intros ? w2 (Hup & Hraised & Hc & Hpg & Hf & Hg & Ht & _).
      rewrite <- Hconn. rewrite Ht, Htr, <- app_assoc. cbn [clear_trace app].
      unfold session_script in *. rewrite Hpg.
      repeat split; auto; try congruence; discriminate.
  - subst out; cbn [fst snd Z.ltb Z.compare when].
    eapply runs_weaken; [apply pq_complete_error_exact|]. cbv beta.
    intros ? w2 (Hup & Hraised & Hc & Hpg & Hf & Hg & Ht & Hnone).
    destruct (Hnone eq_refl) as [_ He].
    rewrite <- Hconn. rewrite Ht, Htr, <- app_assoc. cbn [clear_trace app].
    unfold session_script in *. rewrite Hpg.
    repeat split; auto; try congruence; discriminate.
Qed.

(** ** pq_commit and pq_abort *)

Lemma in_transaction_test (w : world) :
  status (w_conn w) = CONN_STATUS_BEGIN ->
  isolation_level (w_conn w) <> 0 ->
  (isolation_level (w_conn w) =? 0)
  || negb (conn_status_eqb (status (w_conn w)) CONN_STATUS_BEGIN) = false.
Proof.
  intros -> Hlevel. apply Z.eqb_neq in Hlevel. now rewrite Hlevel.
Qed.

Lemma not_in_transaction_test (w : world) :
  isolation_level (w_conn w) = 0 \/ status (w_conn w) <> CONN_STATUS_BEGIN ->
  (isolation_level (w_conn w) =? 0)
  || negb (conn_status_eqb (status (w_conn w)) CONN_STATUS_BEGIN) = true.
Proof.
  intros [->|H]; [reflexivity|].
  apply orb_true_iff; right.
  destruct (conn_status_eqb _ _) eqn:E; [|reflexivity].
  apply conn_status_eqb_eq in E; contradiction.
Qed.

Lemma pq_commit_exact (cfg : build) (w : world) :
  status (w_conn w) = CONN_STATUS_BEGIN ->
  isolation_level (w_conn w) <> 0 ->
  runs (pq_commit cfg) w (fun retvalue w' =>
    retvalue = (if next_command_ok w then 0 else -1) /\
    status (w_conn w') = CONN_STATUS_READY /\
    mark (w_conn w') = mark_incr (mark (w_conn w)) /\
    w_trace w' =
      (w_trace w ++ exec_call (w_green w) "COMMIT"
         :: clear_trace (command_result w))%list /\
    (next_command_ok w = true -> w_err w' = w_err w) /\
    (next_command_ok w = false -> raised w') /\
    (command_result w = None ->
     w_err w' = Some (plain_error OperationalError (error_after w)))).
Proof.
  intros Hst Hlevel.
  unfold pq_commit.
  apply runs_bind, runs_gets. apply runs_bind, runs_gets.
  rewrite (in_transaction_test w Hst Hlevel).
  apply runs_bind, runs_modify. fold (marked w).
  destruct (pq_execute_command_locked_exact "COMMIT" (marked w))
    as (out & w1 & Heq & _).
  apply runs_bind. exists out, w1. split; [exact Heq|].
  pose proof (command_completed cfg _ _ _ _ Heq) as Hdone.
  destruct out as [[rv res] error]. cbn [fst snd] in Hdone.
  unfold conn_notice_process at 1. apply runs_bind, runs_ret.
  apply runs_bind with (m := when _ _).
  eapply runs_weaken; [exact Hdone|]. cbv beta.
  intros ? w2 (Hrv & Hup & Htr & _ & _ & _ & _ & Hok & Hko & Hnone).
  apply upto_closed_fields in Hup as (_ & _ & Hmark & _).
  apply runs_bind, runs_modify, runs_ret. simpl_world.
  repeat split; auto.
Qed.

Lemma pq_abort_exact (cfg : build) (w : world) :
  status (w_conn w) = CONN_STATUS_BEGIN ->
  isolation_level (w_conn w) <> 0 ->
  runs (pq_abort cfg) w (fun retvalue w' =>
    retvalue = (if next_command_ok w then 0 else -1) /\
    status (w_conn w') =
      (if next_command_ok w then CONN_STATUS_READY else CONN_STATUS_BEGIN) /\
    mark (w_conn w') = mark_incr (mark (w_conn w)) /\
    w_trace w' =
      (w_trace w ++ exec_call (w_green w) "ROLLBACK"
         :: clear_trace (command_result w))%list /\
    (next_command_ok w = true -> w_err w' = w_err w) /\
    (next_command_ok w = false -> raised w') /\
    (command_result w = None ->
     w_err w' = Some (plain_error OperationalError (error_after w)))).
Proof.
  intros Hst Hlevel.
  unfold pq_abort.
  apply runs_bind, runs_gets. apply runs_bind, runs_gets.
  rewrite (in_transaction_test w Hst Hlevel).
  unfold pq_abort_locked.
  repeat (apply runs_bind; try apply runs_gets).
  rewrite (in_transaction_test w Hst Hlevel).
  apply runs_bind, runs_modify. fold (marked w).
  destruct (pq_execute_command_locked_exact "ROLLBACK" (marked w))
    as (out & w1 & Heq & _ & _ & _ & Hconn & _).
  apply runs_bind. exists out, w1. split; [exact Heq|].
  pose proof (command_completed cfg _ _ _ _ Heq) as Hdone.
  destruct out as [[rv res] error]. cbn [fst snd] in Hdone.
  change (next_command_ok (marked w)) with (next_command_ok w) in Hdone.
  destruct Hdone as (u & w2 & Hwhen & Hrv & Hup & Htr & _ & _ & _ & _ & Hok & Hko & Hnone).
  apply upto_closed_fields in Hup as (Hst2 & _ & Hmark & _).
  destruct (next_command_ok w) eqn:Hnext; subst rv;
    cbn [Z.eqb Z.ltb Z.compare when] in *.
  - injection Hwhen as <- <-.
    apply runs_bind, runs_modify, runs_ret.
    unfold conn_notice_process. apply runs_bind, runs_ret, runs_bind, runs_ret.
    apply runs_ret. simpl_world. rewrite Hconn in *.
    repeat split; auto.
  - apply runs_bind, runs_ret, runs_ret.
    unfold conn_notice_process. apply runs_bind, runs_ret.
    apply runs_bind. exists u, w2. split; [exact Hwhen|].
    apply runs_ret. rewrite Hst2. simpl_world.
    repeat split; auto.
Qed.

(** X1.  On a connection inside a transaction (status BEGIN, isolation
    level not 0) pq_abort always returns and always increments the
    connection's mark. When the ROLLBACK is accepted it returns 0, the
    status becomes READY and no exception is set; when it is not accepted
    it returns -1, the status stays BEGIN and an exception is set. *)
Theorem pq_abort_outcome (cfg : build) (w : world) :
  status (w_conn w) = CONN_STATUS_BEGIN ->
  isolation_level (w_conn w) <> 0 ->
  exists retvalue w',
    pq_abort cfg w = Some (retvalue, w') /\
    mark (w_conn w') = mark_incr (mark (w_conn w)) /\
    (next_command_ok w = true ->
     retvalue = 0 /\ status (w_conn w') = CONN_STATUS_READY /\
     w_err w' = w_err w) /\
    (next_command_ok w = false ->
     retvalue = -1 /\ status (w_conn w') = CONN_STATUS_BEGIN /\ raised w').
Proof.
  intros Hst Hlevel.
  destruct (pq_abort_exact cfg w Hst Hlevel)
    as (rv & w' & Heq & Hrv & Hstatus & Hmark & _ & Hok & Hko & _).
  exists rv, w'. split; [exact Heq|]. split; [exact Hmark|].
  split; intros Hnext; rewrite Hnext in *; auto.
Qed.

Lemma pq_abort_outcome_witness :
  (exists w',
      pq_abort Scenario.cfg Cases.w_open = Some (0, w') /\
      status (w_conn w') = CONN_STATUS_READY /\ mark (w_conn w') = 42) /\
  (exists w',
      pq_abort Scenario.cfg Scenario.w_in_transaction = Some (-1, w') /\
      status (w_conn w') = CONN_STATUS_BEGIN /\ mark (w_conn w') = 42 /\
      raised w').
Proof.
  split.
  - destruct (pq_abort_outcome Scenario.cfg Cases.w_open)
      as (rv & w' & Heq & Hmark & Hok & _); [reflexivity|discriminate|].
    destruct (Hok eq_refl) as (-> & Hst & _).
    exists w'. repeat split; assumption.
  - destruct (pq_abort_outcome Scenario.cfg Scenario.w_in_transaction)
      as (rv & w' & Heq & Hmark & _ & Hko); [reflexivity|discriminate|].
    destruct (Hko eq_refl) as (-> & Hst & Hraised).
    exists w'. repeat split; assumption.
Defined.

(** X2.  When the connection runs in autocommit (isolation level 0) or is
    not in a transaction (status other than BEGIN), pq_commit, pq_abort
    and pq_abort_locked return 0 and change nothing: no command is sent,
    the mark and the status are untouched and no exception is set. *)
Theorem commit_abort_outside_transaction (cfg : build) (w : world) :
  isolation_level (w_conn w) = 0 \/ status (w_conn w) <> CONN_STATUS_BEGIN ->
  pq_commit cfg w = Some (0, w) /\
  pq_abort cfg w = Some (0, w) /\
  (forall res error, pq_abort_locked res error w = Some ((0, res, error), w)).
Proof.
  intros H. pose proof (not_in_transaction_test w H) as Htest.
  unfold pq_commit, pq_abort, pq_abort_locked, bind, gets.
  rewrite Htest. repeat split.
Qed.

Lemma commit_abort_outside_transaction_witness :
  pq_commit Scenario.cfg Scenario.w_ready = Some (0, Scenario.w_ready) /\
  pq_abort Scenario.cfg Scenario.w_ready = Some (0, Scenario.w_ready) /\
  (forall res error,
      pq_abort_locked res error Scenario.w_ready
      = Some ((0, res, error), Scenario.w_ready)).
Proof.
  apply (commit_abort_outside_transaction Scenario.cfg Scenario.w_ready).
  right. discriminate.
Defined.

(** X3.  Inside a transaction, pq_commit and pq_abort make exactly one
    call to the backend, COMMIT or ROLLBACK, and release the result that
    call returned exactly once, whether the command was accepted or
    refused; when there is no result nothing is released. *)
Theorem transaction_end_releases_result (cfg : build) (w : world) :
  status (w_conn w) = CONN_STATUS_BEGIN ->
  isolation_level (w_conn w) <> 0 ->
  (exists retvalue w',
      pq_commit cfg w = Some (retvalue, w') /\
      w_trace w' =
        (w_trace w ++ exec_call (w_green w) "COMMIT"
           :: clear_trace (command_result w))%list) /\
  (exists retvalue w',
      pq_abort cfg w = Some (retvalue, w') /\
      w_trace w' =
        (w_trace w ++ exec_call (w_green w) "ROLLBACK"
           :: clear_trace (command_result w))%list).
Proof.
  intros Hst Hlevel. split.
  - destruct (pq_commit_exact cfg w Hst Hlevel)
      as (rv & w' & Heq & _ & _ & _ & Htr & _).
    now exists rv, w'.
  - destruct (pq_abort_exact cfg w Hst Hlevel)
      as (rv & w' & Heq & _ & _ & _ & Htr & _).
    now exists rv, w'.
Qed.

Lemma transaction_end_releases_result_witness :
  (exists retvalue w',
      pq_commit Scenario.cfg Scenario.w_in_transaction = Some (retvalue, w') /\
      w_trace w' = [Call_PQexec "COMMIT"; Call_PQclear Scenario.fatal_error]) /\
  (exists retvalue w',
      pq_abort Scenario.cfg Cases.w_open = Some (retvalue, w') /\
      w_trace w' =
        [Call_PQexec "ROLLBACK"; Call_PQclear (Scenario.command_ok None)]).
Proof.
  split.
  - apply (transaction_end_releases_result Scenario.cfg Scenario.w_in_transaction);
      [reflexivity|discriminate].
  - apply (transaction_end_releases_result Scenario.cfg Cases.w_open);
      [reflexivity|discriminate].
Defined.

(** X4.  Inside a transaction, when the command that ends it comes back
    without a result, pq_commit and pq_abort return -1 and set an
    OperationalError whose message is the connection's error message.
    pq_commit still moves the status to READY, pq_abort leaves it at
    BEGIN. *)
Theorem transaction_end_on_lost_session (cfg : build) (w : world) :
  status (w_conn w) = CONN_STATUS_BEGIN ->
  isolation_level (w_conn w) <> 0 ->
  command_result w = None ->
  (exists w',
      pq_commit cfg w = Some (-1, w') /\
      w_err w' = Some (plain_error OperationalError (error_after w)) /\
      status (w_conn w') = CONN_STATUS_READY) /\
  (exists w',
      pq_abort cfg w = Some (-1, w') /\
      w_err w' = Some (plain_error OperationalError (error_after w)) /\
      status (w_conn w') = CONN_STATUS_BEGIN).
Proof.
  intros Hst Hlevel Hnone.
  assert (next_command_ok w = false) as Hnext
    by (rewrite next_command_ok_result, Hnone; reflexivity).
  split.
  - destruct (pq_commit_exact cfg w Hst Hlevel)
      as (rv & w' & Heq & Hrv & Hstatus & _ & _ & _ & _ & Herr).
    rewrite Hnext in Hrv. subst rv. exists w'. auto.
  - destruct (pq_abort_exact cfg w Hst Hlevel)
      as (rv & w' & Heq & Hrv & Hstatus & _ & _ & _ & _ & Herr).
    rewrite Hnext in Hrv, Hstatus. subst rv. exists w'. auto.
Qed.

Lemma transaction_end_on_lost_session_witness :
  (exists w',
      pq_commit Scenario.cfg Cases.w_lost = Some (-1, w') /\
      w_err w' = Some (plain_error OperationalError
                         "server closed the connection unexpectedly") /\
      status (w_conn w') = CONN_STATUS_READY) /\
  (exists w',
      pq_abort Scenario.cfg Cases.w_lost = Some (-1, w') /\
      w_err w' = Some (plain_error OperationalError
                         "server closed the connection unexpectedly") /\
      status (w_conn w') = CONN_STATUS_BEGIN).
Proof.
  apply (transaction_end_on_lost_session Scenario.cfg Cases.w_lost);
    [reflexivity|discriminate|reflexivity].
Defined.

(** ** pq_reset_locked and pq_reset *)

(** One command of a sequence: either it is accepted, its result is
    released and the session moves on, or the sequence ends with it. *)
Lemma command_in_sequence (query : string) (w : world) (green : bool) :
  w_green w = green ->
  runs (pq_execute_command_locked query) w (fun out w' =>
    w_conn w' = w_conn w /\ w_curs w' = w_curs w /\ w_file w' = w_file w /\
    w_green w' = green /\
    forall cmds,
      w_trace w' ++ (if fst (fst out) =? 0
                     then commands_trace green cmds (session_script w')
                     else [])
      = w_trace w ++ commands_trace green (query :: cmds) (session_script w) /\
      (if fst (fst out) =? 0
       then commands_pass green cmds (session_script w')
       else false)
      = commands_pass green (query :: cmds) (session_script w) /\
      (fst (fst out) = 0 \/ fst (fst out) = -1) /\
      (fst (fst out) = 0 -> w_err w' = w_err w))%list.
Proof.
  intros <-.
  eapply runs_weaken; [apply pq_execute_command_locked_exact|]. cbv beta.
  intros out w1 (Hout & Htr & Hscript & Hconn & Hcurs & Hfile & Hgreen & _ & Herr).
  repeat (split; [assumption|]). intros cmds.
  unfold command_result, next_answer, is_command_ok in *.
  destruct (session_script w) as [|r rest]; cbn [hd_error tl] in *;
    [|destruct (reply_outcome (w_green w) r) as [res|] eqn:Hres;
      [destruct (ExecStatusType_eqb (resultStatus res) PGRES_COMMAND_OK) eqn:Hok|]];
    subst out; cbn [fst snd Z.eqb commands_trace commands_pass is_command_ok];
    rewrite ?Hres; cbn [is_command_ok]; rewrite ?Hok, ?Htr, ?Hscript, ?app_nil_r;
    cbn [andb clear_trace]; rewrite <- ?app_assoc; cbn [app];
    repeat split; auto; try discriminate.
  intros _. apply Herr. discriminate.
Qed.

Ltac sequence_step cmds :=
  match goal with
  | Hg : w_green ?w = ?green
    |- runs (bind (pq_execute_command_locked ?q) _) ?w _ =>
      let out := fresh "out" in
      let w1 := fresh "w" in
      let Heq := fresh "Heq" in
      let Hconn := fresh "Hconn" in
      let Hcurs := fresh "Hcurs" in
      let Hfile := fresh "Hfile" in
      let Hgreen := fresh "Hgreen" in
      let Hseq := fresh "Hseq" in
      let Htr := fresh "Htr" in
      let Hpass := fresh "Hpass" in
      let Hrv := fresh "Hrv" in
      let Herr := fresh "Herr" in
      destruct (command_in_sequence q w green Hg)
        as (out & w1 & Heq & Hconn & Hcurs & Hfile & Hgreen & Hseq);
      destruct (Hseq cmds) as (Htr & Hpass & Hrv & Herr); clear Hseq;
      apply runs_bind; exists out, w1; (split; [exact Heq|]);
      destruct out as [[? ?] ?]; cbn [fst snd] in *;
      destruct Hrv; subst; cbn [Z.eqb negb] in *
  end.

Ltac sequence_done :=
  cbn [fst];
  repeat match goal with
         | H : _ = commands_pass _ _ _ |- _ => rewrite <- H; clear H
         end;
  repeat match goal with
         | H : (_ ++ _)%list = (_ ++ commands_trace _ _ _)%list |- _ =>
             rewrite <- H; clear H
         end;
  cbn [commands_pass commands_trace]; rewrite ?app_nil_r;
  repeat split; try congruence; try discriminate.

Lemma pq_reset_locked_exact (res : option PGresult) (error : option string)
  (w : world) :
  runs (pq_reset_locked res error) w (fun out w' =>
    let pass := commands_pass (w_green w) (reset_commands (w_conn w))
                  (session_script w) in
    fst (fst out) = (if pass then 0 else -1) /\
    w_trace w' =
      (w_trace w
       ++ commands_trace (w_green w) (reset_commands (w_conn w))
            (session_script w))%list /\
    w_conn w' = (if pass
                 then set_status CONN_STATUS_READY (w_conn (marked w))
                 else w_conn (marked w)) /\
    w_curs w' = w_curs w /\ w_file w' = w_file w /\ w_green w' = w_green w /\
    (pass = true -> w_err w' = w_err w)).
Proof.
  unfold pq_reset_locked.
  apply runs_bind, runs_modify. fold (marked w).
  apply runs_bind, runs_gets. apply runs_bind, runs_gets.
  change (isolation_level (w_conn (marked w))) with (isolation_level (w_conn w)).
  change (status (w_conn (marked w))) with (status (w_conn w)).
  unfold reset_commands.
  change (session_script w) with (session_script (marked w)).
  change (w_trace w) with (w_trace (marked w)).
  change (w_curs w) with (w_curs (marked w)).
  change (w_file w) with (w_file (marked w)).
  change (w_err w) with (w_err (marked w)).
  assert (w_green (marked w) = w_green w) as Hg by reflexivity.
  revert Hg. generalize (w_green w) as green. generalize (marked w) as w0.
  intros w0 green Hg.
  destruct ((isolation_level (w_conn w) >? 0)
            && conn_status_eqb (status (w_conn w)) CONN_STATUS_BEGIN);
    cbn [app].
  - sequence_step ["RESET ALL"; "SET SESSION AUTHORIZATION DEFAULT"];
      [|apply runs_ret; sequence_done].
    sequence_step ["SET SESSION AUTHORIZATION DEFAULT"];
      [|apply runs_ret; sequence_done].
    sequence_step (@nil string); [|apply runs_ret; sequence_done].
    apply runs_bind, runs_modify, runs_ret. simpl_world. sequence_done.
    intros _. rewrite Herr1, Herr0, Herr; auto.
  - apply runs_bind, runs_ret. cbn [Z.eqb negb].
    sequence_step ["SET SESSION AUTHORIZATION DEFAULT"];
      [|apply runs_ret; sequence_done].
    sequence_step (@nil string); [|apply runs_ret; sequence_done].
    apply runs_bind, runs_modify, runs_ret. simpl_world. sequence_done.
    intros _. rewrite Herr0, Herr; auto.
Qed.

(** X5.  pq_reset_locked always returns and increments the mark. It sends
    ABORT (only when in a transaction at an isolation level above 0),
    RESET ALL and SET SESSION AUTHORIZATION DEFAULT in that order,
    releases the result of each accepted command and stops at the first
    command that is not accepted; it returns 0 and sets the status to
    READY when every command was accepted, and returns -1 with the status
    unchanged otherwise. *)
Theorem pq_reset_locked_commands (res : option PGresult)
  (error : option string) (w : world) :
  exists out w',
    pq_reset_locked res error w = Some (out, w') /\
    let pass := commands_pass (w_green w) (reset_commands (w_conn w))
                  (session_script w) in
    fst (fst out) = (if pass then 0 else -1) /\
    w_trace w' =
      (w_trace w
       ++ commands_trace (w_green w) (reset_commands (w_conn w))
            (session_script w))%list /\
    mark (w_conn w') = mark_incr (mark (w_conn w)) /\
    status (w_conn w') = (if pass then CONN_STATUS_READY else status (w_conn w)).
Proof.
  destruct (pq_reset_locked_exact res error w)
    as (out & w' & Heq & Hrv & Htr & Hconn & _).
  exists out, w'. split; [exact Heq|]. cbv zeta in *.
  split; [exact Hrv|]. split; [exact Htr|].
  rewrite Hconn.
  destruct (commands_pass _ _ _); split; reflexivity.
Qed.

(** The reset of a connection inside a transaction, on a backend that
    accepts every command, and on one that refuses the first. *)
Example pq_reset_locked_runs :
  (exists w',
      pq_reset_locked None None Cases.w_open3 = Some ((0, None, None), w') /\
      w_trace w' =
        [ Call_PQexec "ABORT"; Call_PQclear (Scenario.command_ok None);
          Call_PQexec "RESET ALL"; Call_PQclear (Scenario.command_ok None);
          Call_PQexec "SET SESSION AUTHORIZATION DEFAULT";
          Call_PQclear (Scenario.command_ok None) ] /\
      status (w_conn w') = CONN_STATUS_READY /\ mark (w_conn w') = 42) /\
  (exists w',
      pq_reset_locked None None Scenario.w_in_transaction
      = Some ((-1, Some Scenario.fatal_error, None), w') /\
      w_trace w' = [Call_PQexec "ABORT"] /\
      status (w_conn w') = CONN_STATUS_BEGIN /\ mark (w_conn w') = 42).
Proof.
  split; eexists; (split; [vm_compute; reflexivity|]); repeat split.
Qed.

(** X6.  pq_reset always returns. When every command of the reset is
    accepted it returns 0, clears the two-phase transaction id, leaves the
    status READY and sets no exception; otherwise it returns -1, keeps the
    transaction id and the status, and sets an exception. *)
Theorem pq_reset_outcome (cfg : build) (Xid : Type) (tpc_xid : option Xid)
  (w : world) :
  exists retvalue xid w',
    pq_reset cfg tpc_xid w = Some ((retvalue, xid), w') /\
    mark (w_conn w') = mark_incr (mark (w_conn w)) /\
    let pass := commands_pass (w_green w) (reset_commands (w_conn w))
                  (session_script w) in
    (pass = true ->
     retvalue = 0 /\ xid = None /\ status (w_conn w') = CONN_STATUS_READY /\
     w_err w' = w_err w) /\
    (pass = false ->
     retvalue = -1 /\ xid = tpc_xid /\ status (w_conn w') = status (w_conn w) /\
     raised w').
Proof.
  unfold pq_reset.
  destruct (pq_reset_locked_exact None None w)
    as ([[rv res] error] & w1 & Heq & Hrv & _ & Hconn & _ & _ & _ & Herr).
  cbv zeta in *. cbn [fst] in Hrv.
  destruct (commands_pass _ _ _) eqn:Hpass; subst rv.
  - exists 0, None, w1. split.
    + unfold bind. rewrite Heq. reflexivity.
    + rewrite Hconn. repeat split; auto; discriminate.
  - destruct (pq_complete_error_exact cfg res error w1)
      as (u & w2 & Heq2 & Hup & Hraised & _).
    apply upto_closed_fields in Hup as (Hst & _ & Hmark & _).
    exists (-1), tpc_xid, w2. split.
    + unfold bind. rewrite Heq. cbn. rewrite Heq2. reflexivity.
    + rewrite Hmark, Hst, Hconn. repeat split; auto; discriminate.
Qed.

(** ** pq_raise *)

Lemma prefix_split (p s : string) :
  String.prefix p s = true -> exists tail, s = p ++ tail.
Proof.
  revert s. induction p as [|c p IH]; intros s H.
  - exists s. reflexivity.
  - destruct s as [|d s]; [discriminate|]. cbn [String.prefix] in H.
    destruct (ascii_dec c d) as [->|]; [|discriminate].
    destruct (IH s H) as [tail ->]. exists tail. reflexivity.
Qed.

Lemma strstr_occurs (needle hay : string) :
  (match strstr hay needle with Some _ => true | None => false end) = true
  <-> occurs needle hay.
Proof.
  split.
  - induction hay as [|c hay IH]; cbn [strstr].
    + destruct (String.prefix needle "") eqn:E; [|discriminate].
      intros _. destruct (prefix_split _ _ E) as [tail ->].
      exists "", tail. reflexivity.
    + destruct (String.prefix needle (String c hay)) eqn:E.
      * intros _. destruct (prefix_split _ _ E) as [tail ->].
        exists "", tail. reflexivity.
      * intros H. destruct (IH H) as (before & after & ->).
        exists (String c before), after. reflexivity.
  - intros (before & after & ->).
    induction before as [|c before IH]; cbn [append].
    + destruct (needle ++ after) eqn:E; cbn [strstr]; rewrite <- E;
        now rewrite prefix_append.
    + cbn [strstr].
      destruct (String.prefix needle (String c (before ++ needle ++ after)));
        [reflexivity|exact IH].
Qed.

Lemma strstr_absent (needle hay : string) :
  ~ occurs needle hay ->
  (match strstr hay needle with Some _ => true | None => false end) = false.
Proof.
  intros H. destruct (match strstr hay needle with Some _ => true | None => false end) eqn:E;
    [|reflexivity].
  apply strstr_occurs in E. contradiction.
Qed.

Lemma pq_raise_exact (cfg : build) (curs : bool) (res : option PGresult)
  (r : PGresult) (w : world) :
  raise_source curs res w = Some r ->
  exists message,
    strip_severity (Some (resultErrorMessage r)) = Some message /\
    pq_raise cfg curs res w =
    Some (tt,
          set_err
            (Some (mkException
                     (match (if HAVE_PQPROTOCOL3 cfg && (protocol (w_conn w) =? 3)
                             then resultSqlstate r else None) with
                      | Some code =>
                          exception_from_sqlstate (PSYCOPG_EXTENSIONS cfg) code
                      | None => text_kind cfg (resultErrorMessage r)
                      end)
                     message
                     (Some (resultErrorMessage r))
                     (if HAVE_PQPROTOCOL3 cfg && (protocol (w_conn w) =? 3)
                      then resultSqlstate r else None)
                     curs))
            (flag_bad w)).
Proof.
  intros Hsrc.
  destruct (strip_severity_some (resultErrorMessage r)) as [message Hm].
  exists message. split; [exact Hm|].
  unfold pq_raise, text_kind, flag_bad, raise_source in *.
  cbv [bind ret gets modify when upd_conn PQerrorMessage psyco_set_error
       PQresultErrorMessage PQresultErrorField_SQLSTATE].
  destruct (match w_pg w with
            | Some s => ConnStatusType_eqb (pg_status s) CONNECTION_BAD
            | None => false
            end); simpl_world.
  all: destruct res as [r0|]; [injection Hsrc as ->|destruct curs; [|discriminate]];
    try rewrite Hsrc; rewrite Hm;
    destruct (HAVE_PQPROTOCOL3 cfg && (protocol (w_conn w) =? 3));
    try destruct (resultSqlstate r); reflexivity.
Qed.

Lemma text_kind_cases (cfg : build) (err : string) :
  (integrity_text err -> text_kind cfg err = IntegrityError) /\
  (~ integrity_text err -> rollback_text err ->
   text_kind cfg err = if PSYCOPG_EXTENSIONS cfg then TransactionRollbackError
                       else OperationalError) /\
  (~ integrity_text err -> ~ rollback_text err ->
   text_kind cfg err = ProgrammingError).
Proof.
  unfold text_kind, integrity_text, rollback_text.
  change (strncmp err "ERROR:  Cannot insert a duplicate key" 37)
    with (strncmp err "ERROR:  Cannot insert a duplicate key"
            (String.length "ERROR:  Cannot insert a duplicate key")).
  change (strncmp err "ERROR:  ExecAppend: Fail to add null" 36)
    with (strncmp err "ERROR:  ExecAppend: Fail to add null"
            (String.length "ERROR:  ExecAppend: Fail to add null")).
  rewrite !strncmp_prefix by reflexivity.
  pose proof (strstr_occurs "referential integrity violation" err) as H1.
  pose proof (strstr_occurs "could not serialize" err) as H2.
  pose proof (strstr_occurs "deadlock detected" err) as H3.
  destruct (String.prefix "ERROR:  Cannot insert a duplicate key" err),
           (String.prefix "ERROR:  ExecAppend: Fail to add null" err),
           (match strstr err "referential integrity violation" with
            | Some _ => true | None => false end),
           (match strstr err "could not serialize" with
            | Some _ => true | None => false end),
           (match strstr err "deadlock detected" with
            | Some _ => true | None => false end);
    cbn [orb]; repeat split; try reflexivity; intros; exfalso;
    intuition discriminate.
Qed.

(** X7.  When the result carries an SQLSTATE, the build has
    HAVE_PQPROTOCOL3 and the connection speaks protocol 3, pq_raise sets
    the exception whose class is exception_from_sqlstate of that code,
    with the message stripped of its severity prefix, pgerror set to the
    full message and pgcode set to the code; the text of the message plays
    no part in the choice of the class. *)
Theorem pq_raise_by_sqlstate (cfg : build) (curs : bool)
  (res : option PGresult) (r : PGresult) (code : string) (w : world) :
  raise_source curs res w = Some r ->
  HAVE_PQPROTOCOL3 cfg = true ->
  protocol (w_conn w) = 3 ->
  resultSqlstate r = Some code ->
  exists message,
    strip_severity (Some (resultErrorMessage r)) = Some message /\
    pq_raise cfg curs res w =
    Some (tt,
          set_err
            (Some (mkException
                     (exception_from_sqlstate (PSYCOPG_EXTENSIONS cfg) code)
                     message (Some (resultErrorMessage r)) (Some code) curs))
            (flag_bad w)).
Proof.
  intros Hsrc Hbuild Hproto Hcode.
  destruct (pq_raise_exact cfg curs res r w Hsrc) as (message & Hm & Heq).
  rewrite Hbuild, Hproto, Hcode in Heq. cbn [andb Z.eqb Pos.eqb] in Heq.
  exists message. split; assumption.
Qed.

Lemma pq_raise_by_sqlstate_witness :
  pq_raise Scenario.cfg true None Cases.w_failed =
  Some (tt,
        set_err
          (Some (mkException InternalError "current transaction is aborted"
                   (Some "ERROR:  current transaction is aborted")
                   (Some "25P02") true))
          (set_conn (set_closed 2 (w_conn Cases.w_failed)) Cases.w_failed)).
Proof.
  destruct (pq_raise_by_sqlstate Scenario.cfg true None Scenario.fatal_error
              "25P02" Cases.w_failed)
    as (message & Hm & Heq); [reflexivity|reflexivity|reflexivity|reflexivity|].
  injection Hm as <-. exact Heq.
Defined.

(** X8.  Without an SQLSTATE (no protocol 3 support, another protocol, or
    a result without the field) pq_raise chooses the class from the
    message text: IntegrityError for the two duplicate-key and null
    prefixes or a mention of a referential integrity violation, else
    TransactionRollbackError (OperationalError without PSYCOPG_EXTENSIONS)
    for a serialization failure or a deadlock, else ProgrammingError;
    pgcode is None and pgerror is the full message. *)
Theorem pq_raise_by_text (cfg : build) (curs : bool) (res : option PGresult)
  (r : PGresult) (w : world) :
  raise_source curs res w = Some r ->
  HAVE_PQPROTOCOL3 cfg = false \/ protocol (w_conn w) <> 3 \/
  resultSqlstate r = None ->
  exists e,
    pq_raise cfg curs res w = Some (tt, set_err (Some e) (flag_bad w)) /\
    exc_pgcode e = None /\
    exc_pgerror e = Some (resultErrorMessage r) /\
    strip_severity (Some (resultErrorMessage r)) = Some (exc_message e) /\
    (integrity_text (resultErrorMessage r) -> exc_type e = IntegrityError) /\
    (~ integrity_text (resultErrorMessage r) ->
     rollback_text (resultErrorMessage r) ->
     exc_type e = if PSYCOPG_EXTENSIONS cfg then TransactionRollbackError
                  else OperationalError) /\
    (~ integrity_text (resultErrorMessage r) ->
     ~ rollback_text (resultErrorMessage r) ->
     exc_type e = ProgrammingError).
Proof.
  intros Hsrc Hnocode.
  destruct (pq_raise_exact cfg curs res r w Hsrc) as (message & Hm & Heq).
  assert ((if HAVE_PQPROTOCOL3 cfg && (protocol (w_conn w) =? 3)
           then resultSqlstate r else None) = None) as Hcode.
  { destruct Hnocode as [->|[H| ->]]; [reflexivity| |now destruct (_ && _)].
    apply Z.eqb_neq in H. rewrite H, andb_false_r. reflexivity. }
  rewrite Hcode in Heq.
  eexists. split; [exact Heq|]. cbn [exc_pgcode exc_pgerror exc_message exc_type].
  repeat (split; [first [reflexivity | assumption]|]).
  apply text_kind_cases.
Qed.

Lemma pq_raise_by_text_witness :
  exists e,
    pq_raise Scenario.cfg false (Some Cases.deadlock) Scenario.w_ready
    = Some (tt, set_err (Some e) Scenario.w_ready) /\
    exc_pgcode e = None /\
    exc_message e = "deadlock detected" /\
    exc_type e = TransactionRollbackError.
Proof.
  destruct (pq_raise_by_text Scenario.cfg false (Some Cases.deadlock)
              Cases.deadlock Scenario.w_ready)
    as (e & Heq & Hcode & _ & Hm & _ & Hroll & _);
    [reflexivity|right; right; reflexivity|].
  exists e. split; [exact Heq|]. split; [exact Hcode|]. split.
  - injection Hm as <-. reflexivity.
  - apply Hroll.
    + intros [H|[H|(before & after & H)]]; try discriminate.
      apply (f_equal String.length) in H. rewrite !length_append in H.
      cbn in H. lia.
    + right. exists "ERROR:  ", "". reflexivity.
Defined.

(** ** The critical flag, from its setting to its resolution *)

Lemma pq_set_critical_exact (msg : string) (w : world) :
  pq_set_critical (Some msg) w =
  Some (tt,
        set_conn
          (set_critical
             (if Ascii.eqb (char_at msg 0) zero then None else Some msg)
             (w_conn w)) w).
Proof.
  unfold pq_set_critical, bind, ret, upd_conn, modify, strdup.
  destruct (Ascii.eqb (char_at msg 0) zero); reflexivity.
Qed.

Lemma pq_resolve_critical_open (close : Z) (w : world) (crit : string) :
  critical (w_conn w) = Some crit ->
  6 <= strlen crit ->
  close <> 1 ->
  pq_resolve_critical close w =
  Some (tt,
        set_conn (set_critical None (w_conn w))
          (set_err (Some (plain_error OperationalError (offset 6 crit))) w)).
Proof.
  intros Hcrit Hlen Hclose.
  unfold pq_resolve_critical, pq_clear_critical, PyErr_SetString, bind, gets,
    when, modify, upd_conn, ret.
  rewrite Hcrit.
  apply Z.ltb_ge in Hlen. rewrite Hlen.
  apply Z.eqb_neq in Hclose. rewrite Hclose.
  simpl_world. rewrite Hcrit. reflexivity.
Qed.

(** X9.  A message of at least six characters stored by pq_set_critical is
    raised by pq_resolve_critical as an OperationalError without its first
    six characters, after which the critical flag is clear; the connection
    is closed only when close is 1. An empty message stores nothing, and
    pq_resolve_critical then does nothing. *)
Theorem critical_set_then_resolve (w : world) :
  (forall (close : Z) (msg : string),
      (6 <= String.length msg)%nat ->
      char_at msg 0 <> zero ->
      exists w1 w2,
        pq_set_critical (Some msg) w = Some (tt, w1) /\
        critical (w_conn w1) = Some msg /\
        pq_resolve_critical close w1 = Some (tt, w2) /\
        w_err w2 = Some (plain_error OperationalError (offset 6 msg)) /\
        critical (w_conn w2) = None /\
        (close = 1 -> closed (w_conn w2) <> 0) /\
        (close <> 1 -> closed (w_conn w2) = closed (w_conn w) /\ w_pg w2 = w_pg w)) /\
  (forall close : Z,
      exists w1,
        pq_set_critical (Some "") w = Some (tt, w1) /\
        critical (w_conn w1) = None /\
        pq_resolve_critical close w1 = Some (tt, w1)).
Proof.
  split.
  - intros close msg Hlen Hfirst.
    assert (Ascii.eqb (char_at msg 0) zero = false) as Hnz
      by (apply Ascii.eqb_neq; exact Hfirst).
    pose proof (pq_set_critical_exact msg w) as Hset. rewrite Hnz in Hset.
    eexists. 
    assert (6 <= strlen msg) as Hlen' by (unfold strlen; lia).
    match type of Hset with _ = Some (tt, ?w1) =>
      destruct (pq_resolve_critical_runs close w1 msg eq_refl Hlen')
        as ([] & w2 & Hres & Hnone & Herr & Hclosed & _);
      exists w2; split; [exact Hset|]; split; [reflexivity|];
      split; [exact Hres|]; split; [exact Herr|]; split; [exact Hnone|];
      split; [exact Hclosed|];
      intros Hclose;
      rewrite (pq_resolve_critical_open close w1 msg eq_refl Hlen' Hclose) in Hres
    end.
    injection Hres as <-. split; reflexivity.
  - intros close. eexists. split; [apply pq_set_critical_exact|].
    split; [reflexivity|]. apply pq_resolve_critical_none. reflexivity.
Qed.

Lemma critical_set_then_resolve_witness :
  (exists w1 w2,
      pq_set_critical (Some "FATAL: terminating connection") Scenario.w_ready
      = Some (tt, w1) /\
      pq_resolve_critical 0 w1 = Some (tt, w2) /\
      w_err w2 = Some (plain_error OperationalError " terminating connection") /\
      critical (w_conn w2) = None /\
      closed (w_conn w2) = 0) /\
  (exists w1,
      pq_set_critical (Some "") Scenario.w_critical = Some (tt, w1) /\
      critical (w_conn w1) = None).
Proof.
  split.
  - destruct (critical_set_then_resolve Scenario.w_ready) as [Hset _].
    destruct (Hset 0 "FATAL: terminating connection")
      as (w1 & w2 & H1 & _ & H2 & H3 & H4 & _ & H5);
      [simpl; lia|discriminate|].
    exists w1, w2. repeat split; try assumption.
    apply H5. discriminate.
  - destruct (critical_set_then_resolve Scenario.w_critical) as [_ Hempty].
    destruct (Hempty 0) as (w1 & H1 & H2 & _).
    exists w1. split; assumption.
Defined.

(** ** pq_fetch *)

Ltac mauto :=
  repeat first [ apply runs_bind | apply runs_gets | apply runs_modify
               | apply runs_ret ].

Lemma curs_reset_exact (w : world) :
  curs_reset w = Some (tt, set_curs (reset_cursor (w_curs w)) w).
Proof. reflexivity. Qed.

(** X10.  When the cursor holds no result, pq_fetch returns 0 and changes
    nothing but the cursor: no call to the backend, no exception, and the
    connection untouched even if its critical flag is set. *)
Theorem pq_fetch_without_result (cfg : build) (w : world) :
  pgres (w_curs w) = None ->
  exists curs,
    pq_fetch cfg w = Some (0, set_curs curs w) /\ pgres curs = None.
Proof.
  intros Hres. exists (reset_cursor (w_curs w)). split; [|exact Hres].
  unfold pq_fetch, bind. rewrite curs_reset_exact.
  unfold gets. simpl_world. unfold reset_cursor. simpl_world.
  rewrite Hres. reflexivity.
Qed.

Lemma pq_fetch_without_result_witness :
  exists curs,
    pq_fetch Scenario.cfg Scenario.w_critical
    = Some (0, set_curs curs Scenario.w_critical) /\
    pgres curs = None.
Proof.
  apply (pq_fetch_without_result Scenario.cfg Scenario.w_critical).
  reflexivity.
Defined.

Lemma display_sizes_length (r : PGresult) (rows : Z) (n : nat) :
  List.length (display_sizes r rows n) = n.
Proof. unfold display_sizes. now rewrite length_map, length_seq. Qed.

Lemma combine_fst_length {A B : Type} (l : list A) (l' : list B) :
  List.length l = List.length l' -> map snd (combine l l') = l'.
Proof.
  revert l'. induction l as [|a l IH]; intros [|b l'] H; try discriminate;
    [reflexivity|]. cbn. f_equal. apply IH. now injection H.
Qed.

(** The display sizes [_pq_fetch_tuples] works out, one per column. *)
Lemma dsize_length (cfg : build) (r : PGresult) (rows : Z) :
  List.length
    (if PSYCOPG_DISPLAY_SIZE cfg
     then map Some (display_sizes r rows (List.length (fields r)))
     else map (fun _ => None) (fields r))
  = List.length (fields r).
Proof.
  destruct (PSYCOPG_DISPLAY_SIZE cfg); rewrite length_map;
    [apply display_sizes_length|reflexivity].
Qed.

Lemma describe_fields (dsize : list (option Z)) (flds : list PGfield) :
  List.length dsize = List.length flds ->
  map d_name (map (fun df => describe_field (fst df) (snd df)) (combine dsize flds))
  = map fname flds /\
  map d_type_code
    (map (fun df => describe_field (fst df) (snd df)) (combine dsize flds))
  = map ftype flds.
Proof.
  intros H. rewrite !map_map. cbn [describe_field d_name d_type_code].
  rewrite <- (combine_fst_length dsize flds H) at 2 4.
  rewrite !map_map. split; reflexivity.
Qed.

(** X11.  For a result with tuples on a connection that is not critical,
    pq_fetch returns 0, keeps the result in the cursor, sets rowcount to
    the number of rows, notuples to 0, columns to the number of fields,
    and builds one description entry and one typecaster per field, the
    entries carrying the fields' names and type OIDs in order. It makes no
    call to the backend, sets no exception and leaves the connection as it
    was. *)
Theorem pq_fetch_tuples_description (cfg : build) (w : world) (r : PGresult) :
  pgres (w_curs w) = Some r ->
  resultStatus r = PGRES_TUPLES_OK ->
  critical (w_conn w) = None ->
  exists w' d c,
    pq_fetch cfg w = Some (0, w') /\
    pgres (w_curs w') = Some r /\
    rowcount (w_curs w') = ntuples r /\
    notuples (w_curs w') = 0 /\
    columns (w_curs w') = PQnfields r /\
    pgstatus (w_curs w') = Some (cmdStatus r) /\
    description (w_curs w') = Some d /\
    casts (w_curs w') = Some c /\
    List.length d = List.length (fields r) /\
    List.length c = List.length (fields r) /\
    map d_name d = map fname (fields r) /\
    map d_type_code d = map ftype (fields r) /\
    w_conn w' = w_conn w /\ w_err w' = w_err w /\ w_trace w' = w_trace w.
Proof.
  intros Hres Hst Hcrit.
  assert (runs (pq_fetch cfg) w (fun ex w' =>
    ex = 0 /\
    pgres (w_curs w') = Some r /\
    rowcount (w_curs w') = ntuples r /\
    notuples (w_curs w') = 0 /\
    columns (w_curs w') = PQnfields r /\
    pgstatus (w_curs w') = Some (cmdStatus r) /\
    description (w_curs w') =
      Some (map (fun df => describe_field (fst df) (snd df))
              (combine
                 (if PSYCOPG_DISPLAY_SIZE cfg
                  then map Some (display_sizes r (ntuples r) (List.length (fields r)))
                  else map (fun _ => None) (fields r))
                 (fields r))) /\
    casts (w_curs w') =
      Some (map (fun f => lookup_cast (string_types (w_curs w))
                            (conn_string_types (w_conn w)) (w_types w)
                            (binaryTuples r) (ftype f)) (fields r)) /\
    w_conn w' = w_conn w /\ w_err w' = w_err w /\ w_trace w' = w_trace w)) as H.
  { unfold pq_fetch.
    apply runs_bind. exists tt, (set_curs (reset_cursor (w_curs w)) w).
    split; [apply curs_reset_exact|].
    apply runs_bind, runs_gets. unfold reset_cursor. simpl_world. rewrite Hres.
    unfold PQresultStatus. rewrite Hst.
    unfold upd_curs, _pq_fetch_tuples, upd_curs, conn_notice_process,
      conn_notifies_process, PQntuples, PQbinaryTuples, PQcmdStatus, PQnfields.
    mauto. simpl_world. rewrite Hcrit. apply runs_ret. simpl_world.
    rewrite !Hres. repeat split. }
  destruct H as (ex & w' & Heq & -> & Hp & Hr & Hn & Hc & Hs & Hd & Hcasts & Hrest).
  eexists w', _, _. split; [exact Heq|].
  repeat (split; [eassumption|]).
  pose proof (dsize_length cfg r (ntuples r)) as Hlen.
  split; [rewrite length_map, length_combine, Hlen; apply Nat.min_id|].
  split; [apply length_map|].
  split; [apply describe_fields; exact Hlen|].
  split; [apply describe_fields; exact Hlen|].
  exact Hrest.
Qed.

Lemma pq_fetch_tuples_description_witness :
  exists w',
    pq_fetch Scenario.cfg Cases.w_two_rows = Some (0, w') /\
    rowcount (w_curs w') = 2 /\
    columns (w_curs w') = 2 /\
    option_map (map d_name) (description (w_curs w')) = Some ["id"; "amount"] /\
    option_map (@List.length typecast) (casts (w_curs w')) = Some 2%nat /\
    pgres (w_curs w') = Some Cases.two_rows /\
    w_trace w' = [].
Proof.
  destruct (pq_fetch_tuples_description Scenario.cfg Cases.w_two_rows
              Cases.two_rows)
    as (w' & d & c & Heq & Hp & Hr & _ & Hc & _ & Hd & Hcasts & _ & Hlen & Hnames
        & _ & _ & _ & Htr);
    [reflexivity|reflexivity|reflexivity|].
  exists w'. rewrite Hd, Hcasts. cbn [option_map]. rewrite Hnames, Hlen.
  repeat split; assumption.
Defined.

(** X12.  For a NUMERIC column whose type modifier is precision * 65536 +
    scale + 4 (both below 65536), the description entry gives back that
    precision and that scale, and its internal size is the precision when
    the backend reports the size as -1 and the reported size otherwise. *)
Theorem describe_field_numeric (dsize : option Z) (name : string)
  (size precision scale : Z) :
  0 <= precision < 65536 ->
  0 <= scale < 65536 ->
  let item := describe_field dsize
                (mkPGfield name NUMERICOID size (precision * 65536 + scale + 4)) in
  d_precision item = Some precision /\
  d_scale item = Some scale /\
  d_internal_size item = (if size =? -1 then precision else size).
Proof.
  intros Hp Hs. cbv zeta.
  unfold describe_field. cbn [fmod ftype fsize d_precision d_scale d_internal_size].
  assert ((precision * 65536 + scale + 4 >? 0) = true) as -> by (apply Z.gtb_lt; lia).
  replace (precision * 65536 + scale + 4 - 4) with (scale + precision * 2 ^ 16) by lia.
  change 65535 with (Z.ones 16).
  rewrite !Z.land_ones, Z.shiftr_div_pow2 by lia.
  rewrite Z.div_add, Z.div_small, Z.add_0_l by lia.
  rewrite Z.mod_add, !Z.mod_small by lia.
  rewrite Z.eqb_refl. repeat split.
Qed.

Lemma describe_field_numeric_witness :
  let item := describe_field None (mkPGfield "amount" NUMERICOID (-1) 655366) in
  d_precision item = Some 10 /\ d_scale item = Some 2 /\
  d_internal_size item = 10.
Proof.
  apply (describe_field_numeric None "amount" (-1) 10 2); lia.
Defined.

Lemma fold_max_spec (f : nat -> Z) (js : list nat) :
  forall acc,
    let d := fold_left (fun acc j => if f j >? acc then f j else acc) js acc in
    acc <= d /\
    (forall j, In j js -> f j <= d) /\
    (d = acc \/ exists j, In j js /\ d = f j).
Proof.
  induction js as [|j js IH]; intros acc; cbn [fold_left].
  - repeat split; [lia|intros ? []|now left].
  - specialize (IH (if f j >? acc then f j else acc)).
    cbv zeta in IH. destruct IH as (Hge & Hall & Hatt).
    destruct (f j >? acc) eqn:E;
      [apply Z.gtb_lt in E|rewrite Z.gtb_ltb in E; apply Z.ltb_ge in E].
    + repeat split; [lia| |].
      * intros k [<-|Hk]; [lia|auto].
      * destruct Hatt as [->|(k & Hk & ->)]; right;
          [exists j|exists k]; cbn; auto.
    + repeat split; [lia| |].
      * intros k [<-|Hk]; [lia|auto].
      * destruct Hatt as [->|(k & Hk & ->)]; [now left|right].
        exists k; cbn; auto.
Qed.

(** X13.  The display size computed for a column is an upper bound of the
    lengths of its cells over all rows, and is either -1 or the length of
    one of them; with no row it is -1. *)
Theorem display_sizes_largest (r : PGresult) (rows : Z) (nfields i : nat) :
  (i < nfields)%nat ->
  exists d,
    nth_error (display_sizes r rows nfields) i = Some d /\
    (forall j, (j < Z.to_nat rows)%nat -> PQgetlength r j i <= d) /\
    (d = -1 \/ exists j, (j < Z.to_nat rows)%nat /\ d = PQgetlength r j i) /\
    (rows <= 0 -> d = -1).
Proof.
  intros Hi. unfold display_sizes.
  eexists. split.
  - rewrite nth_error_map, nth_error_seq.
    replace (i <? nfields)%nat with true by (symmetry; apply Nat.ltb_lt; exact Hi).
    reflexivity.
  - cbn [Nat.add].
    destruct (fold_max_spec (fun j => PQgetlength r j i) (seq 0 (Z.to_nat rows)) (-1))
      as (_ & Hall & Hatt).
    cbv zeta in *. split; [|split].
    + intros j Hj. apply Hall. apply in_seq. lia.
    + destruct Hatt as [H|(j & Hj & H)]; [now left|right].
      exists j. apply in_seq in Hj. split; [lia|exact H].
    + intros Hrows. replace (Z.to_nat rows) with O by lia. reflexivity.
Qed.

Lemma display_sizes_largest_witness :
  display_sizes Cases.two_rows 2 2 = [2; 7] /\
  exists d,
    nth_error (display_sizes Cases.two_rows 2 2) 1 = Some d /\
    (forall j, (j < 2)%nat -> PQgetlength Cases.two_rows j 1 <= d).
Proof.
  split; [reflexivity|].
  destruct (display_sizes_largest Cases.two_rows 2 2 1) as (d & Hd & Hall & _);
    [lia|].
  exists d. split; [exact Hd|exact Hall].
Defined.

Lemma IFCLEARPGRES_curs_exact (w : world) :
  IFCLEARPGRES_curs w =
  Some (tt,
        match pgres (w_curs w) with
        | Some r =>
            set_curs (set_pgres None (w_curs w))
              (set_trace (w_trace w ++ [Call_PQclear r]) w)
        | None => w
        end).
Proof.
  unfold IFCLEARPGRES_curs, bind, gets, PQclear, trace, upd_curs, modify, ret.
  destruct (pgres (w_curs w)); reflexivity.
Qed.

(** The case of [pq_fetch] for a failure. *)
Lemma failure_case (cfg : build) (w : world) (r : PGresult) :
  pgres (w_curs w) = Some r ->
  runs (pq_raise cfg true None;; IFCLEARPGRES_curs;; ret (-1))%monad w
    (fun ex w' =>
       ex = -1 /\ raised w' /\ pgres (w_curs w') = None /\
       w_trace w' = (w_trace w ++ [Call_PQclear r])%list /\
       w_pg w' = w_pg w /\ upto_closed (w_conn w) (w_conn w')).
Proof.
  intros Hres.
  mstep pq_raise_runs. intros ? w1 (e & He & ->).
  apply runs_bind.
  eexists tt, _; split; [apply IFCLEARPGRES_curs_exact|].
  apply runs_ret.
  destruct (flag_bad_rest w) as (Hc & Hpg & _ & _ & _ & _ & Ht).
  pose proof (flag_bad_conn w) as Hup.
  simpl_world. rewrite Hc, Hres. simpl_world. rewrite Ht, Hpg.
  repeat split; auto. exists e; auto.
Qed.

Ltac fetch_enter Hres :=
  unfold pq_fetch;
  apply runs_bind;
  (eexists tt, _; split; [apply curs_reset_exact|]);
  apply runs_bind, runs_gets; unfold reset_cursor; simpl_world; rewrite Hres;
  unfold PQresultStatus, upd_curs at 1; apply runs_bind, runs_modify;
  apply runs_bind.

(** X14.  When the cursor holds a result whose status is none of
    COMMAND_OK, COPY_OUT, COPY_IN and TUPLES_OK, and the connection is not
    critical, pq_fetch returns -1 with an exception set, releases the
    result exactly once and leaves the cursor without result; the session
    is not touched. *)
Theorem pq_fetch_failed_result (cfg : build) (w : world) (r : PGresult) :
  pgres (w_curs w) = Some r ->
  failure_status (resultStatus r) = true ->
  critical (w_conn w) = None ->
  exists w',
    pq_fetch cfg w = Some (-1, w') /\
    raised w' /\
    pgres (w_curs w') = None /\
    w_trace w' = (w_trace w ++ [Call_PQclear r])%list /\
    w_pg w' = w_pg w /\
    upto_closed (w_conn w) (w_conn w').
Proof.
  intros Hres Hst Hcrit.
  assert (runs (pq_fetch cfg) w (fun ex w' =>
    ex = -1 /\ raised w' /\ pgres (w_curs w') = None /\
    w_trace w' = (w_trace w ++ [Call_PQclear r])%list /\
    w_pg w' = w_pg w /\ upto_closed (w_conn w) (w_conn w'))) as H.
  { fetch_enter Hres.
    eapply runs_weaken.
    - destruct (resultStatus r); try discriminate Hst.
      all: apply (failure_case cfg _ r); exact Hres.
    - cbv beta. intros ex w1 (-> & Hraised & Hp & Ht & Hpg & Hup).
      unfold conn_notice_process, conn_notifies_process.
      mauto.
      apply upto_closed_fields in Hup as Hf. destruct Hf as (_ & _ & _ & Hc & _).
      simpl_world. rewrite Hc, Hcrit. apply runs_ret.
      repeat split; auto. }
  destruct H as (ex & w' & Heq & -> & Hrest).
  exists w'. split; [exact Heq|exact Hrest].
Qed.

Lemma pq_fetch_failed_result_witness :
  exists w',
    pq_fetch Scenario.cfg Cases.w_failed = Some (-1, w') /\
    raised w' /\
    pgres (w_curs w') = None /\
    w_trace w' = [Call_PQclear Scenario.fatal_error].
Proof.
  destruct (pq_fetch_failed_result Scenario.cfg Cases.w_failed Scenario.fatal_error)
    as (w' & Heq & Hraised & Hp & Ht & _);
    [reflexivity|reflexivity|reflexivity|].
  exists w'. repeat split; assumption.
Defined.

Lemma pq_resolve_critical_closing (w : world) (crit : string) :
  critical (w_conn w) = Some crit ->
  6 <= strlen crit ->
  runs (pq_resolve_critical 1) w (fun _ w' =>
    critical (w_conn w') = None /\
    w_err w' = Some (plain_error OperationalError (offset 6 crit)) /\
    closed (w_conn w') <> 0 /\ w_pg w' = None /\ w_curs w' = w_curs w).
Proof.
  intros Hcrit Hlen.
  unfold pq_resolve_critical.
  apply runs_bind, runs_gets. rewrite Hcrit.
  apply Z.ltb_ge in Hlen. rewrite Hlen.
  unfold PyErr_SetString. apply runs_bind, runs_modify.
  cbn [Z.eqb Pos.eqb when].
  mstep conn_close_runs. intros ? w1 (Hup & Hclosed & Hpg & Hcurs & _ & Herr & _).
  apply upto_closed_fields in Hup as (_ & _ & _ & Hc & _). simpl_world.
  unfold pq_clear_critical. apply runs_bind, runs_gets. rewrite Hc, Hcrit.
  unfold upd_conn. apply runs_modify. simpl_world.
  repeat split; auto.
Qed.

(** The end of [pq_fetch] on a connection whose critical flag is set. *)
Lemma critical_tail (ex : Z) (w : world) (m : string) :
  critical (w_conn w) = Some m ->
  6 <= strlen m ->
  runs (conn_notice_process;;
        conn_notifies_process;;
        crit <- gets (fun w => critical (w_conn w));;
        match crit with
        | Some _ =>
            (if ex =? -1 then pq_resolve_critical 1 else pq_resolve_critical 0);;
            ret (-1)
        | None => ret ex
        end)%monad w
    (fun ret w' =>
       ret = -1 /\
       w_err w' = Some (plain_error OperationalError (offset 6 m)) /\
       critical (w_conn w') = None /\
       w_curs w' = w_curs w /\
       (ex <> -1 -> closed (w_conn w') = closed (w_conn w) /\ w_pg w' = w_pg w) /\
       (ex = -1 -> closed (w_conn w') <> 0 /\ w_pg w' = None)).
Proof.
  intros Hcrit Hlen.
  unfold conn_notice_process, conn_notifies_process.
  apply runs_bind, runs_ret, runs_bind, runs_ret, runs_bind, runs_gets.
  rewrite Hcrit.
  destruct (ex =? -1) eqn:E.
  - apply Z.eqb_eq in E.
    mstep (pq_resolve_critical_closing w m Hcrit Hlen).
    intros ? w1 (Hnone & Herr & Hclosed & Hpg & Hcurs).
    apply runs_ret. repeat split; auto; contradiction.
  - apply Z.eqb_neq in E.
    apply runs_bind. eexists tt, _.
    split; [apply (pq_resolve_critical_open 0 w m Hcrit Hlen); discriminate|].
    apply runs_ret. simpl_world. repeat split; auto. congruence.
Qed.

(** X15.  When the critical flag holds a message of at least six
    characters, pq_fetch returns -1 even for a successful result, raises
    OperationalError with the message past its first six characters and
    clears the flag. After a COMMAND_OK or TUPLES_OK result the connection
    stays open; after a failed result it is closed. *)
Theorem pq_fetch_resolves_critical (cfg : build) (w : world) (r : PGresult)
  (m : string) :
  pgres (w_curs w) = Some r ->
  critical (w_conn w) = Some m ->
  6 <= strlen m ->
  (resultStatus r = PGRES_COMMAND_OK \/ resultStatus r = PGRES_TUPLES_OK ->
   exists w',
     pq_fetch cfg w = Some (-1, w') /\
     w_err w' = Some (plain_error OperationalError (offset 6 m)) /\
     critical (w_conn w') = None /\
     closed (w_conn w') = closed (w_conn w) /\ w_pg w' = w_pg w) /\
  (failure_status (resultStatus r) = true ->
   exists w',
     pq_fetch cfg w = Some (-1, w') /\
     w_err w' = Some (plain_error OperationalError (offset 6 m)) /\
     critical (w_conn w') = None /\
     closed (w_conn w') <> 0 /\ w_pg w' = None).
Proof.
  intros Hres Hcrit Hlen. split.
  - intros Hst.
    assert (runs (pq_fetch cfg) w (fun ex w' =>
      ex = -1 /\
      w_err w' = Some (plain_error OperationalError (offset 6 m)) /\
      critical (w_conn w') = None /\
      closed (w_conn w') = closed (w_conn w) /\ w_pg w' = w_pg w)) as H.
    { fetch_enter Hres.
      apply runs_weaken with (Q := fun ex w' =>
        ex <> -1 /\ w_conn w' = w_conn w /\ w_pg w' = w_pg w).
      - destruct Hst as [-> | ->].
        + unfold upd_curs, CLEARPGRES_curs, PQclear, trace, upd_curs.
          mauto. simpl_world. rewrite Hres. mauto. simpl_world.
          repeat split. discriminate.
        + unfold upd_curs, _pq_fetch_tuples, upd_curs. mauto. simpl_world.
          repeat split. discriminate.
      - intros ex w1 (Hex & Hconn & Hpg).
        eapply runs_weaken; [apply (critical_tail ex w1 m); congruence|].
        cbv beta. intros ? w2 (-> & Herr & Hnone & _ & Hopen & _).
        destruct (Hopen Hex) as [Hc Hp].
        repeat split; congruence. }
    destruct H as (ex & w' & Heq & -> & Hrest).
    exists w'. split; [exact Heq|exact Hrest].
  - intros Hst.
    assert (runs (pq_fetch cfg) w (fun ex w' =>
      ex = -1 /\
      w_err w' = Some (plain_error OperationalError (offset 6 m)) /\
      critical (w_conn w') = None /\
      closed (w_conn w') <> 0 /\ w_pg w' = None)) as H.
    { fetch_enter Hres.
      eapply runs_weaken.
      - destruct (resultStatus r); try discriminate Hst.
        all: apply (failure_case cfg _ r); exact Hres.
      - cbv beta. intros ex w1 (-> & _ & _ & _ & _ & Hup).
        apply upto_closed_fields in Hup as (_ & _ & _ & Hc & _).
        simpl_world.
        eapply runs_weaken; [apply (critical_tail (-1) w1 m); congruence|].
        cbv beta. intros ? w2 (-> & Herr & Hnone & _ & _ & Hclose).
        destruct (Hclose eq_refl). repeat split; auto. }
    destruct H as (ex & w' & Heq & -> & Hrest).
    exists w'. split; [exact Heq|exact Hrest].
Qed.

Lemma pq_fetch_resolves_critical_witness :
  (exists w',
      pq_fetch Scenario.cfg (Cases.w_poisoned (Scenario.command_ok (Some "3")))
      = Some (-1, w') /\
      w_err w' = Some (plain_error OperationalError " terminating connection") /\
      closed (w_conn w') = 0 /\ w_pg w' <> None) /\
  (exists w',
      pq_fetch Scenario.cfg (Cases.w_poisoned Scenario.fatal_error)
      = Some (-1, w') /\
      w_err w' = Some (plain_error OperationalError " terminating connection") /\
      closed (w_conn w') <> 0 /\ w_pg w' = None).
Proof.
  split.
  - destruct (pq_fetch_resolves_critical Scenario.cfg
                (Cases.w_poisoned (Scenario.command_ok (Some "3")))
                (Scenario.command_ok (Some "3")) "FATAL: terminating connection")
      as [Hok _]; [reflexivity|reflexivity|unfold strlen; cbn; lia|].
    destruct Hok as (w' & Heq & Herr & _ & Hclosed & Hpg); [left; reflexivity|].
    exists w'. repeat split; try assumption. rewrite Hpg. discriminate.
  - destruct (pq_fetch_resolves_critical Scenario.cfg
                (Cases.w_poisoned Scenario.fatal_error)
                Scenario.fatal_error "FATAL: terminating connection")
      as [_ Hko]; [reflexivity|reflexivity|unfold strlen; cbn; lia|].
    destruct Hko as (w' & Heq & Herr & _ & Hclosed & Hpg); [reflexivity|].
    exists w'. repeat split; assumption.
Defined.

(** ** What fetching never touches *)

Lemma keeps_refl (w : world) : keeps w w.
Proof. split; try reflexivity. exists []. now rewrite app_nil_r. Qed.

Lemma keeps_trans (w1 w2 w3 : world) : keeps w1 w2 -> keeps w2 w3 -> keeps w1 w3.
Proof.
  intros [s1 l1 m1 (a1 & t1)] [s2 l2 m2 (a2 & t2)].
  split; try congruence.
  exists (a1 ++ a2)%list. now rewrite t2, t1, app_assoc.
Qed.

Lemma preserves_ret {A} (a : A) : preserves keeps (ret a).
Proof. intros w b w' [= <- <-]. apply keeps_refl. Qed.

Lemma preserves_gets {A} (f : world -> A) : preserves keeps (gets f).
Proof. intros w b w' [= <- <-]. apply keeps_refl. Qed.

Lemma preserves_undefined {A} : preserves keeps (@undefined A).
Proof. intros w b w' [=]. Qed.

Lemma preserves_bind {A B} (m : M A) (k : A -> M B) :
  preserves keeps m -> (forall a, preserves keeps (k a)) ->
  preserves keeps (bind m k).
Proof.
  intros Hm Hk w b w' H. unfold bind in H.
  destruct (m w) as [[a w1]|] eqn:E; [|discriminate].
  eapply keeps_trans; [eapply Hm|eapply Hk]; eassumption.
Qed.

Lemma preserves_modify (f : world -> world) :
  (forall w, keeps w (f w)) -> preserves keeps (modify f).
Proof. intros Hf w b w' [= <- <-]. apply Hf. Qed.

Lemma preserves_fueled {A} (loop : nat -> M A) (measure : world -> nat) :
  (forall fuel, preserves keeps (loop fuel)) ->
  preserves keeps (fun w => loop (measure w) w).
Proof. intros H w a w' Heq. exact (H _ _ _ _ Heq). Qed.

Lemma keeps_curs (c : cursorObject) (w : world) : keeps w (set_curs c w).
Proof. split; try reflexivity. exists []. simpl_world. now rewrite app_nil_r. Qed.

Lemma keeps_err (e : option exception) (w : world) : keeps w (set_err e w).
Proof. split; try reflexivity. exists []. simpl_world. now rewrite app_nil_r. Qed.

Lemma keeps_file (f : PyFile) (w : world) : keeps w (set_file f w).
Proof. split; try reflexivity. exists []. simpl_world. now rewrite app_nil_r. Qed.

Lemma keeps_pg (p : option PGconn) (w : world) : keeps w (set_pg p w).
Proof. split; try reflexivity. exists []. simpl_world. now rewrite app_nil_r. Qed.

Lemma keeps_call (c : call) (w : world) : keeps w (set_trace (w_trace w ++ [c]) w).
Proof. split; try reflexivity. exists [c]. reflexivity. Qed.

Lemma keeps_conn (c : connectionObject) (w : world) :
  status c = status (w_conn w) ->
  isolation_level c = isolation_level (w_conn w) ->
  mark c = mark (w_conn w) ->
  keeps w (set_conn c w).
Proof.
  intros. split; simpl_world; auto. exists []. now rewrite app_nil_r.
Qed.

Lemma preserves_next_reply : preserves keeps next_reply.
Proof.
  intros w r w' H. unfold next_reply in H.
  destruct (w_pg w) as [[st e [|r0 rest]]|]; injection H as <- <-;
    auto using keeps_refl, keeps_pg.
Qed.

Ltac steady :=
  repeat (intros;
    lazymatch goal with
    | |- preserves keeps (bind _ _) => apply preserves_bind
    | |- preserves keeps (ret _) => apply preserves_ret
    | |- preserves keeps (gets _) => apply preserves_gets
    | |- preserves keeps undefined => apply preserves_undefined
    | |- preserves keeps next_reply => apply preserves_next_reply
    | |- preserves keeps (trace _) => unfold trace
    | |- preserves keeps (PQclear _) => unfold PQclear
    | |- preserves keeps PQfinish => unfold PQfinish
    | |- preserves keeps (upd_curs _) => unfold upd_curs
    | |- preserves keeps (upd_conn _) => unfold upd_conn
    | |- preserves keeps (when _ _) => unfold when
    | |- preserves keeps (modify _) =>
        apply preserves_modify; intros;
        first [ apply keeps_curs | apply keeps_err | apply keeps_file
              | apply keeps_pg | apply keeps_call
              | apply keeps_conn;
                repeat match goal with
                       | |- context [if ?b then _ else _] => destruct b
                       end; reflexivity ]
    | |- preserves keeps (fun w => _ (S (_ w)) w) =>
        apply preserves_fueled with (measure := fun w => S (_ w))
    | |- preserves keeps (if ?b then _ else _) => destruct b
    | |- preserves keeps (match ?x with _ => _ end) => destruct x
    | |- preserves keeps _ => solve [eauto]
    end).

Ltac unfold_calls :=
  unfold when, upd_curs, upd_conn, trace, PQexec, PQgetResult, PQclear,
    PQsendQuery, PQflush, PQputCopyData, PQputCopyEnd, PQgetCopyData,
    PQputline, PQendcopy, PQgetline, PQfinish, PQstatus, PQerrorMessage,
    CLEARPGRES_curs, IFCLEARPGRES_curs, IFCLEARPGRES,
    PyErr_SetString, PyErr_Occurred, PyObject_GetAttrString, call_file,
    psyco_set_error, conn_close, conn_notice_process, conn_notifies_process,
    curs_reset, psyco_exec_green, upd_curs, upd_conn, trace, PQclear, PQfinish.

Lemma preserves_pq_raise (cfg : build) (curs : bool) (res : option PGresult) :
  preserves keeps (pq_raise cfg curs res).
Proof. unfold pq_raise. unfold_calls. steady. Qed.

Lemma preserves_get_results (cfg : build) (fuel : nat) :
  preserves keeps (get_results cfg fuel).
Proof.
  induction fuel as [|fuel IH]; cbn [get_results]; [apply preserves_undefined|].
  pose proof (preserves_pq_raise cfg true None).
  unfold_calls. steady.
Qed.

Lemma preserves_grab_results (cfg : build) : preserves keeps (grab_results cfg).
Proof.
  unfold grab_results.
  apply preserves_fueled with (measure := fun w => S (pending_replies w)).
  apply preserves_get_results.
Qed.

Lemma preserves_copy_in_v3 (cfg : build) : preserves keeps (_pq_copy_in_v3 cfg).
Proof.
  assert (forall fuel size, preserves keeps (copy_in_v3_loop fuel size)) as Hloop.
  { induction fuel as [|fuel IH]; intros size; cbn [copy_in_v3_loop];
      [apply preserves_undefined|].
    unfold_calls. steady. }
  pose proof (preserves_pq_raise cfg true None).
  pose proof (preserves_grab_results cfg).
  unfold _pq_copy_in_v3. unfold_calls. steady.
  try (apply (preserves_fueled (fun fuel => copy_in_v3_loop fuel _)
                (fun w => S (pending_file w)));
       intros fuel; apply Hloop).
Qed.

Lemma preserves_copy_in (cfg : build) : preserves keeps (_pq_copy_in cfg).
Proof.
  assert (forall fuel, preserves keeps (copy_in_loop fuel)) as Hloop.
  { induction fuel as [|fuel IH]; cbn [copy_in_loop];
      [apply preserves_undefined|].
    unfold_calls. steady. }
  pose proof (preserves_grab_results cfg).
  unfold _pq_copy_in. unfold_calls. steady.
Qed.

Lemma preserves_copy_out_v3 (cfg : build) : preserves keeps (_pq_copy_out_v3 cfg).
Proof.
  assert (forall fuel, preserves keeps (copy_out_v3_loop fuel)) as Hloop.
  { induction fuel as [|fuel IH]; cbn [copy_out_v3_loop];
      [apply preserves_undefined|].
    unfold_calls. steady. }
  pose proof (preserves_pq_raise cfg true None).
  pose proof (preserves_grab_results cfg).
  unfold _pq_copy_out_v3. unfold_calls. steady.
Qed.

Lemma preserves_copy_out (cfg : build) : preserves keeps (_pq_copy_out cfg).
Proof.
  assert (forall fuel ll, preserves keeps (copy_out_loop fuel ll)) as Hloop.
  { induction fuel as [|fuel IH]; intros ll; cbn [copy_out_loop];
      [apply preserves_undefined|].
    unfold_calls. steady. }
  pose proof (preserves_grab_results cfg).
  unfold _pq_copy_out. unfold_calls. steady.
  try (apply (preserves_fueled (fun fuel => copy_out_loop fuel false)
                (fun w => S (pending_replies w)));
       intros fuel; apply Hloop).
Qed.

Lemma preserves_pq_resolve_critical (close : Z) :
  preserves keeps (pq_resolve_critical close).
Proof. unfold pq_resolve_critical, pq_clear_critical. unfold_calls. steady. Qed.

Lemma preserves_pq_fetch (cfg : build) : preserves keeps (pq_fetch cfg).
Proof.
  pose proof (preserves_pq_raise cfg true None).
  pose proof (preserves_copy_in_v3 cfg).
  pose proof (preserves_copy_in cfg).
  pose proof (preserves_copy_out_v3 cfg).
  pose proof (preserves_copy_out cfg).
  pose proof (preserves_pq_resolve_critical 0).
  pose proof (preserves_pq_resolve_critical 1).
  unfold pq_fetch, _pq_fetch_tuples. unfold_calls. steady.
Qed.

(** ** pq_execute *)

(** X16.  On a connection without critical flag whose session is not in
    status CONNECTION_OK, pq_execute returns -1, sets OperationalError
    with the connection's error message and changes nothing else: nothing
    is sent, and the cursor and the connection are untouched. *)
Theorem pq_execute_on_bad_connection (cfg : build) (query : string)
  (async : Z) (w : world) :
  critical (w_conn w) = None ->
  session_status w <> CONNECTION_OK ->
  pq_execute cfg query async w =
  Some (-1, set_err (Some (plain_error OperationalError (error_now w))) w).
Proof.
  intros Hcrit Hst.
  assert (runs (pq_execute cfg query async) w (fun ret w' =>
    ret = -1 /\
    w' = set_err (Some (plain_error OperationalError (error_now w))) w))
    as (ret & w' & Heq & -> & ->); [|exact Heq].
  unfold pq_execute, session_status, error_now in *. mrun2. rewrite Hcrit. mrun2.
  destruct (w_pg w) as [pg|] eqn:Hpg; [destruct (pg_status pg) eqn:E|];
    try contradiction; cbn [ConnStatusType_eqb negb];
    mrun2; rewrite ?Hpg; mrun2; split; reflexivity.
Qed.

Lemma pq_execute_on_bad_connection_witness :
  pq_execute Scenario.cfg "SELECT 1" 0 Cases.w_broken =
  Some (-1,
        set_err (Some (plain_error OperationalError "could not connect to server"))
          Cases.w_broken).
Proof.
  apply (pq_execute_on_bad_connection Scenario.cfg "SELECT 1" 0 Cases.w_broken).
  - reflexivity.
  - discriminate.
Defined.

Lemma runs_preserves {A} (R : world -> world -> Prop) (m : M A) (w : world)
  (Q : A -> world -> Prop) :
  runs m w Q -> preserves R m -> runs m w (fun a w' => Q a w' /\ R w w').
Proof.
  intros (a & w' & Heq & HQ) HR. exists a, w'. split; [exact Heq|].
  split; [exact HQ|exact (HR _ _ _ Heq)].
Qed.

Lemma begin_query_levels (level : Z) :
  0 <= level <= 2 -> (level =? 0) = false ->
  begin_query_at level = Some (Some (begin_command level)).
Proof.
  intros Hl H0. apply Z.eqb_neq in H0.
  assert (level = 1 \/ level = 2) as [-> | ->] by lia; reflexivity.
Qed.

(** [pq_begin_locked], with what its command leaves behind. *)
Lemma pq_begin_locked_exact (w : world) :
  0 <= isolation_level (w_conn w) <= 2 ->
  runs (pq_begin_locked None None) w (fun out w' =>
    let query := begin_command (isolation_level (w_conn w)) in
    if begins (w_conn w)
    then
      fst (fst out) = (if next_command_ok w then 0 else -1) /\
      w_trace w' =
        (w_trace w ++ exec_call (w_green w) query
           :: (if next_command_ok w then clear_trace (command_result w) else []))%list /\
      w_conn w' = (if next_command_ok w
                   then set_status CONN_STATUS_BEGIN (w_conn w)
                   else w_conn w) /\
      w_curs w' = w_curs w /\ w_green w' = w_green w /\
      (next_command_ok w = true -> w_err w' = w_err w) /\
      (next_command_ok w = false ->
       pq_execute_command_locked query w = Some (out, w'))
    else out = (0, None, None) /\ w' = w).
Proof.
  intros Hlevel. unfold pq_begin_locked, begins.
  apply runs_bind, runs_gets. apply runs_bind, runs_gets.
  destruct ((isolation_level (w_conn w) =? 0)
            || negb (conn_status_eqb (status (w_conn w)) CONN_STATUS_READY)) eqn:E;
    cbn [negb]; [apply runs_ret; auto|].
  apply orb_false_iff in E as [E0 _].
  rewrite (begin_query_levels _ Hlevel E0). cbv zeta.
  destruct (pq_execute_command_locked_exact
              (begin_command (isolation_level (w_conn w))) w)
    as (out & w1 & Heq & Hout & Htr & _ & Hconn & Hcurs & _ & Hgreen & _ & Herr).
  apply runs_bind. exists out, w1. split; [exact Heq|].
  rewrite next_command_ok_result in *. unfold is_command_ok in *.
  destruct out as [[rv res] error].
  destruct (command_result w) as [r|] eqn:Hres;
    [destruct (ExecStatusType_eqb (resultStatus r) PGRES_COMMAND_OK) eqn:Hok|];
    injection Hout as -> -> ->; cbn [Z.eqb when fst].
  - apply runs_bind, runs_modify, runs_ret. simpl_world. rewrite Hconn.
    repeat split; auto; try discriminate. intros _. apply Herr. discriminate.
  - apply runs_bind, runs_ret, runs_ret. repeat split; auto. discriminate.
  - apply runs_bind, runs_ret, runs_ret. repeat split; auto. discriminate.
Qed.

(** X17.  On a ready connection at isolation level 1 or 2, when the BEGIN
    command is not accepted, pq_execute returns -1 with an exception set
    and the status still READY; the only call made to the backend is the
    BEGIN command (and the release of its result), so the query is never
    sent. *)
Theorem pq_execute_begin_refused (cfg : build) (query : string) (async : Z)
  (w : world) :
  critical (w_conn w) = None ->
  session_status w = CONNECTION_OK ->
  status (w_conn w) = CONN_STATUS_READY ->
  isolation_level (w_conn w) = 1 \/ isolation_level (w_conn w) = 2 ->
  next_command_ok w = false ->
  exists w',
    pq_execute cfg query async w = Some (-1, w') /\
    raised w' /\
    status (w_conn w') = CONN_STATUS_READY /\
    w_trace w' =
      (w_trace w
       ++ exec_call (w_green w) (begin_command (isolation_level (w_conn w)))
       :: clear_trace (command_result w))%list.
Proof.
  intros Hcrit Hok Hst Hlevel Hnext.
  assert (begins (w_conn w) = true) as Hb.
  { unfold begins. rewrite Hst. destruct Hlevel as [-> | ->]; reflexivity. }
  assert (runs (pq_execute cfg query async) w (fun ret w' =>
    ret = -1 /\ raised w' /\ status (w_conn w') = CONN_STATUS_READY /\
    w_trace w' =
      (w_trace w
       ++ exec_call (w_green w) (begin_command (isolation_level (w_conn w)))
       :: clear_trace (command_result w))%list)) as H.
  { unfold pq_execute. apply runs_bind, runs_gets. rewrite Hcrit.
    unfold PQstatus. apply runs_bind, runs_gets.
    unfold session_status in Hok. rewrite Hok. cbn [ConnStatusType_eqb negb].
    apply runs_bind.
    eapply runs_weaken; [apply pq_begin_locked_exact; lia|]. cbv beta zeta.
    rewrite Hb, Hnext. intros [[rv res] error] w1 (Hrv & _ & _ & _ & _ & _ & Heq).
    cbn [fst] in Hrv. subst rv. cbn [Z.ltb Z.compare].
    pose proof (command_completed cfg _ _ _ _ (Heq eq_refl)) as Hdone.
    cbn [fst snd Z.ltb Z.compare when] in Hdone.
    mstep Hdone. intros ? w2 (_ & Hup & Htr & _ & _ & _ & _ & _ & Hko & _).
    apply runs_ret. apply upto_closed_fields in Hup as (Hs & _).
    repeat split; auto. congruence. }
  destruct H as (ret & w' & Heq & -> & Hrest).
  exists w'. split; [exact Heq|exact Hrest].
Qed.

Lemma pq_execute_begin_refused_witness :
  exists w',
    pq_execute Scenario.cfg "INSERT INTO t VALUES (1)" 0 Scenario.w_refused
    = Some (-1, w') /\
    raised w' /\
    status (w_conn w') = CONN_STATUS_READY /\
    w_trace w' =
      [ Call_PQexec "BEGIN; SET TRANSACTION ISOLATION LEVEL READ COMMITTED";
        Call_PQclear Scenario.fatal_error ].
Proof.
  apply (pq_execute_begin_refused Scenario.cfg "INSERT INTO t VALUES (1)" 0
           Scenario.w_refused); try reflexivity.
  left; reflexivity.
Defined.

Lemma runs_and {A} (m : M A) (w : world) (Q1 Q2 : A -> world -> Prop) :
  runs m w Q1 -> runs m w Q2 -> runs m w (fun a w' => Q1 a w' /\ Q2 a w').
Proof.
  intros (a & w' & Heq & H1) (a2 & w2 & Heq2 & H2).
  rewrite Heq in Heq2. injection Heq2 as <- <-.
  exists a, w'. auto.
Qed.

(** The submission of the query: the result the cursor held is released,
    then the query is handed to the backend. *)
Lemma pq_execute_submit_trace (query : string) (async : Z) (w : world) :
  async = 0 \/ async = 1 ->
  runs (pq_execute_submit query async) w (fun out w' =>
    w_conn w' = w_conn w /\
    exists added,
      w_trace w' =
        (w_trace w ++ clear_trace (pgres (w_curs w))
         ++ query_call (w_green w) async query :: added)%list).
Proof.
  intros Hasync. unfold pq_execute_submit, query_call, exec_call.
  destruct Hasync as [-> | ->]; cbn [Z.eqb Pos.eqb].
  - apply runs_bind. eexists tt, _. split; [apply IFCLEARPGRES_curs_exact|].
    apply runs_bind, runs_gets.
    assert (forall w0,
      runs (if negb (w_green w0) then PQexec query else psyco_exec_green query) w0
        (fun res w' =>
           w_conn w' = w_conn w0 /\ w_curs w' = w_curs w0 /\
           exists e,
             w_err w' = e /\
             w_trace w' =
               (w_trace w0 ++ [if w_green w0 then Call_exec_green query
                               else Call_PQexec query])%list)) as Hexec.
    { intros w0. destruct (w_green w0); cbn [negb];
        unfold PQexec, psyco_exec_green; mrun2;
        destruct (w_pg w0) as [[st e [|r rest]]|]; mrun2; eauto;
        destruct (r_wait r); mrun2; eauto. }
    match goal with
    | |- runs (bind (if negb (w_green ?w0) then _ else _) _) _ _ =>
        mstep (Hexec w0)
    end.
    intros res w1 (Hconn & Hcurs & e & _ & Htr).
    assert (w_conn w1 = w_conn w /\
            w_trace w1 =
              (w_trace w ++ clear_trace (pgres (w_curs w))
               ++ [if w_green w then Call_exec_green query
                   else Call_PQexec query])%list) as [Hc Ht].
    { rewrite Hconn, Htr.
      destruct (pgres (w_curs w)); simpl_world; cbn [clear_trace app];
        rewrite <- ?app_assoc; auto. }
    apply runs_bind, runs_modify. simpl_world.
    destruct res as [r|].
    + apply runs_ret. simpl_world. split; [exact Hc|].
      exists []. exact Ht.
    + mrun2. destruct (w_err w1); mrun2.
      * split; [exact Hc|]. exists []. exact Ht.
      * destruct (w_pg w1); mrun2; (split; [exact Hc|]); exists []; exact Ht.
  - apply runs_bind. eexists tt, _. split; [apply IFCLEARPGRES_curs_exact|].
    assert (forall w0 (c : call),
      runs (modify (fun w => set_trace (w_trace w ++ [c]) w);;
            r <- next_reply;; ret (reply_int 0 r))%monad w0
        (fun _ w' =>
           w_conn w' = w_conn w0 /\ w_trace w' = (w_trace w0 ++ [c])%list)
      /\
      runs (modify (fun w => set_trace (w_trace w ++ [c]) w);;
            r <- next_reply;; ret (reply_int (-1) r))%monad w0
        (fun _ w' =>
           w_conn w' = w_conn w0 /\ w_trace w' = (w_trace w0 ++ [c])%list))
      as Hcall.
    { intros w0 c. split; mrun2;
        destruct (w_pg w0) as [[st e [|r rest]]|]; mrun2; auto. }
    unfold PQsendQuery, PQflush, trace.
    match goal with
    | |- runs (bind _ _) ?w0 _ =>
        mstep (proj1 (Hcall w0 (Call_PQsendQuery query)))
    end.
    intros sent w1 (Hconn & Htr).
    assert (w_conn w1 = w_conn w /\
            w_trace w1 =
              (w_trace w ++ clear_trace (pgres (w_curs w))
               ++ [Call_PQsendQuery query])%list) as [Hc Ht].
    { rewrite Hconn, Htr.
      destruct (pgres (w_curs w)); simpl_world; cbn [clear_trace app];
        rewrite <- ?app_assoc; auto. }
    destruct (sent =? 0).
    + mrun2. destruct (w_pg w1); mrun2; (split; [exact Hc|]); exists []; exact Ht.
    + mstep (proj2 (Hcall w1 Call_PQflush)). intros flushed w2 (Hconn2 & Htr2).
      assert (w_conn w2 = w_conn w /\
              exists added,
                w_trace w2 =
                  (w_trace w ++ clear_trace (pgres (w_curs w))
                   ++ Call_PQsendQuery query :: added)%list) as Hgoal.
      { split; [congruence|]. exists [Call_PQflush].
        rewrite Htr2, Ht, <- !app_assoc. reflexivity. }
      destruct (flushed =? 0); [apply runs_ret; exact Hgoal|].
      destruct (flushed =? 1); apply runs_ret; exact Hgoal.
Qed.

(** X18.  On a healthy connection, and provided the BEGIN command is
    accepted when one is due, pq_execute sends the BEGIN command of the
    isolation level before the query exactly when the connection is READY
    and not in autocommit, and the status is then BEGIN; otherwise the
    query is the first thing sent and the status is unchanged. In both
    cases the cursor's previous result is released before the query is
    handed over, and the isolation level and the mark are kept. *)
Theorem pq_execute_begins_transaction (cfg : build) (query : string)
  (async : Z) (w : world) :
  async = 0 \/ async = 1 ->
  critical (w_conn w) = None ->
  session_status w = CONNECTION_OK ->
  0 <= isolation_level (w_conn w) <= 2 ->
  (begins (w_conn w) = true -> next_command_ok w = true) ->
  exists ret w' added,
    pq_execute cfg query async w = Some (ret, w') /\
    w_trace w' =
      (w_trace w
       ++ (if begins (w_conn w)
           then exec_call (w_green w) (begin_command (isolation_level (w_conn w)))
                :: clear_trace (command_result w)
           else [])
       ++ clear_trace (pgres (w_curs w))
       ++ query_call (w_green w) async query :: added)%list /\
    status (w_conn w') =
      (if begins (w_conn w) then CONN_STATUS_BEGIN else status (w_conn w)) /\
    isolation_level (w_conn w') = isolation_level (w_conn w) /\
    mark (w_conn w') = mark (w_conn w).
Proof.
  intros Hasync Hcrit Hok Hlevel Hnext.
  assert (runs (pq_execute cfg query async) w (fun ret w' =>
    exists added,
    w_trace w' =
      (w_trace w
       ++ (if begins (w_conn w)
           then exec_call (w_green w) (begin_command (isolation_level (w_conn w)))
                :: clear_trace (command_result w)
           else [])
       ++ clear_trace (pgres (w_curs w))
       ++ query_call (w_green w) async query :: added)%list /\
    status (w_conn w') =
      (if begins (w_conn w) then CONN_STATUS_BEGIN else status (w_conn w)) /\
    isolation_level (w_conn w') = isolation_level (w_conn w) /\
    mark (w_conn w') = mark (w_conn w))) as H.
  { unfold pq_execute. apply runs_bind, runs_gets. rewrite Hcrit.
    unfold PQstatus. apply runs_bind, runs_gets.
    unfold session_status in Hok. rewrite Hok. cbn [ConnStatusType_eqb negb].
    apply runs_bind.
    eapply runs_weaken; [apply (pq_begin_locked_exact w Hlevel)|]. cbv beta zeta.
    intros [[rv res] error] w1 Hbegin.
    apply runs_weaken with (Q := fun ret w' =>
      exists added,
        w_trace w' =
          (w_trace w1 ++ clear_trace (pgres (w_curs w1))
           ++ query_call (w_green w1) async query :: added)%list /\
        status (w_conn w') = status (w_conn w1) /\
        isolation_level (w_conn w') = isolation_level (w_conn w1) /\
        mark (w_conn w') = mark (w_conn w1)).
    - assert (rv = 0 /\ critical (w_conn w1) = None) as [-> Hc1].
      { destruct (begins (w_conn w)).
        - rewrite (Hnext eq_refl) in Hbegin.
          destruct Hbegin as (Hrv & _ & Hconn & _). cbn [fst] in Hrv.
          split; [exact Hrv|]. rewrite Hconn. exact Hcrit.
        - destruct Hbegin as [[= -> _ _] ->]. auto. }
      cbn [Z.ltb Z.compare].
      apply runs_bind.
      eapply runs_weaken;
        [apply (runs_and _ _ _ _ (pq_execute_submit_trace query async w1 Hasync)
                  (pq_execute_submit_runs query async w1))|].
      cbv beta. intros out w2 ((Hconn2 & added & Htr2) & Hcrit2 & Hout).
      destruct out as [v|state].
      + apply runs_ret. exists added. rewrite Hconn2. auto.
      + destruct Hasync as [-> | ->]; cbn [Z.eqb Pos.eqb].
        * apply runs_bind.
          eapply runs_weaken;
            [apply (runs_preserves keeps _ _ _
                      (pq_fetch_runs cfg w2 ltac:(congruence))
                      (preserves_pq_fetch cfg))|].
          cbv beta. intros fetched w3 (_ & [Hs Hl Hm (added3 & Ht)]).
          assert (exists added0,
            w_trace w3 =
              (w_trace w1 ++ clear_trace (pgres (w_curs w1))
               ++ query_call (w_green w1) 0 query :: added0)%list /\
            status (w_conn w3) = status (w_conn w1) /\
            isolation_level (w_conn w3) = isolation_level (w_conn w1) /\
            mark (w_conn w3) = mark (w_conn w1)) as Hgoal.
          { exists (added ++ added3)%list. rewrite Ht, Htr2, Hs, Hl, Hm, Hconn2.
            rewrite <- !app_assoc. cbn [app]. auto. }
          destruct (fetched =? -1); apply runs_ret; exact Hgoal.
        * unfold upd_conn. apply runs_bind, runs_modify, runs_bind, runs_modify.
          apply runs_ret. simpl_world. exists added. rewrite Hconn2. auto.
    - cbv beta. intros ret w' (added & Htr & Hs & Hl & Hm).
      exists added. rewrite Htr, Hs, Hl, Hm.
      destruct (begins (w_conn w)).
      + rewrite (Hnext eq_refl) in Hbegin.
        destruct Hbegin as (_ & Htr1 & Hconn1 & Hcurs1 & Hgreen1 & _).
        rewrite Htr1, Hconn1, Hcurs1, Hgreen1, <- !app_assoc. cbn [app].
        simpl_world. auto.
      + destruct Hbegin as [_ ->]. auto. }
  destruct H as (ret & w' & Heq & added & Hrest).
  exists ret, w', added. split; [exact Heq|exact Hrest].
Qed.

Lemma pq_execute_begins_transaction_witness :
  (exists ret w' added,
      pq_execute Scenario.cfg "INSERT INTO t VALUES (1), (2), (3)" 0
        Scenario.w_insert = Some (ret, w') /\
      w_trace w' =
        (Call_PQexec "BEGIN; SET TRANSACTION ISOLATION LEVEL READ COMMITTED"
         :: Call_PQclear (Scenario.command_ok None)
         :: Call_PQexec "INSERT INTO t VALUES (1), (2), (3)" :: added)%list /\
      status (w_conn w') = CONN_STATUS_BEGIN) /\
  (exists ret w' added,
      pq_execute Scenario.cfg "VACUUM" 0 Cases.w_autocommit = Some (ret, w') /\
      w_trace w' = (Call_PQexec "VACUUM" :: added)%list /\
      status (w_conn w') = CONN_STATUS_READY).
Proof.
  split.
  - destruct (pq_execute_begins_transaction Scenario.cfg
                "INSERT INTO t VALUES (1), (2), (3)" 0 Scenario.w_insert)
      as (ret & w' & added & Heq & Htr & Hst & _);
      [left; reflexivity|reflexivity|reflexivity|simpl; lia|reflexivity|].
    exists ret, w', added. repeat split; assumption.
  - destruct (pq_execute_begins_transaction Scenario.cfg "VACUUM" 0
                Cases.w_autocommit)
      as (ret & w' & added & Heq & Htr & Hst & _);
      [left; reflexivity|reflexivity|reflexivity|simpl; lia|discriminate|].
    exists ret, w', added. repeat split; assumption.
Defined.

(** X19.  For an asynchronous query with no BEGIN to send: if PQsendQuery
    answers 0, pq_execute returns -1 with OperationalError and does not
    call PQflush; if PQflush answers 0 or 1 it returns 0 and records the
    cursor as the asynchronous one with status ASYNC_READ or ASYNC_WRITE;
    on any other answer of PQflush it returns -1 without setting an
    exception and without recording the cursor. *)
Theorem pq_execute_async_submission (cfg : build) (query : string) (w : world)
  (sent flushed : reply) (rest : list reply) (e : string) :
  critical (w_conn w) = None ->
  begins (w_conn w) = false ->
  w_pg w = Some (mkPGconn CONNECTION_OK e (sent :: flushed :: rest)) ->
  exists ret w',
    pq_execute cfg query 1 w = Some (ret, w') /\
    (r_int sent = 0 ->
     ret = -1 /\
     w_err w' = Some (plain_error OperationalError (r_error sent)) /\
     w_conn w' = w_conn w /\ session_script w' = flushed :: rest) /\
    (r_int sent <> 0 ->
     session_script w' = rest /\
     (r_int flushed = 0 ->
      ret = 0 /\ w_err w' = w_err w /\
      w_conn w' = set_async_cursor true (set_async_status ASYNC_READ (w_conn w))) /\
     (r_int flushed = 1 ->
      ret = 0 /\ w_err w' = w_err w /\
      w_conn w' = set_async_cursor true (set_async_status ASYNC_WRITE (w_conn w))) /\
     (r_int flushed <> 0 -> r_int flushed <> 1 ->
      ret = -1 /\ w_err w' = w_err w /\ w_conn w' = w_conn w)).
Proof.
  intros Hcrit Hb Hpg.
  assert (runs (pq_execute cfg query 1) w (fun ret w' =>
    (r_int sent = 0 ->
     ret = -1 /\
     w_err w' = Some (plain_error OperationalError (r_error sent)) /\
     w_conn w' = w_conn w /\ session_script w' = flushed :: rest) /\
    (r_int sent <> 0 ->
     session_script w' = rest /\
     (r_int flushed = 0 ->
      ret = 0 /\ w_err w' = w_err w /\
      w_conn w' = set_async_cursor true (set_async_status ASYNC_READ (w_conn w))) /\
     (r_int flushed = 1 ->
      ret = 0 /\ w_err w' = w_err w /\
      w_conn w' = set_async_cursor true (set_async_status ASYNC_WRITE (w_conn w))) /\
     (r_int flushed <> 0 -> r_int flushed <> 1 ->
      ret = -1 /\ w_err w' = w_err w /\ w_conn w' = w_conn w)))) as H.
  { unfold pq_execute. mrun2. rewrite Hcrit. mrun2. rewrite Hpg.
    simpl_world. cbn [ConnStatusType_eqb negb].
    unfold pq_begin_locked. mrun2.
    unfold begins in Hb. apply negb_false_iff in Hb. rewrite Hb. mrun2.
    cbn [Z.ltb Z.compare].
    assert (forall w0,
      w_pg w0 = w_pg w -> w_conn w0 = w_conn w -> w_err w0 = w_err w ->
      runs (sent0 <- PQsendQuery query;;
            if sent0 =? 0
            then msg <- PQerrorMessage;;
                 PyErr_SetString OperationalError msg;; ret (inl (-1))
            else flushed0 <- PQflush;;
                 (if flushed0 =? 0 then ret (inr ASYNC_READ)
                  else if flushed0 =? 1 then ret (inr ASYNC_WRITE)
                  else ret (inl (-1))))%monad w0
        (fun out w' =>
           w_conn w' = w_conn w /\
           (r_int sent = 0 ->
            out = inl (-1) /\
            w_err w' = Some (plain_error OperationalError (r_error sent)) /\
            session_script w' = flushed :: rest) /\
           (r_int sent <> 0 ->
            session_script w' = rest /\ w_err w' = w_err w /\
            out = (if r_int flushed =? 0 then inr ASYNC_READ
                   else if r_int flushed =? 1 then inr ASYNC_WRITE
                   else inl (-1))))) as Hsend.
    { intros w0 Hpg0 Hconn0 Herr0. unfold PQsendQuery, PQflush. mrun2.
      rewrite Hpg0, Hpg. simpl_world. mrun2.
      destruct (r_int sent =? 0) eqn:E1;
        [apply Z.eqb_eq in E1|apply Z.eqb_neq in E1]; mrun2.
      - repeat split; auto; try contradiction.
      - destruct (r_int flushed =? 0); [|destruct (r_int flushed =? 1)]; mrun2;
          repeat split; auto; try contradiction. }
    apply runs_bind.
    eapply runs_weaken.
    - unfold pq_execute_submit. cbn [Z.eqb Pos.eqb].
      apply runs_bind. eexists tt, _. split; [apply IFCLEARPGRES_curs_exact|].
      apply Hsend; destruct (pgres (w_curs w)); reflexivity.
    - cbv beta. intros out w1 (Hconn & Hfail & Hsent).
      destruct (Z.eq_dec (r_int sent) 0) as [E1|E1].
      + destruct (Hfail E1) as (-> & Herr & Hs). apply runs_ret.
        split; [auto|contradiction].
      + destruct (Hsent E1) as (Hs & Herr & ->).
        destruct (r_int flushed =? 0) eqn:E2;
          [apply Z.eqb_eq in E2
          |apply Z.eqb_neq in E2;
           destruct (r_int flushed =? 1) eqn:E3;
           [apply Z.eqb_eq in E3|apply Z.eqb_neq in E3]];
          cbn [Z.eqb Pos.eqb]; mrun2; cbn [Z.sub Z.opp Z.add Z.pos_sub];
          (split; [intros; contradiction|]); intros _;
          (split; [exact Hs|]); rewrite ?Hconn; repeat split; intros;
          auto; try congruence; try lia. }
  destruct H as (ret & w' & Heq & Hrest).
  exists ret, w'. split; [exact Heq|exact Hrest].
Qed.

Lemma pq_execute_async_submission_witness :
  exists w',
    pq_execute Scenario.cfg "SELECT pg_sleep(1)" 1
      (Scenario.make (Scenario.cursor None)
         (Scenario.connection CONN_STATUS_BEGIN None)
         [Scenario.answer_int 1; Scenario.answer_int 5] Scenario.no_file)
    = Some (-1, w') /\
    w_err w' = None /\
    async_cursor (w_conn w') = false.
Proof.
  destruct (pq_execute_async_submission Scenario.cfg "SELECT pg_sleep(1)"
              (Scenario.make (Scenario.cursor None)
                 (Scenario.connection CONN_STATUS_BEGIN None)
                 [Scenario.answer_int 1; Scenario.answer_int 5] Scenario.no_file)
              (Scenario.answer_int 1) (Scenario.answer_int 5) [] "")
    as (ret & w' & Heq & _ & Hsent); [reflexivity|reflexivity|reflexivity|].
  destruct Hsent as (_ & _ & _ & Hbad); [discriminate|].
  destruct Hbad as (-> & Herr & Hconn); [discriminate|discriminate|].
  exists w'. rewrite Hconn. repeat split; assumption.
Defined.

(** ** COPY with the old protocol *)

Ltac mstep3 :=
  lazymatch goal with
  | |- runs (bind IFCLEARPGRES_curs _) _ _ => fail
  | |- runs (PQputline _) _ _ => unfold PQputline
  | |- runs PQendcopy _ _ => unfold PQendcopy
  | |- runs PQgetline _ _ => unfold PQgetline
  | _ => mstep2
  end.

Ltac mrun3 :=
  simpl_world; cbn [reply_result reply_int negb];
  repeat (mstep3; simpl_world; cbn [reply_result reply_int negb]).

Lemma runs_fueled {A} (loop : nat -> M A) (fuel : world -> nat) (w : world)
  (Q : A -> world -> Prop) :
  runs (loop (fuel w)) w Q -> runs (fun w0 => loop (fuel w0) w0) w Q.
Proof. intros H. exact H. Qed.

(** The loop of [_pq_copy_in] over the lines the backend takes. *)
Lemma copy_in_loop_prefix (Q : bool -> world -> Prop) :
  forall (lines : list string) (sends : list reply) (fuel : nat) (w : world)
         (rest_file : list pyresult) (rest_pg : list reply)
         (st : ConnStatusType) (e : string),
    forallb nonempty lines = true ->
    List.length sends = List.length lines ->
    forallb line_taken sends = true ->
    file_script (w_file w) =
      (map (fun l => Returns (PyString l)) lines ++ rest_file)%list ->
    w_pg w = Some (mkPGconn st e (sends ++ rest_pg)) ->
    (forall w1 st1 e1,
        w_trace w1 =
          (w_trace w ++ map (fun l => Call_PQputline (until_nul l)) lines)%list ->
        w_pg w1 = Some (mkPGconn st1 e1 rest_pg) ->
        w_file w1 =
          mkPyFile (file_attrs (w_file w)) rest_file
            (file_calls (w_file w) ++ repeat Py_readline (List.length lines))%list ->
        w_curs w1 = w_curs w -> w_conn w1 = w_conn w -> w_err w1 = w_err w ->
        runs (copy_in_loop fuel) w1 Q) ->
    runs (copy_in_loop (List.length lines + fuel)) w Q.
Proof.
  induction lines as [|l lines IH];
    intros sends fuel w rest_file rest_pg st e Hne Hlen Htaken Hfile Hpg Hk.
  - destruct sends; [|discriminate Hlen]. cbn [List.length Nat.add].
    apply (Hk w st e); auto.
    + cbn [map]. now rewrite app_nil_r.
    + cbn [repeat List.length]. rewrite app_nil_r. cbn [map app] in Hfile.
      rewrite <- Hfile. now destruct (w_file w).
  - destruct sends as [|s sends]; [discriminate Hlen|].
    cbn [map app forallb List.length] in *.
    apply andb_true_iff in Hne as [Hl Hne].
    apply andb_true_iff in Htaken as [Hs Htaken].
    unfold nonempty in Hl. apply negb_true_iff in Hl.
    unfold line_taken in Hs.
    cbn [Nat.add copy_in_loop].
    mrun3. rewrite Hfile. mrun3. rewrite Hl. mrun3. rewrite Hpg. mrun3.
    rewrite Hs. cbn [negb].
    eapply (IH sends fuel _ rest_file rest_pg); simpl_world;
      try eassumption; try reflexivity; try lia.
    intros w1 st1 e1 Ht1 Hpg1 Hf1 Hc1 Hco1 He1. simpl_world.
    apply (Hk w1 st1 e1); auto.
    + rewrite Ht1. cbn [map]. now rewrite <- app_assoc.
    + rewrite Hf1. f_equal. cbn [repeat]. now rewrite <- app_assoc.
Qed.

Lemma copy_in_loop_stops (fuel : nat) (w : world) (stop : pyresult)
  (rest : list pyresult) :
  file_script (w_file w) = stop :: rest ->
  ends_input stop = true ->
  copy_in_loop (S fuel) w =
  Some (true,
        set_file (mkPyFile (file_attrs (w_file w)) rest
                    (file_calls (w_file w) ++ [Py_readline])) w).
Proof.
  intros Hfile Hstop. cbn [copy_in_loop].
  unfold call_file. cbv [bind gets modify ret]. rewrite Hfile.
  destruct stop as [[line|]|ex]; cbn [ends_input] in Hstop;
    try discriminate Hstop; simpl_world; [rewrite Hstop|]; reflexivity.
Qed.

(** The part of the four COPY functions that follows the data. *)
Lemma release_and_drain (cfg : build) (w : world) {B} (k : M B)
  (Q : B -> world -> Prop) :
  (forall w', copy_closed w w' -> runs k w' Q) ->
  runs (IFCLEARPGRES_curs;; grab_results cfg;; k)%monad w Q.
Proof.
  intros Hk.
  apply runs_bind. eexists tt, _. split; [apply IFCLEARPGRES_curs_exact|].
  apply runs_bind.
  eapply runs_weaken; [apply grab_results_drains|]. cbv beta.
  intros ? w1 [Dt Dp Dr Dra Dq Dc Df]. apply Hk. unfold copy_closed.
  destruct (pgres (w_curs w)) as [r|] eqn:Hres; unfold session_script in *;
    simpl_world; cbn [clear_trace app] in *;
    rewrite ?Dt, ?Dp, <- ?app_assoc; simpl_world; repeat split; auto.
Qed.

(** X20.  When readline returns non-empty lines that PQputline all takes,
    followed by None or an empty string, _pq_copy_in sends each line in
    order (up to its first NUL), then the end-of-data line, then calls
    PQendcopy, releases the cursor's result and drains the queued results,
    raising if one of them is fatal; it returns 1. *)
Theorem copy_in_sends_lines (cfg : build) (w : world) (lines : list string)
  (sends : list reply) (stop : pyresult) (terminator endcopy : reply)
  (after_file : list pyresult) (after_pg : list reply)
  (st : ConnStatusType) (e : string) :
  has_attr "readline" (w_file w) = true ->
  file_script (w_file w) =
    (map (fun l => Returns (PyString l)) lines ++ stop :: after_file)%list ->
  ends_input stop = true ->
  forallb nonempty lines = true ->
  w_pg w = Some (mkPGconn st e (sends ++ terminator :: endcopy :: after_pg)) ->
  List.length sends = List.length lines ->
  forallb line_taken sends = true ->
  exists w',
    _pq_copy_in cfg w = Some (1, w') /\
    w_trace w' =
      (w_trace w ++ map (fun l => Call_PQputline (until_nul l)) lines
       ++ [Call_PQputline ("\." ++ newline); Call_PQendcopy]
       ++ clear_trace (pgres (w_curs w)) ++ drain_trace (queued after_pg))%list /\
    pgres (w_curs w') = None /\
    session_script w' = after_queued after_pg /\
    (existsb is_fatal (queued after_pg) = true -> raised w') /\
    (existsb is_fatal (queued after_pg) = false -> w_err w' = w_err w).
Proof.
  intros Hattr Hfile Hstop Hne Hpg Hlen Htaken.
  assert (runs (_pq_copy_in cfg) w (fun ret w' =>
    ret = 1 /\
    w_trace w' =
      (w_trace w ++ map (fun l => Call_PQputline (until_nul l)) lines
       ++ [Call_PQputline ("\." ++ newline); Call_PQendcopy]
       ++ clear_trace (pgres (w_curs w)) ++ drain_trace (queued after_pg))%list /\
    pgres (w_curs w') = None /\
    session_script w' = after_queued after_pg /\
    (existsb is_fatal (queued after_pg) = true -> raised w') /\
    (existsb is_fatal (queued after_pg) = false -> w_err w' = w_err w))) as H.
  { unfold _pq_copy_in. mrun3. rewrite Hattr. mrun3.
    apply (runs_fueled copy_in_loop (fun w => S (pending_file w))). cbv beta.
    replace (S (pending_file w))
      with (List.length lines + S (S (List.length after_file)))%nat
      by (unfold pending_file; rewrite Hfile, length_app, length_map;
          cbn [List.length]; lia).
    eapply (copy_in_loop_prefix _ lines sends); try eassumption.
    intros w1 st1 e1 Ht1 Hpg1 Hf1 Hc1 Hco1 He1.
    eexists true, _. split.
    { apply (copy_in_loop_stops _ w1 stop after_file); [|exact Hstop].
      rewrite Hf1. reflexivity. }
    cbn [negb]. mrun3. rewrite Hpg1. mrun3.
    apply release_and_drain. unfold copy_closed, session_script. simpl_world.
    intros w3 (Ht3 & Hp3 & Hs3 & _ & _ & Hfatal & Hquiet).
    mrun3. rewrite Ht3, Ht1, Hc1, <- !app_assoc. cbn [app].
    repeat split; auto. intros Hq. rewrite (Hquiet Hq). congruence. }
  destruct H as (ret & w' & Heq & -> & Hrest).
  exists w'. split; [exact Heq|exact Hrest].
Qed.

Lemma copy_in_sends_lines_witness :
  exists w',
    _pq_copy_in Scenario.cfg Cases.w_copy_in_lines = Some (1, w') /\
    w_trace w' =
      [ Call_PQputline ("1,one" ++ newline); Call_PQputline ("2,two" ++ newline);
        Call_PQputline ("\." ++ newline); Call_PQendcopy;
        Call_PQclear (Scenario.copy_result PGRES_COPY_IN);
        Call_PQgetResult; Call_PQclear (Scenario.command_ok None);
        Call_PQgetResult ] /\
    pgres (w_curs w') = None /\
    w_err w' = None.
Proof.
  destruct (copy_in_sends_lines Scenario.cfg Cases.w_copy_in_lines
              ["1,one" ++ newline; "2,two" ++ newline]
              [Scenario.answer_int 0; Scenario.answer_int 0]
              (Returns (PyString "")) (Scenario.answer_int 0)
              (Scenario.answer_int 0) []
              [Scenario.answer (Some (Scenario.command_ok None));
               Scenario.answer None]
              CONNECTION_OK "")
    as (w' & Heq & Ht & Hp & _ & _ & Hquiet); try reflexivity.
  exists w'. split; [exact Heq|]. split; [exact Ht|]. split; [exact Hp|].
  apply Hquiet. reflexivity.
Defined.

(** X21.  When readline raises, or PQputline refuses a line, _pq_copy_in
    returns -1 at once: it sends neither the end-of-data line nor
    PQendcopy, takes no result, and leaves the cursor as it was. A
    readline failure leaves the file's exception in place; a refused line
    sets no exception. *)
Theorem copy_in_interrupted (cfg : build) (w : world) (lines : list string)
  (sends : list reply) (after_file : list pyresult) (rest_pg : list reply)
  (st : ConnStatusType) (e : string) :
  has_attr "readline" (w_file w) = true ->
  forallb nonempty lines = true ->
  List.length sends = List.length lines ->
  forallb line_taken sends = true ->
  (forall ex : exception,
      file_script (w_file w) =
        (map (fun l => Returns (PyString l)) lines ++ Raises ex :: after_file)%list ->
      w_pg w = Some (mkPGconn st e (sends ++ rest_pg)) ->
      exists w',
        _pq_copy_in cfg w = Some (-1, w') /\
        w_trace w' =
          (w_trace w ++ map (fun l => Call_PQputline (until_nul l)) lines)%list /\
        w_err w' = Some ex /\
        session_script w' = rest_pg /\
        w_curs w' = w_curs w) /\
  (forall (line : string) (refusal : reply),
      file_script (w_file w) =
        (map (fun l => Returns (PyString l)) lines
         ++ Returns (PyString line) :: after_file)%list ->
      nonempty line = true ->
      w_pg w = Some (mkPGconn st e (sends ++ refusal :: rest_pg)) ->
      line_taken refusal = false ->
      exists w',
        _pq_copy_in cfg w = Some (-1, w') /\
        w_trace w' =
          (w_trace w
           ++ map (fun l => Call_PQputline (until_nul l)) (lines ++ [line]))%list /\
        w_err w' = w_err w /\
        session_script w' = rest_pg /\
        w_curs w' = w_curs w).
Proof.
  intros Hattr Hne Hlen Htaken. split.
  - intros ex Hfile Hpg.
    assert (runs (_pq_copy_in cfg) w (fun ret w' =>
      ret = -1 /\
      w_trace w' =
        (w_trace w ++ map (fun l => Call_PQputline (until_nul l)) lines)%list /\
      w_err w' = Some ex /\ session_script w' = rest_pg /\
      w_curs w' = w_curs w)) as H.
    { unfold _pq_copy_in. mrun3. rewrite Hattr. mrun3.
      apply (runs_fueled copy_in_loop (fun w => S (pending_file w))). cbv beta.
      replace (S (pending_file w))
        with (List.length lines + S (S (List.length after_file)))%nat
        by (unfold pending_file; rewrite Hfile, length_app, length_map;
            cbn [List.length]; lia).
      eapply (copy_in_loop_prefix _ lines sends); try eassumption.
      intros w1 st1 e1 Ht1 Hpg1 Hf1 Hc1 Hco1 He1.
      cbn [copy_in_loop]. mrun3. rewrite Hf1. mrun3.
      unfold session_script. simpl_world. rewrite Hpg1. auto. }
    destruct H as (ret & w' & Heq & -> & Hrest).
    exists w'. split; [exact Heq|exact Hrest].
  - intros line refusal Hfile Hline Hpg Hrefused.
    assert (runs (_pq_copy_in cfg) w (fun ret w' =>
      ret = -1 /\
      w_trace w' =
        (w_trace w
         ++ map (fun l => Call_PQputline (until_nul l)) (lines ++ [line]))%list /\
      w_err w' = w_err w /\ session_script w' = rest_pg /\
      w_curs w' = w_curs w)) as H.
    { unfold _pq_copy_in. mrun3. rewrite Hattr. mrun3.
      apply (runs_fueled copy_in_loop (fun w => S (pending_file w))). cbv beta.
      replace (S (pending_file w))
        with (List.length lines + S (S (List.length after_file)))%nat
        by (unfold pending_file; rewrite Hfile, length_app, length_map;
            cbn [List.length]; lia).
      eapply (copy_in_loop_prefix _ lines sends); try eassumption.
      intros w1 st1 e1 Ht1 Hpg1 Hf1 Hc1 Hco1 He1.
      cbn [copy_in_loop]. mrun3. rewrite Hf1. mrun3.
      unfold nonempty in Hline. apply negb_true_iff in Hline. rewrite Hline.
      mrun3. rewrite Hpg1. mrun3.
      unfold line_taken in Hrefused. rewrite Hrefused. mrun3.
      rewrite Ht1, map_app, <- app_assoc. auto. }
    destruct H as (ret & w' & Heq & -> & Hrest).
    exists w'. split; [exact Heq|exact Hrest].
Qed.

Lemma copy_in_interrupted_witness :
  exists w',
    _pq_copy_in Scenario.cfg
      (Scenario.make (Scenario.cursor (Some (Scenario.copy_result PGRES_COPY_IN)))
         (Scenario.connection CONN_STATUS_BEGIN None)
         [Scenario.answer_int 0; Scenario.answer_int 1; Scenario.answer None]
         (mkPyFile ["readline"]
            [Returns (PyString "1,one"); Returns (PyString "2,two");
             Returns (PyString "")] []))
    = Some (-1, w') /\
    w_trace w' = [Call_PQputline "1,one"; Call_PQputline "2,two"] /\
    w_curs w' = Scenario.cursor (Some (Scenario.copy_result PGRES_COPY_IN)).
Proof.
  destruct (copy_in_interrupted Scenario.cfg
              (Scenario.make
                 (Scenario.cursor (Some (Scenario.copy_result PGRES_COPY_IN)))
                 (Scenario.connection CONN_STATUS_BEGIN None)
                 [Scenario.answer_int 0; Scenario.answer_int 1;
                  Scenario.answer None]
                 (mkPyFile ["readline"]
                    [Returns (PyString "1,one"); Returns (PyString "2,two");
                     Returns (PyString "")] []))
              ["1,one"] [Scenario.answer_int 0] [Returns (PyString "")]
              [Scenario.answer None] CONNECTION_OK "")
    as [_ Hrefused]; try reflexivity.
  destruct (Hrefused "2,two" (Scenario.answer_int 1))
    as (w' & Heq & Ht & _ & _ & Hc); try reflexivity.
  exists w'. repeat split; assumption.
Defined.

(** The loop of [_pq_copy_out] over whole lines of data. *)
Lemma copy_out_loop_prefix (Q : Z + unit -> world -> Prop) :
  forall (lines : list string) (frames : list reply) (fuel : nat) (w : world)
         (rest_pg : list reply) (st : ConnStatusType) (e : string),
    map r_line frames = map LineWhole lines ->
    forallb data_line lines = true ->
    calls_return (List.length lines) (w_file w) = true ->
    w_pg w = Some (mkPGconn st e (frames ++ rest_pg)) ->
    (forall w1 st1 e1,
        w_trace w1 =
          (w_trace w ++ repeat Call_PQgetline (List.length lines))%list ->
        w_pg w1 = Some (mkPGconn st1 e1 rest_pg) ->
        file_calls (w_file w1) =
          (file_calls (w_file w)
           ++ map (fun l => Py_write (l ++ newline)) lines)%list ->
        w_curs w1 = w_curs w -> w_conn w1 = w_conn w -> w_err w1 = w_err w ->
        runs (copy_out_loop fuel false) w1 Q) ->
    runs (copy_out_loop (List.length lines + fuel) false) w Q.
Proof.
  induction lines as [|l lines IH];
    intros frames fuel w rest_pg st e Hframes Hdata Hcalls Hpg Hk.
  - destruct frames; [|discriminate Hframes]. cbn [List.length Nat.add].
    apply (Hk w st e); auto; cbn [repeat map]; now rewrite app_nil_r.
  - destruct frames as [|f frames]; [discriminate Hframes|].
    cbn [map app forallb List.length] in *. injection Hframes as Hf Hframes.
    apply andb_true_iff in Hdata as [Hl Hdata].
    unfold data_line, ends_copy in Hl. apply negb_true_iff in Hl.
    cbn [Nat.add copy_out_loop].
    mrun3. rewrite Hpg. mrun3. rewrite Hf. cbn [Z.eqb negb andb]. rewrite Hl.
    mrun3.
    unfold calls_return in Hcalls.
    destruct (file_script (w_file w)) as [|[o|ex] script] eqn:Hscript;
      cbn [firstn forallb returns andb] in Hcalls; try discriminate Hcalls; mrun3.
    all: eapply (IH frames fuel _ rest_pg); simpl_world;
      try eassumption; try reflexivity;
      try (unfold calls_return; simpl_world; try exact Hcalls;
           now destruct (List.length lines)).
    all: intros w1 st1 e1 Ht1 Hpg1 Hf1 Hc1 Hco1 He1; simpl_world.
    all: apply (Hk w1 st1 e1); auto.
    all: try (rewrite Ht1; cbn [repeat]; now rewrite <- app_assoc).
    all: rewrite Hf1; cbn [map]; now rewrite <- app_assoc.
Qed.

(** X22.  As long as the writes succeed, _pq_copy_out writes each complete
    line it gets from PQgetline to the file with a newline added, in
    order. At the line that begins with a backslash and a dot it writes
    nothing more, calls PQendcopy, drains the results and returns 1, or -1
    when PQendcopy fails; when PQgetline reports end of file instead it
    returns -1 without calling PQendcopy or taking any result. *)
Theorem copy_out_forwards_lines (cfg : build) (w : world) (lines : list string)
  (frames : list reply) (stop : reply) (after : list reply)
  (st : ConnStatusType) (e : string) :
  has_attr "write" (w_file w) = true ->
  calls_return (List.length lines) (w_file w) = true ->
  w_pg w = Some (mkPGconn st e (frames ++ stop :: after)) ->
  map r_line frames = map LineWhole lines ->
  forallb data_line lines = true ->
  (forall (last : string) (endcopy : reply) (after_pg : list reply),
      r_line stop = LineWhole last ->
      ends_copy last = true ->
      after = endcopy :: after_pg ->
      exists w',
        _pq_copy_out cfg w = Some (if r_int endcopy =? 0 then 1 else -1, w') /\
        file_calls (w_file w') =
          (file_calls (w_file w)
           ++ map (fun l => Py_write (l ++ newline)) lines)%list /\
        w_trace w' =
          (w_trace w ++ repeat Call_PQgetline (S (List.length lines))
           ++ [Call_PQendcopy] ++ clear_trace (pgres (w_curs w))
           ++ drain_trace (queued after_pg))%list /\
        pgres (w_curs w') = None /\
        (existsb is_fatal (queued after_pg) = true -> raised w') /\
        (existsb is_fatal (queued after_pg) = false -> w_err w' = w_err w)) /\
  (r_line stop = LineEOF ->
   exists w',
     _pq_copy_out cfg w = Some (-1, w') /\
     file_calls (w_file w') =
       (file_calls (w_file w)
        ++ map (fun l => Py_write (l ++ newline)) lines)%list /\
     w_trace w' =
       (w_trace w ++ repeat Call_PQgetline (S (List.length lines)))%list /\
     session_script w' = after /\
     w_curs w' = w_curs w /\ w_err w' = w_err w).
Proof.
  intros Hattr Hcalls Hpg Hframes Hdata.
  assert (S (pending_replies w)
          = (List.length lines + S (S (List.length after)))%nat) as Hfuel.
  { unfold pending_replies. rewrite Hpg. simpl_world.
    rewrite length_app. apply (f_equal (@List.length _)) in Hframes.
    rewrite !length_map in Hframes. cbn [List.length]. lia. }
  assert (forall n, (repeat Call_PQgetline n ++ [Call_PQgetline])%list
                    = repeat Call_PQgetline (S n)) as Hrep.
  { intros n. induction n as [|n IHn]; cbn [repeat app]; [reflexivity|].
    now rewrite IHn. }
  split.
  - intros last endcopy after_pg Hstop Hlast ->.
    assert (runs (_pq_copy_out cfg) w (fun ret w' =>
      ret = (if r_int endcopy =? 0 then 1 else -1) /\
      file_calls (w_file w') =
        (file_calls (w_file w)
         ++ map (fun l => Py_write (l ++ newline)) lines)%list /\
      w_trace w' =
        (w_trace w ++ repeat Call_PQgetline (S (List.length lines))
         ++ [Call_PQendcopy] ++ clear_trace (pgres (w_curs w))
         ++ drain_trace (queued after_pg))%list /\
      pgres (w_curs w') = None /\
      (existsb is_fatal (queued after_pg) = true -> raised w') /\
      (existsb is_fatal (queued after_pg) = false -> w_err w' = w_err w))) as H.
    { unfold _pq_copy_out. mrun3. rewrite Hattr. mrun3.
      apply (runs_fueled (fun fuel => copy_out_loop fuel false)
               (fun w => S (pending_replies w))). cbv beta.
      rewrite Hfuel.
      eapply (copy_out_loop_prefix _ lines frames); try eassumption.
      intros w1 st1 e1 Ht1 Hpg1 Hf1 Hc1 Hco1 He1.
      cbn [copy_out_loop]. mrun3. rewrite Hpg1. mrun3. rewrite Hstop.
      cbn [Z.eqb negb andb]. unfold ends_copy in Hlast. rewrite Hlast.
      mrun3.
      apply release_and_drain. unfold copy_closed, session_script. simpl_world.
      intros w3 (Ht3 & Hp3 & Hs3 & Hfile3 & _ & Hfatal & Hquiet).
      mrun3. rewrite Ht3, Ht1, Hc1, Hfile3, <- !app_assoc. cbn [app].
      rewrite <- (Hrep (List.length lines)), <- !app_assoc. cbn [app].
      repeat split; auto.
      - now destruct (r_int endcopy =? 0).
      - intros Hq. rewrite (Hquiet Hq). congruence. }
    destruct H as (ret & w' & Heq & -> & Hrest).
    exists w'. split; [exact Heq|exact Hrest].
  - intros Hstop.
    assert (runs (_pq_copy_out cfg) w (fun ret w' =>
      ret = -1 /\
      file_calls (w_file w') =
        (file_calls (w_file w)
         ++ map (fun l => Py_write (l ++ newline)) lines)%list /\
      w_trace w' =
        (w_trace w ++ repeat Call_PQgetline (S (List.length lines)))%list /\
      session_script w' = after /\
      w_curs w' = w_curs w /\ w_err w' = w_err w)) as H.
    { unfold _pq_copy_out. mrun3. rewrite Hattr. mrun3.
      apply (runs_fueled (fun fuel => copy_out_loop fuel false)
               (fun w => S (pending_replies w))). cbv beta.
      rewrite Hfuel.
      eapply (copy_out_loop_prefix _ lines frames); try eassumption.
      intros w1 st1 e1 Ht1 Hpg1 Hf1 Hc1 Hco1 He1.
      cbn [copy_out_loop]. mrun3. rewrite Hpg1. mrun3. rewrite Hstop.
      cbn [Z.eqb negb andb]. mrun3.
      rewrite Ht1, <- app_assoc, Hrep. unfold session_script. simpl_world.
      repeat split; auto. }
    destruct H as (ret & w' & Heq & -> & Hrest).
    exists w'. split; [exact Heq|exact Hrest].
Qed.

Lemma copy_out_forwards_lines_witness :
  exists w',
    _pq_copy_out Scenario.cfg Cases.w_copy_out_lines = Some (1, w') /\
    file_calls (w_file w') =
      [Py_write ("1,one" ++ newline); Py_write ("2,two" ++ newline)] /\
    w_trace w' =
      [ Call_PQgetline; Call_PQgetline; Call_PQgetline; Call_PQendcopy;
        Call_PQclear (Scenario.copy_result PGRES_COPY_OUT);
        Call_PQgetResult; Call_PQclear (Scenario.command_ok None);
        Call_PQgetResult ] /\
    pgres (w_curs w') = None.
Proof.
  destruct (copy_out_forwards_lines Scenario.cfg Cases.w_copy_out_lines
              ["1,one"; "2,two"]
              [Cases.answer_line (LineWhole "1,one");
               Cases.answer_line (LineWhole "2,two")]
              (Cases.answer_line (LineWhole "\."))
              [Scenario.answer_int 0;
               Scenario.answer (Some (Scenario.command_ok None));
               Scenario.answer None]
              CONNECTION_OK "")
    as [Hends _]; try reflexivity.
  destruct (Hends "\." (Scenario.answer_int 0)
              [Scenario.answer (Some (Scenario.command_ok None));
               Scenario.answer None])
    as (w' & Heq & Hf & Ht & Hp & _); try reflexivity.
  exists w'. repeat split; assumption.
Defined.

(** ** COPY FROM with protocol 3: the failures *)

(** The loop of [_pq_copy_in_v3] over the chunks the backend takes. *)
Lemma copy_in_v3_loop_prefix (size : Z) (Q : Z -> world -> Prop) :
  forall (chunks : list string) (sends : list reply) (fuel : nat) (w : world)
         (rest_file : list pyresult) (rest_pg : list reply)
         (st : ConnStatusType) (e : string),
    forallb chunk_ok chunks = true ->
    List.length sends = List.length chunks ->
    forallb accepted sends = true ->
    file_script (w_file w) =
      (map (fun c => Returns (PyString c)) chunks ++ rest_file)%list ->
    w_pg w = Some (mkPGconn st e (sends ++ rest_pg)) ->
    (forall w1 st1 e1,
        w_trace w1 = (w_trace w ++ map Call_PQputCopyData chunks)%list ->
        w_pg w1 = Some (mkPGconn st1 e1 rest_pg) ->
        w_file w1 =
          mkPyFile (file_attrs (w_file w)) rest_file
            (file_calls (w_file w)
             ++ repeat (Py_read size) (List.length chunks))%list ->
        w_curs w1 = w_curs w -> w_conn w1 = w_conn w -> w_err w1 = w_err w ->
        runs (copy_in_v3_loop fuel size) w1 Q) ->
    runs (copy_in_v3_loop (List.length chunks + fuel) size) w Q.
Proof.
  induction chunks as [|c chunks IH];
    intros sends fuel w rest_file rest_pg st e Hok Hlen Hacc Hfile Hpg Hk.
  - destruct sends; [|discriminate Hlen]. cbn [List.length Nat.add].
    apply (Hk w st e); auto.
    + cbn [map]. now rewrite app_nil_r.
    + cbn [repeat List.length]. rewrite app_nil_r. cbn [map app] in Hfile.
      rewrite <- Hfile. now destruct (w_file w).
  - destruct sends as [|s sends]; [discriminate Hlen|].
    cbn [map app forallb List.length] in *.
    apply andb_true_iff in Hok as [Hc Hok].
    apply andb_true_iff in Hacc as [Hs Hacc].
    unfold chunk_ok in Hc. apply andb_true_iff in Hc as [Hc1 Hc2].
    apply negb_true_iff in Hc1. apply Z.leb_le in Hc2.
    cbn [Nat.add copy_in_v3_loop].
    mrun3. rewrite Hfile. mrun3.
    rewrite Hc1. assert ((strlen c >? INT_MAX) = false) as ->.
    { destruct (Z.gtb_spec (strlen c) INT_MAX); [lia|reflexivity]. }
    cbn [orb]. mrun3. rewrite Hpg. mrun3.
    unfold accepted in Hs. apply negb_true_iff in Hs.
    assert ((if r_int s =? 0 then 0 else if r_int s =? -1 then 2 else 0) = 0) as ->.
    { rewrite Hs. now destruct (r_int s =? 0). }
    cbn [Z.eqb].
    eapply (IH sends fuel _ rest_file rest_pg); simpl_world;
      try eassumption; try reflexivity; try lia.
    intros w1 st1 e1 Ht1 Hpg1 Hf1 Hc1' Hco1 He1. simpl_world.
    apply (Hk w1 st1 e1); auto.
    + rewrite Ht1. cbn [map]. now rewrite <- app_assoc.
    + rewrite Hf1. f_equal. cbn [repeat]. now rewrite <- app_assoc.
Qed.

Ltac copy_in_v3_enter Hattr Hfile chunks sends after_file :=
  unfold _pq_copy_in_v3; mrun3; rewrite Hattr; mrun3;
  match goal with
  | |- runs (fun w0 => copy_in_v3_loop (S (pending_file w0)) ?size w0) ?w _ =>
      apply (runs_fueled (fun fuel => copy_in_v3_loop fuel size)
               (fun w => S (pending_file w))); cbv beta;
      replace (S (pending_file w))
        with (List.length chunks + S (S (List.length after_file)))%nat
        by (unfold pending_file; rewrite Hfile, length_app, length_map;
            cbn [List.length]; lia)
  end;
  eapply (copy_in_v3_loop_prefix _ _ chunks sends); try eassumption.

(** X23.  In _pq_copy_in_v3, a read that raises or returns a non-string
    ends the copy with the message 'error in .read() call', and a chunk
    PQputCopyData refuses ends it with 'error in PQputCopyData() call';
    both return -1 after draining the results. When the data went through
    but PQputCopyEnd itself fails, an exception is set and the connection
    is marked closed (2), no result is taken, and the function still
    returns 1. *)
Theorem copy_in_v3_failures (cfg : build) (w : world) (chunks : list string)
  (sends : list reply) (after_file : list pyresult)
  (st : ConnStatusType) (e : string) :
  has_attr "read" (w_file w) = true ->
  forallb chunk_ok chunks = true ->
  List.length sends = List.length chunks ->
  forallb accepted sends = true ->
  (forall (bad : pyresult) (stop : reply) (after_pg : list reply),
      file_script (w_file w) =
        (map (fun c => Returns (PyString c)) chunks ++ bad :: after_file)%list ->
      read_failed bad = true ->
      w_pg w = Some (mkPGconn st e (sends ++ stop :: after_pg)) ->
      accepted stop = true ->
      exists w',
        _pq_copy_in_v3 cfg w = Some (-1, w') /\
        w_trace w' =
          (w_trace w ++ map Call_PQputCopyData chunks
           ++ [Call_PQputCopyEnd (Some "error in .read() call")]
           ++ clear_trace (pgres (w_curs w))
           ++ drain_trace (queued after_pg))%list /\
        pgres (w_curs w') = None) /\
  (forall (chunk : string) (refusal stop : reply) (after_pg : list reply),
      file_script (w_file w) =
        (map (fun c => Returns (PyString c)) chunks
         ++ Returns (PyString chunk) :: after_file)%list ->
      chunk_ok chunk = true ->
      w_pg w = Some (mkPGconn st e (sends ++ refusal :: stop :: after_pg)) ->
      accepted refusal = false ->
      accepted stop = true ->
      exists w',
        _pq_copy_in_v3 cfg w = Some (-1, w') /\
        w_trace w' =
          (w_trace w ++ map Call_PQputCopyData (chunks ++ [chunk])
           ++ [Call_PQputCopyEnd (Some "error in PQputCopyData() call")]
           ++ clear_trace (pgres (w_curs w))
           ++ drain_trace (queued after_pg))%list /\
        pgres (w_curs w') = None) /\
  (forall (stop : reply) (after_pg : list reply),
      file_script (w_file w) =
        (map (fun c => Returns (PyString c)) chunks
         ++ Returns (PyString "") :: after_file)%list ->
      w_pg w = Some (mkPGconn st e (sends ++ stop :: after_pg)) ->
      accepted stop = false ->
      exists w',
        _pq_copy_in_v3 cfg w = Some (1, w') /\
        w_trace w' =
          (w_trace w ++ map Call_PQputCopyData chunks
           ++ [Call_PQputCopyEnd None]
           ++ clear_trace (pgres (w_curs w)))%list /\
        raised w' /\
        closed (w_conn w') = 2 /\
        session_script w' = after_pg /\
        pgres (w_curs w') = None).
Proof.
  intros Hattr Hok Hlen Hacc. split; [|split].
  - intros bad stop after_pg Hfile Hbad Hpg Hstop.
    assert (runs (_pq_copy_in_v3 cfg) w (fun ret w' =>
      ret = -1 /\
      w_trace w' =
        (w_trace w ++ map Call_PQputCopyData chunks
         ++ [Call_PQputCopyEnd (Some "error in .read() call")]
         ++ clear_trace (pgres (w_curs w))
         ++ drain_trace (queued after_pg))%list /\
      pgres (w_curs w') = None)) as H.
    { copy_in_v3_enter Hattr Hfile chunks sends after_file.
      intros w1 st1 e1 Ht1 Hpg1 Hf1 Hc1 Hco1 He1.
      cbn [copy_in_v3_loop]. mrun3. rewrite Hf1. simpl_world.
      unfold accepted in Hstop. apply negb_true_iff in Hstop.
      destruct bad as [[chunk|]|ex]; try discriminate Hbad; mrun3;
        cbn [Z.eqb Pos.eqb]; mrun3; rewrite Hpg1; mrun3; rewrite Hstop;
        apply release_and_drain; unfold copy_closed, session_script; simpl_world;
        intros w3 (Ht3 & Hp3 & _); mrun3;
        rewrite Ht3, Ht1, Hc1, <- !app_assoc; cbn [app]; auto. }
    destruct H as (ret & w' & Heq & -> & Hrest).
    exists w'. split; [exact Heq|exact Hrest].
  - intros chunk refusal stop after_pg Hfile Hchunk Hpg Hrefused Hstop.
    assert (runs (_pq_copy_in_v3 cfg) w (fun ret w' =>
      ret = -1 /\
      w_trace w' =
        (w_trace w ++ map Call_PQputCopyData (chunks ++ [chunk])
         ++ [Call_PQputCopyEnd (Some "error in PQputCopyData() call")]
         ++ clear_trace (pgres (w_curs w))
         ++ drain_trace (queued after_pg))%list /\
      pgres (w_curs w') = None)) as H.
    { copy_in_v3_enter Hattr Hfile chunks sends after_file.
      intros w1 st1 e1 Ht1 Hpg1 Hf1 Hc1 Hco1 He1.
      cbn [copy_in_v3_loop]. mrun3. rewrite Hf1. mrun3.
      unfold chunk_ok in Hchunk. apply andb_true_iff in Hchunk as [Hc Hc'].
      apply negb_true_iff in Hc. apply Z.leb_le in Hc'. rewrite Hc.
      assert ((strlen chunk >? INT_MAX) = false) as ->.
      { destruct (Z.gtb_spec (strlen chunk) INT_MAX); [lia|reflexivity]. }
      cbn [orb]. mrun3. rewrite Hpg1. mrun3.
      unfold accepted in Hrefused. apply negb_false_iff in Hrefused.
      apply Z.eqb_eq in Hrefused. rewrite Hrefused.
      cbn [Z.eqb Pos.eqb]. mrun3. cbn [Z.eqb Pos.eqb]. mrun3.
      unfold accepted in Hstop. apply negb_true_iff in Hstop. rewrite Hstop.
      apply release_and_drain. unfold copy_closed, session_script. simpl_world.
      intros w3 (Ht3 & Hp3 & _). mrun3.
      rewrite Ht3, Ht1, Hc1, map_app, <- !app_assoc. cbn [app map]. auto. }
    destruct H as (ret & w' & Heq & -> & Hrest).
    exists w'. split; [exact Heq|exact Hrest].
  - intros stop after_pg Hfile Hpg Hstop.
    assert (runs (_pq_copy_in_v3 cfg) w (fun ret w' =>
      ret = 1 /\
      w_trace w' =
        (w_trace w ++ map Call_PQputCopyData chunks
         ++ [Call_PQputCopyEnd None]
         ++ clear_trace (pgres (w_curs w)))%list /\
      raised w' /\ closed (w_conn w') = 2 /\
      session_script w' = after_pg /\ pgres (w_curs w') = None)) as H.
    { copy_in_v3_enter Hattr Hfile chunks sends after_file.
      intros w1 st1 e1 Ht1 Hpg1 Hf1 Hc1 Hco1 He1.
      cbn [copy_in_v3_loop]. mrun3. rewrite Hf1. mrun3.
      cbn [strlen String.length Z.of_nat Z.eqb orb]. mrun3.
      cbn [Z.eqb]. mrun3. rewrite Hpg1. mrun3.
      unfold accepted in Hstop. apply negb_false_iff in Hstop. rewrite Hstop.
      apply runs_bind. eexists tt, _. split; [apply IFCLEARPGRES_curs_exact|].
      apply runs_bind.
      mstep pq_raise_runs. intros ? w2 (ex & Hex & ->).
      unfold upd_conn. apply runs_modify, runs_ret.
      match goal with
      | |- context [flag_bad ?w0] =>
          destruct (flag_bad_rest w0) as (Hcf & Hpgf & _ & _ & _ & _ & Htf)
      end.
      unfold session_script. simpl_world. rewrite Hcf, Hpgf, Htf.
      destruct (pgres (w_curs w1)) as [r|] eqn:Hr; rewrite <- Hc1, Hr;
        simpl_world; cbn [clear_trace]; rewrite Ht1, <- ?app_assoc;
        cbn [app]; rewrite ?app_nil_r; repeat split; auto;
        exists ex; auto. }
    destruct H as (ret & w' & Heq & -> & Hrest).
    exists w'. split; [exact Heq|exact Hrest].
Qed.

Lemma copy_in_v3_failures_witness :
  exists w',
    _pq_copy_in_v3 Scenario.cfg Cases.w_copy_in_fails = Some (-1, w') /\
    w_trace w' =
      [ Call_PQputCopyData "abc";
        Call_PQputCopyEnd (Some "error in .read() call");
        Call_PQclear (Scenario.copy_result PGRES_COPY_IN);
        Call_PQgetResult ] /\
    pgres (w_curs w') = None.
Proof.
  destruct (copy_in_v3_failures Scenario.cfg Cases.w_copy_in_fails ["abc"]
              [Scenario.answer_int 1] [] CONNECTION_OK "")
    as [Hread _]; try reflexivity.
  apply (Hread (Raises (mkException (PyExc_Other "IOError") "disk error"
                          None None false))
           (Scenario.answer_int 1) [Scenario.answer None]); reflexivity.
Defined.

(** ** COPY on a file object without the method *)

(** X24.  When the file object lacks the method a COPY function needs
    (read for _pq_copy_in_v3, readline for _pq_copy_in, write for
    _pq_copy_out_v3 and _pq_copy_out), the function returns -1 with the
    AttributeError of the lookup and does nothing else: no call to the
    backend or the file, and the COPY is not ended. *)
Theorem copy_without_method (cfg : build) (w : world) :
  (has_attr "read" (w_file w) = false ->
   exists e,
     exc_type e = PyExc_AttributeError /\
     _pq_copy_in_v3 cfg w = Some (-1, set_err (Some e) w)) /\
  (has_attr "readline" (w_file w) = false ->
   exists e,
     exc_type e = PyExc_AttributeError /\
     _pq_copy_in cfg w = Some (-1, set_err (Some e) w)) /\
  (has_attr "write" (w_file w) = false ->
   exists e,
     exc_type e = PyExc_AttributeError /\
     _pq_copy_out_v3 cfg w = Some (-1, set_err (Some e) w) /\
     _pq_copy_out cfg w = Some (-1, set_err (Some e) w)).
Proof.
  unfold _pq_copy_in_v3, _pq_copy_in, _pq_copy_out_v3, _pq_copy_out,
    PyObject_GetAttrString.
  cbv [bind gets modify ret].
  split; [|split]; intros ->.
  - exists (mkException PyExc_AttributeError "read" None None false).
    split; reflexivity.
  - exists (mkException PyExc_AttributeError "readline" None None false).
    split; reflexivity.
  - exists (mkException PyExc_AttributeError "write" None None false).
    repeat split; reflexivity.
Qed.

Lemma copy_without_method_witness :
  exists e,
    exc_type e = PyExc_AttributeError /\
    _pq_copy_in_v3 Scenario.cfg Cases.w_no_method
    = Some (-1, set_err (Some e) Cases.w_no_method).
Proof.
  apply (proj1 (copy_without_method Scenario.cfg Cases.w_no_method)).
  reflexivity.
Defined.

(** ** pq_clear_async and pq_get_last_result *)

Lemma released_app (a b : list call) :
  released (a ++ b) = (released a ++ released b)%list.
Proof.
  induction a as [|c a IH]; [reflexivity|].
  destruct c; cbn [app released]; rewrite ?IH; reflexivity.
Qed.

Lemma asked_app (a b : list call) : asked (a ++ b) = (asked a + asked b)%nat.
Proof.
  induction a as [|c a IH]; [reflexivity|].
  destruct c; cbn [app asked]; rewrite ?IH; reflexivity.
Qed.

Lemma clear_async_loop_drains :
  forall (script : list reply) (fuel : nat) (w : world),
    session_script w = script ->
    (List.length script < fuel)%nat ->
    runs (clear_async_loop fuel) w (fun _ w' =>
      w_trace w' = (w_trace w ++ drain_trace (queued script))%list /\
      session_script w' = after_queued script /\
      w_conn w' = w_conn w /\ w_curs w' = w_curs w /\ w_err w' = w_err w /\
      w_file w' = w_file w).
Proof.
  induction script as [|r rest IH]; intros fuel w Hscript Hfuel;
    (destruct fuel as [|fuel]; [simpl in Hfuel; lia|]);
    cbn [clear_async_loop].
  - mrun2.
    destruct (session_script_cases w) as [[Hpg _]|(st & e & Hpg)];
      rewrite Hpg; try rewrite Hscript; simpl_world; mrun2.
    all: unfold session_script; simpl_world; rewrite Hpg; repeat split; auto.
  - mrun2.
    destruct (session_script_cases w) as [[_ Hnil]|(st & e & Hpg)];
      [congruence|].
    rewrite Hpg, Hscript. simpl_world. cbn [queued after_queued].
    destruct (r_result r) as [res|] eqn:Hres; mrun2.
    + eapply runs_weaken; [apply (IH fuel)|].
      * unfold session_script; simpl_world. reflexivity.
      * simpl in Hfuel; lia.
      * cbv beta. intros ? w3 (Ht & Hs & Hconn & Hcurs & Herr & Hfile).
        simpl_world. rewrite Ht. unfold drain_trace. cbn [flat_map app].
        rewrite <- !app_assoc. cbn [app]. repeat split; auto.
    + unfold session_script; simpl_world. repeat split; auto.
Qed.

(** X25.  pq_clear_async always returns: it takes every queued result up
    to the first NULL and releases each one right after taking it,
    whatever its status, then clears the connection's asynchronous cursor.
    It never sets an exception (a fatal result is dropped silently) and
    changes nothing else of the connection or the cursor. *)
Theorem pq_clear_async_drains (w : world) :
  exists w',
    pq_clear_async w = Some (tt, w') /\
    w_trace w' = (w_trace w ++ drain_trace (queued (session_script w)))%list /\
    session_script w' = after_queued (session_script w) /\
    w_conn w' = set_async_cursor false (w_conn w) /\
    w_curs w' = w_curs w /\
    w_err w' = w_err w.
Proof.
  assert (runs pq_clear_async w (fun _ w' =>
    w_trace w' = (w_trace w ++ drain_trace (queued (session_script w)))%list /\
    session_script w' = after_queued (session_script w) /\
    w_conn w' = set_async_cursor false (w_conn w) /\
    w_curs w' = w_curs w /\ w_err w' = w_err w)) as H.
  { unfold pq_clear_async. apply runs_bind.
    apply (runs_fueled clear_async_loop (fun w => S (pending_replies w))).
    eapply runs_weaken.
    - apply (clear_async_loop_drains (session_script w)); [reflexivity|].
      unfold pending_replies, session_script. destruct (w_pg w); simpl; lia.
    - cbv beta. intros ? w1 (Ht & Hs & Hconn & Hcurs & Herr & _).
      unfold upd_conn. apply runs_modify. unfold session_script in *.
      simpl_world. rewrite Hconn. repeat split; auto. }
  destruct H as ([] & w' & Heq & Hrest).
  exists w'. split; [exact Heq|exact Hrest].
Qed.

(** The results queued on a connection with an asynchronous query under
    way are released, the failed one among them in silence. *)
Example pq_clear_async_runs :
  exists w',
    pq_clear_async Cases.w_queued = Some (tt, w') /\
    w_trace w' =
      [ Call_PQgetResult; Call_PQclear (Scenario.command_ok (Some "1"));
        Call_PQgetResult; Call_PQclear (Scenario.command_ok (Some "2"));
        Call_PQgetResult; Call_PQclear Scenario.fatal_error;
        Call_PQgetResult ] /\
    async_cursor (w_conn w') = false /\
    w_err w' = None.
Proof. eexists. split; [vm_compute; reflexivity|]. repeat split. Qed.

Lemma get_last_result_loop_spec :
  forall (script : list reply) (fuel : nat) (result : option PGresult)
         (w : world),
    session_script w = script ->
    (List.length script < fuel)%nat ->
    runs (get_last_result_loop fuel result) w (fun out w' =>
      out = last (map Some (with_kept result (queued script))) None /\
      released (w_trace w') =
        (released (w_trace w)
           ++ removelast (with_kept result (queued script)))%list /\
      asked (w_trace w') =
        (asked (w_trace w) + S (List.length (queued script)))%nat /\
      session_script w' = after_queued script /\
      w_conn w' = w_conn w /\ w_curs w' = w_curs w /\ w_err w' = w_err w).
Proof.
  induction script as [|r rest IH]; intros fuel result w Hscript Hfuel;
    (destruct fuel as [|fuel]; [simpl in Hfuel; lia|]);
    cbn [get_last_result_loop].
  - mrun2.
    destruct (session_script_cases w) as [[Hpg _]|(st & e & Hpg)];
      rewrite Hpg; try rewrite Hscript; simpl_world; mrun2.
    all: unfold session_script; simpl_world; rewrite ?Hpg;
      rewrite released_app, asked_app; cbn [released asked queued];
      destruct result; cbn [with_kept map last removelast List.length];
      rewrite ?app_nil_r; repeat split; auto; lia.
  - mrun2.
    destruct (session_script_cases w) as [[_ Hnil]|(st & e & Hpg)];
      [congruence|].
    rewrite Hpg, Hscript. simpl_world. cbn [queued after_queued].
    destruct (r_result r) as [res|] eqn:Hres.
    + destruct result as [previous|]; mrun2.
      all: eapply runs_weaken;
        [apply (IH fuel (Some res));
           [unfold session_script; simpl_world; reflexivity
           |simpl in Hfuel; lia]|].
      all: cbv beta; intros out w3 (Hout & Hrel & Hask & Hs & Hconn & Hcurs & Herr);
        simpl_world; rewrite Hrel, Hask;
        rewrite ?released_app, ?asked_app; cbn [released asked];
        cbn [with_kept] in *; rewrite Hout.
      * cbn [map last removelast List.length].
        rewrite <- !app_assoc. cbn [app].
        repeat split; auto; lia.
      * cbn [List.length]. rewrite ?app_nil_r.
        repeat split; auto; lia.
    + mrun2. unfold session_script; simpl_world.
      rewrite released_app, asked_app; cbn [released asked queued];
      destruct result; cbn [with_kept map last removelast List.length];
      rewrite ?app_nil_r; repeat split; auto; lia.
Qed.

(** X26.  pq_get_last_result always returns: it takes every queued result
    up to the first NULL, returns the last of them (NULL when there was
    none) and releases all the earlier ones, each once and in order; the
    returned result is not released. The connection, the cursor and the
    error indicator are untouched. *)
Theorem pq_get_last_result_last (w : world) :
  exists w',
    pq_get_last_result w
      = Some (last (map Some (queued (session_script w))) None, w') /\
    released (w_trace w') =
      (released (w_trace w) ++ removelast (queued (session_script w)))%list /\
    asked (w_trace w') =
      (asked (w_trace w) + S (List.length (queued (session_script w))))%nat /\
    session_script w' = after_queued (session_script w) /\
    w_conn w' = w_conn w /\ w_curs w' = w_curs w /\ w_err w' = w_err w.
Proof.
  assert (runs pq_get_last_result w (fun out w' =>
    out = last (map Some (with_kept None (queued (session_script w)))) None /\
    released (w_trace w') =
      (released (w_trace w)
         ++ removelast (with_kept None (queued (session_script w))))%list /\
    asked (w_trace w') =
      (asked (w_trace w) + S (List.length (queued (session_script w))))%nat /\
    session_script w' = after_queued (session_script w) /\
    w_conn w' = w_conn w /\ w_curs w' = w_curs w /\ w_err w' = w_err w)) as H.
  { unfold pq_get_last_result.
    apply (runs_fueled (fun fuel => get_last_result_loop fuel None)
             (fun w => S (pending_replies w))).
    apply get_last_result_loop_spec; [reflexivity|].
    unfold pending_replies, session_script. destruct (w_pg w); simpl; lia. }
  destruct H as (out & w' & Heq & Hout & Hrest).
  exists w'. split; [rewrite Heq, Hout; reflexivity|exact Hrest].
Qed.

(** Of three queued results the failed one, which is the last, is the one
    returned; the two commands before it are released. *)
Example pq_get_last_result_runs :
  exists w',
    pq_get_last_result Cases.w_queued = Some (Some Scenario.fatal_error, w') /\
    released (w_trace w') =
      [Scenario.command_ok (Some "1"); Scenario.command_ok (Some "2")] /\
    w_err w' = None.
Proof. eexists. split; [vm_compute; reflexivity|]. repeat split. Qed.

(** ** pq_tpc_command_locked *)

Lemma substring_whole (s : string) : String.substring 0 (String.length s) s = s.
Proof. induction s as [|c s IH]; [reflexivity|]. cbn. now rewrite IH. Qed.

Lemma string_length_app (a b : string) :
  String.length (a ++ b) = (String.length a + String.length b)%nat.
Proof. induction a as [|c a IH]; [reflexivity|]. cbn. now rewrite IH. Qed.

Lemma tpc_buffer_holds (cmd etid : string) :
  PyOS_snprintf (3 + strlen cmd + strlen etid) (tpc_format cmd etid)
  = (2 + strlen cmd + strlen etid, tpc_format cmd etid).
Proof.
  unfold PyOS_snprintf, tpc_format, strlen.
  assert (String.length (cmd ++ " " ++ etid ++ ";")
          = (2 + String.length cmd + String.length etid)%nat) as Hlen.
  { rewrite !string_length_app. cbn [String.length]. lia. }
  f_equal.
  - rewrite Hlen. lia.
  - replace (Z.to_nat (3 + Z.of_nat (String.length cmd)
                         + Z.of_nat (String.length etid) - 1))
      with (String.length (cmd ++ " " ++ etid ++ ";")) by (rewrite Hlen; lia).
    apply substring_whole.
Qed.

Section TpcProperties.

Variable psycopg_escape_string : string -> M (option string).
Variable PyMem_Malloc : Z -> M bool.

(** X27.  The buffer of 3 + strlen(cmd) + strlen(etid) bytes that
    pq_tpc_command_locked allocates holds the whole command: once the id
    is quoted and the buffer allocated, the function behaves exactly as
    pq_execute_command_locked on the command, a space, the quoted id and a
    semicolon, with nothing cut off. *)
Theorem pq_tpc_command_whole (cmd tid etid : string)
    (res : option PGresult) (error : option string) (w w1 w2 : world) :
  psycopg_escape_string tid w = Some (Some etid, w1) ->
  PyMem_Malloc (3 + strlen cmd + strlen etid) w1 = Some (true, w2) ->
  pq_tpc_command_locked psycopg_escape_string PyMem_Malloc cmd tid res error w
  = pq_execute_command_locked (cmd ++ " " ++ etid ++ ";") w2.
Proof.
  intros Hesc Hbuf. unfold pq_tpc_command_locked.
  unfold bind at 1. rewrite Hesc. cbv zeta.
  unfold bind at 1. rewrite Hbuf. cbn [negb].
  rewrite tpc_buffer_holds. cbn [fst snd].
  destruct (2 + strlen cmd + strlen etid <? 0) eqn:Hneg;
    [apply Z.ltb_lt in Hneg; unfold strlen in Hneg; lia|].
  reflexivity.
Qed.

End TpcProperties.

(** A quoting function for the examples: the id between apostrophes. *)
Lemma pq_tpc_command_whole_witness :
  pq_tpc_command_locked (fun tid => ret (Some ("'" ++ tid ++ "'")))
    (fun _ => ret true) "PREPARE TRANSACTION" "42_Z3RyaWQ=_YnF1YWw="
    None None Cases.w_open
  = pq_execute_command_locked "PREPARE TRANSACTION '42_Z3RyaWQ=_YnF1YWw=';"
      Cases.w_open.
Proof.
  apply (pq_tpc_command_whole (fun tid => ret (Some ("'" ++ tid ++ "'")))
           (fun _ => ret true) "PREPARE TRANSACTION" "42_Z3RyaWQ=_YnF1YWw="
           "'42_Z3RyaWQ=_YnF1YWw='" None None Cases.w_open Cases.w_open
           Cases.w_open); reflexivity.
Defined.

(** ** typecast_basic.c: the buffers of the casts *)

Module TypecastFacts.

Import Typecast.

Local Open Scope list_scope.

Lemma firstn_prefix {A : Type} (pre rest : list A) :
  firstn (List.length pre) (pre ++ rest) = pre.
Proof. induction pre as [|a pre IH]; cbn; [now destruct rest|now rewrite IH]. Qed.

Lemma skipn_prefix {A : Type} (pre rest : list A) (x : A) :
  skipn (S (List.length pre)) (pre ++ x :: rest) = rest.
Proof. induction pre as [|a pre IH]; [reflexivity|exact IH]. Qed.

Lemma store_next (pre : array) (k : nat) (c : ascii) :
  store (pre ++ repeat None (S k)) (Z.of_nat (List.length pre)) c
  = Some (pre ++ Some c :: repeat None k)%list.
Proof.
  unfold store.
  replace (Z.of_nat (List.length pre) <? 0) with false
    by (symmetry; apply Z.ltb_ge; lia).
  replace (Z.of_nat (List.length (pre ++ repeat None (S k)))
             <=? Z.of_nat (List.length pre)) with false
    by (symmetry; apply Z.leb_gt; rewrite length_app, repeat_length; lia).
  cbn [orb repeat]. rewrite Nat2Z.id.
  now rewrite firstn_prefix, skipn_prefix.
Qed.

Lemma store_outside (buffer : array) (i : Z) (c : ascii) :
  Z.of_nat (List.length buffer) <= i -> store buffer i c = None.
Proof.
  intros H. unfold store.
  replace (Z.of_nat (List.length buffer) <=? i) with true
    by (symmetry; apply Z.leb_le; lia).
  now rewrite orb_true_r.
Qed.

Lemma store_length (buffer buffer' : array) (i : Z) (c : ascii) :
  store buffer i c = Some buffer' -> List.length buffer' = List.length buffer.
Proof.
  unfold store.
  destruct ((i <? 0) || (Z.of_nat (List.length buffer) <=? i)) eqn:Hin;
    [discriminate|].
  apply orb_false_iff in Hin. destruct Hin as [Hneg Hle].
  apply Z.ltb_ge in Hneg. apply Z.leb_gt in Hle.
  intros [= <-].
  rewrite length_app. cbn [List.length].
  change (match buffer with [] => [] | _ :: l => skipn (Z.to_nat i) l end)
    with (skipn (S (Z.to_nat i)) buffer).
  rewrite length_firstn, length_skipn. lia.
Qed.

Lemma write_length (cs : list ascii) :
  forall (buffer buffer' : array) (i : Z),
    write buffer i cs = Some buffer' ->
    List.length buffer' = List.length buffer.
Proof.
  induction cs as [|c cs IH]; intros buffer buffer' i; cbn [write].
  - now intros [= <-].
  - destruct (store buffer i c) as [b1|] eqn:Hs; [|discriminate].
    intros H. rewrite (IH _ _ _ H). eapply store_length; eauto.
Qed.

Lemma write_fresh (cs : list ascii) :
  forall (pre : array) (k : nat),
    (List.length cs <= k)%nat ->
    write (pre ++ repeat None k) (Z.of_nat (List.length pre)) cs
    = Some (pre ++ map Some cs ++ repeat None (k - List.length cs))%list.
Proof.
  induction cs as [|c cs IH]; intros pre k Hk; cbn [write map List.length app].
  - now rewrite Nat.sub_0_r.
  - destruct k as [|k]; [cbn in Hk; lia|].
    rewrite store_next.
    replace (pre ++ Some c :: repeat None k)%list
      with ((pre ++ [Some c]) ++ repeat None k)%list
      by now rewrite <- app_assoc.
    replace (Z.of_nat (List.length pre) + 1)
      with (Z.of_nat (List.length (pre ++ [Some c])))
      by (rewrite length_app; cbn [List.length]; lia).
    rewrite IH by (cbn in Hk; lia).
    rewrite <- app_assoc. reflexivity.
Qed.

Lemma copied_length (n : nat) :
  forall (s : string) (cs : list ascii),
    copied s n = Some cs -> List.length cs = n.
Proof.
  induction n as [|n IH]; intros s cs; cbn [copied].
  - now intros [= <-].
  - destruct s as [|c s]; [discriminate|].
    destruct (Ascii.eqb c zero).
    + intros H. injection H as H. subst cs. apply (repeat_length zero (S n)).
    + destruct (copied s n) as [cs'|] eqn:Hc; [|discriminate].
      intros H. injection H as H. subst cs. cbn [List.length]. f_equal. eauto.
Qed.

Lemma copied_readable (n : nat) :
  forall (s : string), (n <= String.length s)%nat -> copied s n <> None.
Proof.
  induction n as [|n IH]; intros s Hn; cbn [copied]; [discriminate|].
  destruct s as [|c s]; [cbn in Hn; lia|].
  destruct (Ascii.eqb c zero); [discriminate|].
  specialize (IH s). destruct (copied s n); [discriminate|].
  cbn in Hn. exfalso. apply IH; [lia|reflexivity].
Qed.

Lemma array_string_zeros (k : nat) (rest : array) :
  array_string (map Some (repeat zero k) ++ Some zero :: rest) = Some EmptyString.
Proof. destruct k; reflexivity. Qed.

(** What is read back from the array is the text of the column. *)
Lemma array_string_copied (n : nat) :
  forall (s : string) (cs : list ascii) (rest : array),
    copied s n = Some cs ->
    array_string (map Some cs ++ Some zero :: rest)
    = Some (until_nul (String.substring 0 n s)).
Proof.
  induction n as [|n IH]; intros s cs rest; cbn [copied].
  - intros [= <-]. destruct s; reflexivity.
  - destruct s as [|c s]; [discriminate|].
    cbn [String.substring until_nul].
    destruct (Ascii.eqb c zero) eqn:Hc.
    + intros H. injection H as H. subst cs. apply (array_string_zeros (S n)).
    + destruct (copied s n) as [cs'|] eqn:Hcs; [|discriminate].
      intros H. injection H as H. subst cs. cbn [map app array_string]. rewrite Hc.
      now rewrite (IH s cs' rest Hcs).
Qed.

Lemma uninitialised_length (size : Z) :
  Z.of_nat (List.length (uninitialised size)) = Z.max 0 size.
Proof. unfold uninitialised. rewrite repeat_length. lia. Qed.

(** The copy into a fresh array of [size] cells: defined, and the text
    of the column, exactly when the column is shorter than the array. *)
Lemma copy_terminated_spec (size len : Z) (s : string) :
  0 <= len <= strlen s ->
  copy_terminated (uninitialised size) s len
  = if len <? size then Some (column_text s len) else None.
Proof.
  intros [H0 Hlen]. unfold copy_terminated, strncpy, strlen in *.
  replace (len <? 0) with false by (symmetry; apply Z.ltb_ge; lia).
  destruct (copied s (Z.to_nat len)) as [cs|] eqn:Hcs;
    [|exfalso; apply (copied_readable (Z.to_nat len) s); [lia|exact Hcs]].
  pose proof (copied_length _ _ _ Hcs) as Hl.
  destruct (len <? size) eqn:Hfit.
  - apply Z.ltb_lt in Hfit.
    unfold uninitialised.
    pose proof (write_fresh cs [] (Z.to_nat size)) as Hw.
    cbn [app List.length Z.of_nat] in Hw. rewrite Hw by lia.
    replace (Z.to_nat size - List.length cs)%nat
      with (S (Z.to_nat size - List.length cs - 1)) by lia.
    replace len with (Z.of_nat (List.length (map Some cs)))
      by (rewrite length_map; lia).
    rewrite store_next.
    rewrite (array_string_copied _ _ _ _ Hcs).
    unfold column_text. rewrite length_map, Hl, Nat2Z.id. reflexivity.
  - apply Z.ltb_ge in Hfit.
    destruct (write (uninitialised size) 0 cs) as [buffer1|] eqn:Hw;
      [|reflexivity].
    apply write_length in Hw.
    rewrite store_outside; [reflexivity|].
    rewrite Hw, uninitialised_length. lia.
Qed.

Lemma load_in_range (s : string) (len : Z) (c : ascii) :
  load s len = Some c -> 0 <= len < strlen s.
Proof.
  unfold load, strlen. destruct (len <? 0) eqn:Hneg; [discriminate|].
  apply Z.ltb_ge in Hneg. intros Hget.
  assert (Z.to_nat len < String.length s)%nat; [|lia].
  revert Hget. generalize (Z.to_nat len). clear.
  induction s as [|a s IH]; intros n; destruct n; cbn; try discriminate;
    intros H; try lia.
  apply IH in H. lia.
Qed.

(** A column followed by a terminator is read as it is. *)
Lemma until_nul_column (s : string) :
  forall (n : nat),
    String.get n s = Some zero ->
    until_nul s = until_nul (String.substring 0 n s).
Proof.
  induction s as [|a s IH]; intros n; destruct n; cbn; try discriminate.
  - intros [= ->]. reflexivity.
  - intros H. destruct (Ascii.eqb a zero); [reflexivity|].
    now rewrite (IH n H).
Qed.

Lemma c_string_column (s : string) (len : Z) :
  load s len = Some zero -> c_string s = Some (column_text s len).
Proof.
  unfold load, c_string, column_text.
  destruct (len <? 0); [discriminate|]. intros Hget.
  rewrite <- (until_nul_column s _ Hget).
  replace (nul_free s) with false; [reflexivity|].
  symmetry. revert Hget. generalize (Z.to_nat len).
  induction s as [|a s IH]; intros n; destruct n; cbn; try discriminate.
  - intros [= ->]. reflexivity.
  - intros H. rewrite (IH n H). apply andb_false_r.
Qed.

End TypecastFacts.

Section CastProperties.

Import Typecast TypecastFacts.

Variable object : Type.
Variable Py_None : object.
Variable PyInt_FromString : string -> object.
Variable PyLong_FromString : string -> object.
Variable PyMem_Malloc : Z -> bool.
Variable PyErr_NoMemory : object.
Variable psyco_GetDecimalType : option object.
Variable PyFloat_Type : object.
Variable PyObject_CallFunction : object -> string -> object.

(** X28.  typecast_INTEGER_cast hands PyInt_FromString the text of the
    column (its first len bytes, up to a NUL) when s[len] is NUL or len is
    at most 11. When s[len] is not NUL and len is 12 or more, the copy
    overruns the 12-byte buffer: undefined behaviour. *)
Theorem typecast_INTEGER_buffer (s : string) (len : Z) (c : ascii) :
  load s len = Some c ->
  typecast_INTEGER_cast Py_None PyInt_FromString (Some s) len
  = if Ascii.eqb c zero || (len <? 12)
    then Some (PyInt_FromString (column_text s len))
    else None.
Proof.
  intros Hload. unfold typecast_INTEGER_cast. rewrite Hload.
  destruct (Ascii.eqb c zero) eqn:Hc; cbn [negb orb].
  - apply Ascii.eqb_eq in Hc. subst c.
    now rewrite (c_string_column s len Hload).
  - apply load_in_range in Hload.
    rewrite copy_terminated_spec by lia.
    destruct (len <? 12); reflexivity.
Qed.

(** X29.  typecast_LONGINTEGER_cast hands PyLong_FromString the text of
    the column (its first len bytes, up to a NUL) when s[len] is NUL or
    len is at most 23. When s[len] is not NUL and len is 24 or more, the
    copy overruns the 24-byte buffer: undefined behaviour. *)
Theorem typecast_LONGINTEGER_buffer (s : string) (len : Z) (c : ascii) :
  load s len = Some c ->
  typecast_LONGINTEGER_cast Py_None PyLong_FromString (Some s) len
  = if Ascii.eqb c zero || (len <? 24)
    then Some (PyLong_FromString (column_text s len))
    else None.
Proof.
  intros Hload. unfold typecast_LONGINTEGER_cast. rewrite Hload.
  destruct (Ascii.eqb c zero) eqn:Hc; cbn [negb orb].
  - apply Ascii.eqb_eq in Hc. subst c.
    now rewrite (c_string_column s len Hload).
  - apply load_in_range in Hload.
    rewrite copy_terminated_spec by lia.
    destruct (len <? 24); reflexivity.
Qed.

(** X30.  typecast_DECIMAL_cast never overruns its buffer of len+1 bytes,
    for any length of column: when the allocation succeeds the text of the
    column (its first len bytes, up to a NUL) goes to the Decimal type, or
    to float when there is no Decimal type; when it fails the result is
    that of PyErr_NoMemory and nothing is parsed. *)
Theorem typecast_DECIMAL_buffer (s : string) (len : Z) :
  0 <= len <= strlen s ->
  typecast_DECIMAL_cast Py_None PyMem_Malloc PyErr_NoMemory
    psyco_GetDecimalType PyFloat_Type PyObject_CallFunction (Some s) len
  = Some (if PyMem_Malloc (len + 1)
          then PyObject_CallFunction
                 (match psyco_GetDecimalType with
                  | Some decimalType => decimalType
                  | None => PyFloat_Type
                  end)
                 (column_text s len)
          else PyErr_NoMemory).
Proof.
  intros Hlen. unfold typecast_DECIMAL_cast.
  destruct (PyMem_Malloc (len + 1)); cbn [negb]; [|reflexivity].
  rewrite copy_terminated_spec by exact Hlen.
  replace (len <? len + 1) with true by (symmetry; apply Z.ltb_lt; lia).
  destruct psyco_GetDecimalType; reflexivity.
Qed.

End CastProperties.

(** The row of a result holds [-2147483648] and then the next column:
    the 11 characters are parsed. *)
Lemma typecast_INTEGER_buffer_witness :
  Typecast.typecast_INTEGER_cast None (fun text => Some text)
    (Some "-2147483648|next") 11
  = Some (Some "-2147483648").
Proof.
  apply (typecast_INTEGER_buffer (option string) None (fun text => Some text)
           "-2147483648|next" 11 "|").
  reflexivity.
Defined.

Lemma typecast_LONGINTEGER_buffer_witness :
  Typecast.typecast_LONGINTEGER_cast None (fun text => Some text)
    (Some "-9223372036854775808|next") 20
  = Some (Some "-9223372036854775808").
Proof.
  apply (typecast_LONGINTEGER_buffer (option string) None
           (fun text => Some text) "-9223372036854775808|next" 20 "|").
  reflexivity.
Defined.

Lemma typecast_DECIMAL_buffer_witness :
  Typecast.typecast_DECIMAL_cast "None" (fun _ => true) "MemoryError"
    None "float" (fun type text => type ++ "(" ++ text ++ ")")
    (Some "3.14159265358979323846264338327950288|next") 37
  = Some "float(3.14159265358979323846264338327950288)".
Proof.
  apply (typecast_DECIMAL_buffer string "None" (fun _ => true) "MemoryError"
           None "float" (fun type text => type ++ "(" ++ text ++ ")")
           "3.14159265358979323846264338327950288|next" 37).
  unfold strlen. cbn. lia.
Defined.

(** Twelve digits and no terminator behind them: the cast writes past
    its buffer. *)
Example typecast_INTEGER_overrun :
  Typecast.typecast_INTEGER_cast None (fun text => Some text)
    (Some "123456789012|next") 12
  = None.
Proof. vm_compute. reflexivity. Qed.

(** ** pq_execute: what decides the value it returns *)








